(** * A shallow embedding of the notebook [Visualization_of_LLM.ipynb]

    The notebook builds a single-head transformer language model with
    PyTorch, trains it one (prefix, next token) example at a time and uses
    it for greedy next-word prediction.  This development embeds the
    notebook's own code: [tokenize], the modules [Embedding],
    [PositionalEncoding], [SelfAttention], [TransformerBlock] and
    [SimpleLLM], the training loop of step 7 and the decoding cell of
    step 8.

    Conventions.
    - Python integers are [Z]; tensor sizes and indices are [nat].
    - A float tensor is a shape together with an indexing function into [R]:
      single-precision arithmetic is idealised as real arithmetic, so
      rounding, overflow to infinity and NaN are outside the model.  The
      program divides by zero in two places, and a float division 0.0 / 0
      gives NaN where the division of [R] gives 0: the mean of
      [nn.CrossEntropyLoss] over no target (see [CrossEntropyLoss.forward])
      and the scaling of the attention scores for an embedding dimension
      0 (see [SelfAttention.scores]).
    - A Python exception is a value [Raise site e] of the [result] type; the
      [site] records which operation of the notebook raised it.  The one
      [e] that is not an exception is [NotANumber].
    - A module object is mutable in Python.  Every [forward] is therefore a
      computation in a state-and-exception monad over the module object, so
      that "the call does not change the module" is a theorem, not a
      convention.
    - The PyTorch operations the notebook calls ([torch.tensor],
      [nn.Embedding], [nn.Linear], [nn.LayerNorm], [torch.bmm],
      [torch.softmax], broadcasting [+], [nn.CrossEntropyLoss],
      [torch.argmax]) are modelled from their documented behaviour,
      including the exceptions they raise on bad shapes, types and indices.
      Automatic differentiation and the Adam optimiser are parameters of the
      training section. *)

From Stdlib Require Import Reals Lra Lia ZArith List String Ascii.
From stdpp Require Import base gmap strings.

Local Open Scope nat_scope.

(* ===================================================================== *)
(** * Exceptions *)
(* ===================================================================== *)

(** The operation that raised. *)
Inductive site : Type :=
| in_tokenize            (* vocab["<UNK>"] *)
| in_torch_tensor        (* torch.tensor(...) *)
| in_subscript           (* sentence[i], output[:, -1, :] *)
| in_Embedding
| in_PositionalEncoding_init
| in_add                 (* broadcasting + *)
| in_Linear
| in_bmm
| in_LayerNorm
| in_CrossEntropyLoss
| in_argmax.

(** The Python exception classes that can occur. *)
Inductive exn : Type :=
| KeyError (key : string)
| IndexError
| ZeroDivisionError
| RuntimeError_overflow  (* "Overflow when unpacking long" *)
| RuntimeError_dtype     (* "Expected tensor ... to have scalar types Long, Int" *)
| RuntimeError_shape     (* sizes that do not match / cannot be broadcast *)
| ValueError             (* input and target batch sizes differ *)
| NotANumber.            (* no exception: the float result is NaN, which no
                            real number stands for; the model ends there *)

Inductive result (A : Type) : Type :=
| Ok (a : A)
| Raise (s : site) (e : exn).
Arguments Ok {A} a.
Arguments Raise {A} s e.

Definition rbind {A B} (r : result A) (k : A -> result B) : result B :=
  match r with
  | Ok a => k a
  | Raise s e => Raise s e
  end.

Fixpoint rmap_list {A B} (f : A -> result B) (l : list A) : result (list B) :=
  match l with
  | [] => Ok []
  | a :: l' => rbind (f a) (fun b => rbind (rmap_list f l') (fun bs => Ok (b :: bs)))
  end.

(* ===================================================================== *)
(** * The state-and-exception monad of module calls *)
(* ===================================================================== *)

(** A computation over a mutable object of type [S]: it returns a result or
    raises, and leaves the object in a (possibly changed) state. *)
Definition M (S A : Type) : Type := S -> result A * S.

Definition ret {S A} (a : A) : M S A := fun s => (Ok a, s).

Definition raise {S A} (st : site) (e : exn) : M S A := fun s => (Raise st e, s).

Definition bind {S A B} (c : M S A) (k : A -> M S B) : M S B :=
  fun s =>
    match c s with
    | (Ok a, s') => k a s'
    | (Raise st e, s') => (Raise st e, s')
    end.

(** Read an attribute of [self]. *)
Definition get {S} : M S S := fun s => (Ok s, s).

(** Lift a pure, possibly raising, operation. *)
Definition lift {S A} (r : result A) : M S A := fun s => (r, s).

Notation "'let*' x ':=' c 'in' k" := (bind c (fun x => k))
  (at level 10, x name, c at level 100, k at level 200).

(** A sub-object of [S]: how to read it and how to write it back. *)
Record lens (S T : Type) : Type := Lens {
  view : S -> T;
  update : T -> S -> S
}.
Arguments Lens {S T} view update.
Arguments view {S T} l s.
Arguments update {S T} l t s.

(** Call a method of the sub-object [l] of [self]: [self.l(...)]. *)
Definition zoom {S T A} (l : lens S T) (c : M T A) : M S A :=
  fun s => let '(r, t') := c (view l s) in (r, update l t' s).

(** A lens whose write-back of an unchanged sub-object changes nothing. *)
Definition lawful {S T} (l : lens S T) : Prop :=
  forall s, update l (view l s) s = s.

(** A computation that never changes the object it runs on. *)
Definition readonly {S A} (c : M S A) : Prop :=
  forall s, snd (c s) = s.

(** The value (or exception) a computation produces from state [s]. *)
Definition eval {S A} (c : M S A) (s : S) : result A := fst (c s).

(* ===================================================================== *)
(** * Step 1: tokenization *)
(* ===================================================================== *)

(** The code points below 256 for which Python's [str.isspace] holds. *)
Definition is_space (c : ascii) : bool :=
  let n := nat_of_ascii c in
  ((9 <=? n) && (n <=? 13)) || ((28 <=? n) && (n <=? 32))
  || (n =? 133) || (n =? 160).

(** [text.split()]: maximal runs of non-whitespace characters, in order.
    [cur] is the word being read. *)
Fixpoint split_from (cur : string) (text : string) : list string :=
  match text with
  | EmptyString => if String.eqb cur EmptyString then [] else [cur]
  | String c rest =>
      if is_space c
      then (if String.eqb cur EmptyString then split_from EmptyString rest
            else cur :: split_from EmptyString rest)
      else split_from (cur ++ String c EmptyString) rest
  end.

Definition split (text : string) : list string := split_from EmptyString text.

(** [vocab[key]] *)
Definition getitem (vocab : gmap string Z) (key : string) : result Z :=
  match vocab !! key with
  | Some v => Ok v
  | None => Raise in_tokenize (KeyError key)
  end.

(** [vocab.get(word, default)] *)
Definition dict_get (vocab : gmap string Z) (word : string) (default : Z) : Z :=
  match vocab !! word with
  | Some v => v
  | None => default
  end.

(** [[vocab.get(word, vocab["<UNK>"]) for word in text.split()]]: the
    default [vocab["<UNK>"]] is evaluated for every word, before [get]. *)
Definition tokenize (text : string) (vocab : gmap string Z) : result (list Z) :=
  rmap_list
    (fun word => rbind (getitem vocab "<UNK>") (fun unk => Ok (dict_get vocab word unk)))
    (split text).

(** The entries of the vocabulary of step 7, as written. *)
Definition vocab_items : list (string * Z) :=
    [ ("hello", 0); ("world", 1); ("how", 2); ("are", 3); ("you", 4);
      ("<UNK>", 5); ("good", 6); ("morning", 7); ("evening", 8); ("night", 9);
      ("friend", 10); ("nice", 11); ("to", 12); ("meet", 13); ("learning", 14);
      ("AI", 15); ("is", 16); ("fun", 17); ("great", 18); ("awesome", 19);
      ("day", 20); ("doing", 21); ("today", 22); ("hope", 23); ("all", 24);
      ("well", 25); ("enjoy", 26); ("sunny", 27); ("weather", 28); ("coding", 29);
      ("Python", 30); ("machine", 31); ("data", 32); ("science", 33);
      ("artificial", 34); ("intelligence", 35); ("deep", 36); ("neural", 37);
      ("network", 38);
      ("natural", 39); ("language", 40); ("processing", 41); ("happy", 42);
      ("birthday", 43);
      ("welcome", 44); ("home", 45); ("family", 46); ("weekend", 47);
      ("vacation", 48);
      ("study", 49); ("new", 50); ("projects", 51); ("explore", 52);
      ("knowledge", 53);
      ("reading", 54); ("books", 55); ("writing", 56); ("articles", 57);
      ("playing", 58);
      ("games", 59); ("music", 60); ("exercise", 61); ("healthy", 62);
      ("lifestyle", 63);
      ("delicious", 64); ("food", 65); ("travel", 66); ("adventure", 67);
      ("nature", 68);
      ("photography", 69); ("technology", 70); ("innovation", 71); ("future", 72)
    ]%string%Z.

Definition vocab : gmap string Z := list_to_map vocab_items.

(** [vocab_size = len(vocab)] *)
Definition vocab_size : nat := size vocab.

(* ===================================================================== *)
(** * Tensors *)
(* ===================================================================== *)

Inductive dtype : Type := float32 | int64.

(** A 1-D tensor built from Python integers. *)
Record Tensor1 : Type := mkTensor1 {
  dtype1 : dtype;
  data1 : list Z
}.

(** A 2-D tensor of token ids, one row per batch element. *)
Record IndexTensor : Type := mkIndexTensor {
  idx_dtype : dtype;
  idx_rows : list (list Z)
}.

(** A 2-D float tensor. *)
Record Tensor2 : Type := mkTensor2 {
  rows2 : nat;
  cols2 : nat;
  item2 : nat -> nat -> R
}.

(** A 3-D float tensor. *)
Record Tensor3 : Type := mkTensor3 {
  size0 : nat;
  size1 : nat;
  size2 : nat;
  item3 : nat -> nat -> nat -> R
}.

Definition fits_int64 (z : Z) : bool :=
  ((- 2 ^ 63 <=? z) && (z <? 2 ^ 63))%Z.

(** [torch.tensor(l)] for a list of Python integers: the empty list gives an
    empty tensor of the default dtype, float32; integers give int64, and an
    integer that does not fit in 64 bits raises. *)
Definition torch_tensor (l : list Z) : result Tensor1 :=
  match l with
  | [] => Ok (mkTensor1 float32 [])
  | _ => if forallb fits_int64 l then Ok (mkTensor1 int64 l)
         else Raise in_torch_tensor RuntimeError_overflow
  end.

(** [torch.tensor(z).unsqueeze(0)] for one Python integer. *)
Definition torch_tensor_scalar (z : Z) : result Tensor1 :=
  if fits_int64 z then Ok (mkTensor1 int64 [z])
  else Raise in_torch_tensor RuntimeError_overflow.

(** [t.unsqueeze(0)] on a 1-D tensor: shape (n) becomes (1, n). *)
Definition unsqueeze0 (t : Tensor1) : IndexTensor :=
  mkIndexTensor (dtype1 t) [data1 t].

(** [t.unsqueeze(0)] on a 2-D float tensor. *)
Definition unsqueeze0_2 (t : Tensor2) : Tensor3 :=
  mkTensor3 1 (rows2 t) (cols2 t) (fun _ i k => item2 t i k).

(** [t.transpose(0, 1)] *)
Definition transpose01 (t : Tensor3) : Tensor3 :=
  mkTensor3 (size1 t) (size0 t) (size2 t) (fun i j k => item3 t j i k).

(** [t.transpose(1, 2)] *)
Definition transpose12 (t : Tensor3) : Tensor3 :=
  mkTensor3 (size0 t) (size2 t) (size1 t) (fun b i j => item3 t b j i).

(** [t[:n, :]]: a Python slice is clamped to the size, it never raises. *)
Definition slice0 (t : Tensor3) (n : nat) : Tensor3 :=
  mkTensor3 (Nat.min n (size0 t)) (size1 t) (size2 t) (item3 t).

(** [torch.zeros(r, c)] *)
Definition zeros (r c : nat) : Tensor2 := mkTensor2 r c (fun _ _ => 0%R).

(** Broadcasting of one dimension: equal sizes, or one of them is 1. *)
Definition broadcast_dim (m n : nat) : option nat :=
  if m =? n then Some m
  else if m =? 1 then Some n
  else if n =? 1 then Some m
  else None.

(** The index read in a dimension of size [m] for position [i] of the
    broadcast result. *)
Definition bidx (m i : nat) : nat := if m =? 1 then 0 else i.

(** [a + b] with broadcasting. *)
Definition tensor_add (a b : Tensor3) : result Tensor3 :=
  match broadcast_dim (size0 a) (size0 b),
        broadcast_dim (size1 a) (size1 b),
        broadcast_dim (size2 a) (size2 b) with
  | Some n0, Some n1, Some n2 =>
      Ok (mkTensor3 n0 n1 n2
            (fun i j k =>
               (item3 a (bidx (size0 a) i) (bidx (size1 a) j) (bidx (size2 a) k)
                + item3 b (bidx (size0 b) i) (bidx (size1 b) j) (bidx (size2 b) k))%R))
  | _, _, _ => Raise in_add RuntimeError_shape
  end.

(** The sum of [f 0], ..., [f (n-1)]. *)
Fixpoint sumR (n : nat) (f : nat -> R) : R :=
  match n with
  | O => 0%R
  | S n' => (sumR n' f + f n')%R
  end.

(** [torch.bmm(a, b)]: per batch element, (n x m) times (m x p). *)
Definition bmm (a b : Tensor3) : result Tensor3 :=
  if (size0 a =? size0 b) && (size2 a =? size1 b)
  then Ok (mkTensor3 (size0 a) (size1 a) (size2 b)
             (fun bt i j => sumR (size2 a) (fun k => (item3 a bt i k * item3 b bt k j)%R)))
  else Raise in_bmm RuntimeError_shape.

(** [t / c] for a scalar [c]. *)
Definition div_scalar (t : Tensor3) (c : R) : Tensor3 :=
  mkTensor3 (size0 t) (size1 t) (size2 t) (fun b i j => (item3 t b i j / c)%R).

(** [torch.softmax(t, dim=-1)] *)
Definition softmax (t : Tensor3) : Tensor3 :=
  mkTensor3 (size0 t) (size1 t) (size2 t)
    (fun b i j => (exp (item3 t b i j)
                   / sumR (size2 t) (fun j' => exp (item3 t b i j')))%R).

(** [nn.ReLU()] *)
Definition relu (t : Tensor3) : Tensor3 :=
  mkTensor3 (size0 t) (size1 t) (size2 t) (fun b i j => Rmax 0 (item3 t b i j)).

(** [t[:, -1, :]]: the last index of dimension 1; raises when it is empty. *)
Definition select_last (t : Tensor3) : result Tensor2 :=
  if size1 t =? 0 then Raise in_subscript IndexError
  else Ok (mkTensor2 (size0 t) (size2 t) (fun b v => item3 t b (size1 t - 1) v)).

(** The first index below [n] at which [f] is maximal ([0] when [n = 0]). *)
Fixpoint argmax_below (f : nat -> R) (n : nat) : nat :=
  match n with
  | O => 0
  | S n' => let best := argmax_below f n' in
            if Rlt_dec (f best) (f n') then n' else best
  end.

(** [torch.argmax(t).item()]: without [dim], the index into the flattened
    tensor. *)
Definition argmax (t : Tensor2) : result Z :=
  if rows2 t * cols2 t =? 0 then Raise in_argmax IndexError
  else Ok (Z.of_nat
             (argmax_below (fun n => item2 t (n / cols2 t) (n mod cols2 t))
                (rows2 t * cols2 t))).

(* ===================================================================== *)
(** * PyTorch layers used by the notebook *)
(* ===================================================================== *)

(** [nn.Embedding(num_embeddings, embedding_dim)] *)
Module nn_Embedding.
Record t : Type := mk {
  num_embeddings : nat;
  embedding_dim : nat;
  weight : nat -> nat -> R          (* num_embeddings x embedding_dim *)
}.

Definition init (num_embeddings embedding_dim : nat) (w0 : nat -> nat -> R) : t :=
  mk num_embeddings embedding_dim w0.

Definition valid_index (self : t) (id : Z) : bool :=
  ((0 <=? id) && (id <? Z.of_nat (num_embeddings self)))%Z.

(** The rows of [weight] selected by the ids of [x], shape (B, L, d).  The
    index tensor must be int64, and every id must be a row of the table:
    there is no wrap-around for negative ids. *)
Definition forward (x : IndexTensor) : M t Tensor3 :=
  let* self := get in
  match idx_dtype x with
  | float32 => raise in_Embedding RuntimeError_dtype
  | int64 =>
      if forallb (forallb (valid_index self)) (idx_rows x)
      then ret (mkTensor3 (length (idx_rows x)) (length (hd [] (idx_rows x)))
                  (embedding_dim self)
                  (fun b i k =>
                     weight self (Z.to_nat (nth i (nth b (idx_rows x) []) 0%Z)) k))
      else raise in_Embedding IndexError
  end.
End nn_Embedding.

(** [nn.Linear(in_features, out_features)]: [y = x W^T + b] on the last
    dimension. *)
Module Linear.
Record t : Type := mk {
  in_features : nat;
  out_features : nat;
  weight : nat -> nat -> R;         (* out_features x in_features *)
  bias : nat -> R
}.

Definition init (in_features out_features : nat)
    (w0 : nat -> nat -> R) (b0 : nat -> R) : t :=
  mk in_features out_features w0 b0.

Definition forward (x : Tensor3) : M t Tensor3 :=
  let* self := get in
  if size2 x =? in_features self
  then ret (mkTensor3 (size0 x) (size1 x) (out_features self)
              (fun b i o =>
                 (sumR (in_features self) (fun k => item3 x b i k * weight self o k)
                  + bias self o)%R))
  else raise in_Linear RuntimeError_shape.
End Linear.

(** [nn.LayerNorm(normalized_shape)] over the last dimension, with the
    learned scale [weight] and shift [bias]. *)
Module LayerNorm.
Record t : Type := mk {
  normalized_shape : nat;
  eps : R;
  weight : nat -> R;
  bias : nat -> R
}.

Definition init (normalized_shape : nat) : t :=
  mk normalized_shape (1 / 100000)%R (fun _ => 1%R) (fun _ => 0%R).

Definition mean (x : Tensor3) (b i : nat) : R :=
  (sumR (size2 x) (fun k => item3 x b i k) / INR (size2 x))%R.

Definition var (x : Tensor3) (b i : nat) : R :=
  (sumR (size2 x) (fun k => (item3 x b i k - mean x b i) * (item3 x b i k - mean x b i))
   / INR (size2 x))%R.

Definition forward (x : Tensor3) : M t Tensor3 :=
  let* self := get in
  if size2 x =? normalized_shape self
  then ret (mkTensor3 (size0 x) (size1 x) (size2 x)
              (fun b i k =>
                 ((item3 x b i k - mean x b i) / sqrt (var x b i + eps self)
                  * weight self k + bias self k)%R))
  else raise in_LayerNorm RuntimeError_shape.
End LayerNorm.

(** [nn.Sequential] of a list of modules: the modules are called in order, each on the
    output of the one before; [fwd] is the [forward] of the element type. *)
Fixpoint Sequential_run {T} (fwd : Tensor3 -> M T Tensor3)
    (modules : list T) (x : Tensor3) : result Tensor3 * list T :=
  match modules with
  | [] => (Ok x, [])
  | m :: rest =>
      match fwd x m with
      | (Ok y, m') =>
          let '(r, rest') := Sequential_run fwd rest y in (r, m' :: rest')
      | (Raise s e, m') => (Raise s e, m' :: rest)
      end
  end.

Definition Sequential_forward {T} (fwd : Tensor3 -> M T Tensor3)
    (x : Tensor3) : M (list T) Tensor3 :=
  fun modules => Sequential_run fwd modules x.

(** The two kinds of module inside [feed_forward]. *)
Inductive layer : Type :=
| nn_Linear (l : Linear.t)
| nn_ReLU.

Definition layer_forward (x : Tensor3) : M layer Tensor3 :=
  fun self =>
    match self with
    | nn_Linear l => let '(r, l') := Linear.forward x l in (r, nn_Linear l')
    | nn_ReLU => (Ok (relu x), nn_ReLU)
    end.

(** [nn.CrossEntropyLoss()] with its defaults (mean reduction,
    [ignore_index = -100]) on logits of shape (N, C) and N class indices.
    The mean is taken over the targets that are not ignored.  When there is
    none, PyTorch returns 0.0 / 0 = NaN without raising, and the NaN goes on
    into the gradients and, at the next [optimizer.step()], into the
    parameters.  Real-valued tensors cannot hold that, so [forward] ends
    there with [NotANumber] instead of returning the 0 that [0 / INR 0] is
    in [R]. *)
Module CrossEntropyLoss.
Definition ignore_index : Z := (-100)%Z.

(** [-log(softmax(input[n])[c])] *)
Definition nll (input : Tensor2) (n c : nat) : R :=
  (- (item2 input n c - ln (sumR (cols2 input) (fun c' => exp (item2 input n c')))))%R.

(** The sum of the losses of the targets from row [n] on, and how many of
    them were not ignored. *)
Fixpoint terms (input : Tensor2) (n : nat) (target : list Z) : result (R * nat) :=
  match target with
  | [] => Ok (0%R, 0)
  | c :: rest =>
      if (c =? ignore_index)%Z then terms input (S n) rest
      else if ((0 <=? c) && (c <? Z.of_nat (cols2 input)))%Z
      then rbind (terms input (S n) rest)
             (fun '(s, cnt) => Ok ((nll input n (Z.to_nat c) + s)%R, S cnt))
      else Raise in_CrossEntropyLoss IndexError
  end.

Definition forward (input : Tensor2) (target : Tensor1) : result R :=
  match dtype1 target with
  | float32 => Raise in_CrossEntropyLoss RuntimeError_dtype
  | int64 =>
      if rows2 input =? length (data1 target)
      then rbind (terms input 0 (data1 target))
             (fun '(s, cnt) =>
                if cnt =? 0 then Raise in_CrossEntropyLoss NotANumber
                else Ok (s / INR cnt)%R)
      else Raise in_CrossEntropyLoss ValueError
  end.
End CrossEntropyLoss.

(* ===================================================================== *)
(** * The modules of the notebook *)
(* ===================================================================== *)

(** The values the random initialisers of PyTorch draw when a model is
    built: the embedding table, and for the [n]-th [nn.Linear] created its
    weight and bias. *)
Record initial_values : Type := {
  normal_embedding : nat -> nat -> R;
  uniform_weight : nat -> nat -> nat -> R;
  uniform_bias : nat -> nat -> R
}.

Definition new_Linear (theta : initial_values) (n in_features out_features : nat)
  : Linear.t :=
  Linear.init in_features out_features (uniform_weight theta n) (uniform_bias theta n).

(** ** Step 2: [class Embedding] *)
Module Embedding.
Record t : Type := mk {
  embedding : nn_Embedding.t
}.

Definition embedding_ : lens t nn_Embedding.t :=
  Lens embedding (fun v _ => mk v).

Definition init (vocab_size embedding_dim : nat) (theta : initial_values) : t :=
  mk (nn_Embedding.init vocab_size embedding_dim (normal_embedding theta)).

Definition forward (x : IndexTensor) : M t Tensor3 :=
  zoom embedding_ (nn_Embedding.forward x).
End Embedding.

(** ** Step 3: [class PositionalEncoding] *)
Module PositionalEncoding.
Record t : Type := mk {
  embedding_dim : nat;
  pe : Tensor3                      (* the buffer, max_seq_len x 1 x d *)
}.

Definition default_max_seq_len : nat := 5000.

(** The number of columns [start], [start + 2], ... below [cols]. *)
Definition strided_cols (cols start : nat) : nat := (cols + 1 - start) / 2.

(** [dst[:, start::2] = src]: [src] is broadcast to the shape of the
    slice, and the assignment raises when it cannot be. *)
Definition setitem_cols (dst : Tensor2) (start : nat) (src : Tensor2)
  : result Tensor2 :=
  let n := strided_cols (cols2 dst) start in
  if ((rows2 src =? rows2 dst) || (rows2 src =? 1))
     && ((cols2 src =? n) || (cols2 src =? 1))
  then Ok (mkTensor2 (rows2 dst) (cols2 dst)
             (fun p c =>
                if (start <=? c) && ((c - start) mod 2 =? 0) && (c <? cols2 dst)
                then item2 src (if rows2 src =? rows2 dst then p else 0)
                               (if cols2 src =? n then (c - start) / 2 else 0)
                else item2 dst p c))
  else Raise in_PositionalEncoding_init RuntimeError_shape.

Definition map2 (f : R -> R) (x : Tensor2) : Tensor2 :=
  mkTensor2 (rows2 x) (cols2 x) (fun p k => f (item2 x p k)).

Definition init (embedding_dim max_seq_len : nat) : result t :=
  let pe := zeros max_seq_len embedding_dim in
  let position := fun p : nat => INR p in
  (* -math.log(10000.0) / embedding_dim *)
  if embedding_dim =? 0 then Raise in_PositionalEncoding_init ZeroDivisionError
  else
    let div_term := fun k : nat =>
      exp (INR (2 * k) * (- ln 10000 / INR embedding_dim)) in
    let angles := mkTensor2 max_seq_len ((embedding_dim + 1) / 2)
                    (fun p k => (position p * div_term k)%R) in
    rbind (setitem_cols pe 0 (map2 sin angles)) (fun pe =>
    rbind (setitem_cols pe 1 (map2 cos angles)) (fun pe =>
    Ok (mk embedding_dim (transpose01 (unsqueeze0_2 pe))))).

(** [x + self.pe[:x.size(0), :]] *)
Definition forward (x : Tensor3) : M t Tensor3 :=
  let* self := get in
  lift (tensor_add x (slice0 (pe self) (size0 x))).
End PositionalEncoding.

(** ** Step 4: [class SelfAttention] *)
Module SelfAttention.
Record t : Type := mk {
  query : Linear.t;
  key : Linear.t;
  value : Linear.t
}.

Definition query_ : lens t Linear.t :=
  Lens query (fun v s => mk v (key s) (value s)).
Definition key_ : lens t Linear.t :=
  Lens key (fun v s => mk (query s) v (value s)).
Definition value_ : lens t Linear.t :=
  Lens value (fun v s => mk (query s) (key s) v).

(** The [n]-th, [n+1]-th and [n+2]-th linear layers created. *)
Definition init (embedding_dim : nat) (theta : initial_values) (n : nat) : t :=
  mk (new_Linear theta n embedding_dim embedding_dim)
     (new_Linear theta (n + 1) embedding_dim embedding_dim)
     (new_Linear theta (n + 2) embedding_dim embedding_dim).

(** [torch.bmm(queries, keys.transpose(1, 2)) / torch.sqrt(x.size(-1))]

    For [x.size(-1) = 0] the code divides sums over no term by [sqrt 0]:
    its scores are 0.0 / 0 = NaN, where the scores below are [0 / 0 = 0] in
    [R].  The NaN stays inside [SelfAttention.forward], whose result has no
    column then, so the result of [forward] is the same; the entries of
    the scores and of the attention weights are not, and every statement
    about them assumes an embedding dimension above 0. *)
Definition scores (x queries keys : Tensor3) : result Tensor3 :=
  rbind (bmm queries (transpose12 keys))
    (fun qk => Ok (div_scalar qk (sqrt (INR (size2 x))))).

Definition forward (x : Tensor3) : M t Tensor3 :=
  let* queries := zoom query_ (Linear.forward x) in
  let* keys := zoom key_ (Linear.forward x) in
  let* values := zoom value_ (Linear.forward x) in
  let* scores := lift (scores x queries keys) in
  let attention_weights := softmax scores in
  let* attended_values := lift (bmm attention_weights values) in
  ret attended_values.
End SelfAttention.

(** ** Step 5: [class TransformerBlock] *)
Module TransformerBlock.
Record t : Type := mk {
  attention : SelfAttention.t;
  feed_forward : list layer;
  norm1 : LayerNorm.t;
  norm2 : LayerNorm.t
}.

Definition attention_ : lens t SelfAttention.t :=
  Lens attention (fun v s => mk v (feed_forward s) (norm1 s) (norm2 s)).
Definition feed_forward_ : lens t (list layer) :=
  Lens feed_forward (fun v s => mk (attention s) v (norm1 s) (norm2 s)).
Definition norm1_ : lens t LayerNorm.t :=
  Lens norm1 (fun v s => mk (attention s) (feed_forward s) v (norm2 s)).
Definition norm2_ : lens t LayerNorm.t :=
  Lens norm2 (fun v s => mk (attention s) (feed_forward s) (norm1 s) v).

(** The block uses the linear layers numbered [n] to [n + 4]. *)
Definition init (embedding_dim hidden_dim : nat) (theta : initial_values) (n : nat)
  : t :=
  mk (SelfAttention.init embedding_dim theta n)
     [ nn_Linear (new_Linear theta (n + 3) embedding_dim hidden_dim);
       nn_ReLU;
       nn_Linear (new_Linear theta (n + 4) hidden_dim embedding_dim) ]
     (LayerNorm.init embedding_dim)
     (LayerNorm.init embedding_dim).

Definition forward (x : Tensor3) : M t Tensor3 :=
  let* attended := zoom attention_ (SelfAttention.forward x) in
  let* sum1 := lift (tensor_add x attended) in
  let* x := zoom norm1_ (LayerNorm.forward sum1) in
  let* forwarded := zoom feed_forward_ (Sequential_forward layer_forward x) in
  let* sum2 := lift (tensor_add x forwarded) in
  let* x := zoom norm2_ (LayerNorm.forward sum2) in
  ret x.
End TransformerBlock.

(** ** Step 6: [class SimpleLLM] *)
Module SimpleLLM.
Record t : Type := mk {
  embedding : Embedding.t;
  positional_encoding : PositionalEncoding.t;
  transformer_blocks : list TransformerBlock.t;
  output : Linear.t
}.

Definition embedding_ : lens t Embedding.t :=
  Lens embedding
    (fun v s => mk v (positional_encoding s) (transformer_blocks s) (output s)).
Definition positional_encoding_ : lens t PositionalEncoding.t :=
  Lens positional_encoding
    (fun v s => mk (embedding s) v (transformer_blocks s) (output s)).
Definition transformer_blocks_ : lens t (list TransformerBlock.t) :=
  Lens transformer_blocks
    (fun v s => mk (embedding s) (positional_encoding s) v (output s)).
Definition output_ : lens t Linear.t :=
  Lens output
    (fun v s => mk (embedding s) (positional_encoding s) (transformer_blocks s) v).

Definition init (vocab_size embedding_dim hidden_dim num_layers : nat)
    (theta : initial_values) : result t :=
  let embedding := Embedding.init vocab_size embedding_dim theta in
  rbind (PositionalEncoding.init embedding_dim PositionalEncoding.default_max_seq_len)
    (fun positional_encoding =>
       let transformer_blocks :=
         map (fun l => TransformerBlock.init embedding_dim hidden_dim theta (5 * l))
             (seq 0 num_layers) in
       let output := new_Linear theta (5 * num_layers) embedding_dim vocab_size in
       Ok (mk embedding positional_encoding transformer_blocks output)).

Definition forward (x : IndexTensor) : M t Tensor3 :=
  let* x := zoom embedding_ (Embedding.forward x) in
  let x := transpose01 x in
  let* x := zoom positional_encoding_ (PositionalEncoding.forward x) in
  let x := transpose01 x in
  let* x := zoom transformer_blocks_
              (Sequential_forward TransformerBlock.forward x) in
  let* x := zoom output_ (Linear.forward x) in
  ret x.
End SimpleLLM.

(* ===================================================================== *)
(** * Step 8: using the model *)
(* ===================================================================== *)

(** [torch.tensor(tokens).unsqueeze(0)] *)
Definition input_tensor_of (tokens : list Z) : result IndexTensor :=
  rbind (torch_tensor tokens) (fun t => Ok (unsqueeze0 t)).

(** The cell after tokenisation: one call of the model, then the arg-max of
    the logits at the last position. *)
Definition greedy_decode (input_tokens : list Z) : M SimpleLLM.t Z :=
  let* input_tensor := lift (input_tensor_of input_tokens) in
  let* output := SimpleLLM.forward input_tensor in
  let* last := lift (select_last output) in
  let* predicted_token := lift (argmax last) in
  ret predicted_token.

(** The cell from the text that was read to the predicted token id (the
    final [print] maps the id back to a word and is not modelled). *)
Definition use_model (input_text : string) : M SimpleLLM.t Z :=
  let* input_tokens := lift (tokenize input_text vocab) in
  greedy_decode input_tokens.

(* ===================================================================== *)
(** * Step 7: training *)
(* ===================================================================== *)

(** [for a in l: acc = body(a, acc)] *)
Fixpoint for_each {S A B} (l : list A) (body : A -> B -> M S B) (acc : B) : M S B :=
  match l with
  | [] => ret acc
  | a :: l' => let* acc' := body a acc in for_each l' body acc'
  end.

(** [sentence[i]] *)
Definition subscript (sentence : list Z) (i : nat) : result Z :=
  match sentence !! i with
  | Some z => Ok z
  | None => Raise in_subscript IndexError
  end.

Definition data : list string :=
  [ "hello world how are you";
    "how are you hello world";
    "good morning friend";
    "nice to meet you";
    "learning AI is fun";
    "have a great day";
    "hope you are doing well";
    "AI is awesome";
    "what are you doing today";
    "good evening to all";
    "enjoy the sunny weather";
    "Python coding is exciting";
    "machine learning is amazing";
    "deep neural network is powerful";
    "natural language processing is interesting";
    "happy birthday to you";
    "welcome home family";
    "weekend vacation is relaxing";
    "study new projects to explore knowledge";
    "reading books is beneficial";
    "writing articles improves skills";
    "playing games is entertaining";
    "music is refreshing";
    "exercise maintains a healthy lifestyle";
    "delicious food makes a great day";
    "travel and adventure bring joy";
    "nature photography is inspiring";
    "technology and innovation shape the future" ]%string.

(** [[tokenize(sentence, vocab) for sentence in data]] *)
Definition tokenized_data : result (list (list Z)) :=
  rmap_list (fun sentence => tokenize sentence vocab) data.

Definition embedding_dim : nat := 32.
Definition hidden_dim : nat := 64.
Definition num_layers : nat := 2.

Section Training.

(** Automatic differentiation and Adam belong to PyTorch.  [Grad] is a
    gradient for all parameters; [gradient f m] is the gradient at [m] of
    a scalar function [f] of the model; [accumulate] adds two gradients;
    [adam_init] is [optim.Adam(model.parameters(), lr=0.001)]; [adam_step]
    is one [optimizer.step()] with the gradients currently stored ([None]
    after [zero_grad]). *)
Variables Grad OptState : Type.
Variable gradient : (SimpleLLM.t -> R) -> SimpleLLM.t -> Grad.
Variable accumulate : Grad -> Grad -> Grad.
Variable adam_init : SimpleLLM.t -> OptState.
Variable adam_step : OptState -> SimpleLLM.t -> option Grad -> OptState * SimpleLLM.t.

(** What the training cell mutates: the parameters, their [.grad]
    fields, the optimiser's internal state and the standard output. *)
Record TrainState : Type := mkTrainState {
  model : SimpleLLM.t;
  grad : option Grad;
  optimizer : OptState;
  stdout : list (nat * R)
}.

Definition model_ : lens TrainState SimpleLLM.t :=
  Lens model (fun v s => mkTrainState v (grad s) (optimizer s) (stdout s)).

(** [optimizer.zero_grad()] *)
Definition zero_grad : M TrainState unit :=
  fun s => (Ok tt, mkTrainState (model s) None (optimizer s) (stdout s)).

(** The loss of one example as a function of the parameters: what the
    autograd graph of [loss] represents. *)
Definition loss_of (input_seq : IndexTensor) (target : Tensor1) (m : SimpleLLM.t)
  : result R :=
  rbind (eval (SimpleLLM.forward input_seq) m) (fun output =>
  rbind (select_last output) (fun last =>
  CrossEntropyLoss.forward last target)).

Definition value_or_zero (r : result R) : R :=
  match r with Ok v => v | Raise _ _ => 0%R end.

(** [loss.backward()]: the gradient of the loss at the current parameters
    is added to the stored gradients. *)
Definition backward (input_seq : IndexTensor) (target : Tensor1) : M TrainState unit :=
  fun s =>
    let g := gradient (fun m => value_or_zero (loss_of input_seq target m)) (model s) in
    let g' := match grad s with
              | None => g
              | Some g0 => accumulate g0 g
              end in
    (Ok tt, mkTrainState (model s) (Some g') (optimizer s) (stdout s)).

(** [optimizer.step()] *)
Definition step : M TrainState unit :=
  fun s =>
    let '(o', m') := adam_step (optimizer s) (model s) (grad s) in
    (Ok tt, mkTrainState m' (grad s) o' (stdout s)).

Definition print (epoch : nat) (total_loss : R) : M TrainState unit :=
  fun s => (Ok tt, mkTrainState (model s) (grad s) (optimizer s)
                     (stdout s ++ [(epoch, total_loss)])).

(** The body of the innermost loop, for [sentence] and split point [i]. *)
Definition train_example (sentence : list Z) (i : nat) (total_loss : R)
  : M TrainState R :=
  let* input_seq := lift (input_tensor_of (firstn i sentence)) in
  let* token := lift (subscript sentence i) in
  let* target := lift (torch_tensor_scalar token) in
  let* _ := zero_grad in
  let* output := zoom model_ (SimpleLLM.forward input_seq) in
  let* last := lift (select_last output) in
  let* loss := lift (CrossEntropyLoss.forward last target) in
  let* _ := backward input_seq target in
  let* _ := step in
  ret (total_loss + loss)%R.

(** [for i in range(1, len(sentence)): ...] *)
Definition train_sentence (sentence : list Z) (total_loss : R) : M TrainState R :=
  for_each (seq 1 (length sentence - 1)) (train_example sentence) total_loss.

(** One iteration of the outer loop. *)
Definition train_epoch (tokenized : list (list Z)) (epoch : nat) (_ : unit)
  : M TrainState unit :=
  let total_loss := 0%R in
  let* total_loss := for_each tokenized train_sentence total_loss in
  if epoch mod 20 =? 0 then print epoch total_loss else ret tt.

(** [for epoch in range(epochs): ...] *)
Definition train (tokenized : list (list Z)) (epochs : nat) : M TrainState unit :=
  for_each (seq 0 epochs) (train_epoch tokenized) tt.

(** The whole cell of step 7, from the drawn initial values. *)
Definition training_cell (theta : initial_values) : result (result unit * TrainState) :=
  rbind (SimpleLLM.init vocab_size embedding_dim hidden_dim num_layers theta)
    (fun model =>
       let optimizer := adam_init model in
       rbind tokenized_data
         (fun tokenized =>
            Ok (train tokenized 200 (mkTrainState model None optimizer [])))).

(** ** The body of the inner loop as one function of the state *)

(** The (prefix, next token) examples of one sentence: for each split point
    [i] from 1 to length - 1, the prefix [sentence[0:i]] with the target
    [sentence[i]]. *)
Definition spec_examples (sentence : list Z) : list (list Z * Z) :=
  map (fun i => (firstn i sentence, nth i sentence 0%Z))
      (seq 1 (length sentence - 1)).

(** The statements of [train_example] on one example, merged into one
    function of the training state: a single forward pass on the prefix, the
    loss of [select_last] of its output against the target, and a single
    optimiser update from the gradient of that loss alone.  An exception
    stops the step; once the step has begun, the stored gradients are the
    cleared ones.  The formulas of the specification are [spec_update] and
    its parts below. *)
Definition spec_online_step (prefix : list Z) (target : Z) (total_loss : R)
  : M TrainState R :=
  fun s =>
    match input_tensor_of prefix, torch_tensor_scalar target with
    | Raise st e, _ => (Raise st e, s)
    | Ok _, Raise st e => (Raise st e, s)
    | Ok input_seq, Ok tgt =>
        let cleared := mkTrainState (model s) None (optimizer s) (stdout s) in
        match eval (SimpleLLM.forward input_seq) (model s) with
        | Raise st e => (Raise st e, cleared)
        | Ok output =>
            match rbind (select_last output)
                    (fun last => CrossEntropyLoss.forward last tgt) with
            | Raise st e => (Raise st e, cleared)
            | Ok loss =>
                let g := gradient
                           (fun m => value_or_zero (loss_of input_seq tgt m))
                           (model s) in
                let '(o', m') := adam_step (optimizer s) (model s) (Some g) in
                (Ok (total_loss + loss)%R, mkTrainState m' (Some g) o' (stdout s))
            end
        end
    end.

End Training.

Arguments model {Grad OptState} _.
Arguments grad {Grad OptState} _.
Arguments optimizer {Grad OptState} _.
Arguments stdout {Grad OptState} _.
Arguments mkTrainState {Grad OptState} _ _ _ _.
Arguments model_ {Grad OptState}.
Arguments zero_grad {Grad OptState}.
Arguments backward {Grad OptState} gradient accumulate _ _.
Arguments step {Grad OptState} adam_step.
Arguments train_example {Grad OptState} gradient accumulate adam_step _ _ _.
Arguments train_sentence {Grad OptState} gradient accumulate adam_step _ _.
Arguments spec_online_step {Grad OptState} gradient adam_step _ _ _.

(* ===================================================================== *)
(** * Shapes the constructors establish *)
(* ===================================================================== *)

Definition wf_Linear (i o : nat) (l : Linear.t) : Prop :=
  Linear.in_features l = i /\ Linear.out_features l = o.

Definition wf_LayerNorm (d : nat) (n : LayerNorm.t) : Prop :=
  LayerNorm.normalized_shape n = d.

Definition wf_SelfAttention (d : nat) (a : SelfAttention.t) : Prop :=
  wf_Linear d d (SelfAttention.query a)
  /\ wf_Linear d d (SelfAttention.key a)
  /\ wf_Linear d d (SelfAttention.value a).

Definition wf_TransformerBlock (d h : nat) (b : TransformerBlock.t) : Prop :=
  wf_SelfAttention d (TransformerBlock.attention b)
  /\ (exists l1 l2,
        TransformerBlock.feed_forward b = [nn_Linear l1; nn_ReLU; nn_Linear l2]
        /\ wf_Linear d h l1 /\ wf_Linear h d l2)
  /\ wf_LayerNorm d (TransformerBlock.norm1 b)
  /\ wf_LayerNorm d (TransformerBlock.norm2 b).

Definition wf_PositionalEncoding (d : nat) (p : PositionalEncoding.t) : Prop :=
  size0 (PositionalEncoding.pe p) = PositionalEncoding.default_max_seq_len
  /\ size1 (PositionalEncoding.pe p) = 1
  /\ size2 (PositionalEncoding.pe p) = d.

(** A model as [SimpleLLM(V, d, h, _)] builds it, whatever the values of its
    parameters. *)
Definition wf_SimpleLLM (V d h : nat) (m : SimpleLLM.t) : Prop :=
  nn_Embedding.num_embeddings (Embedding.embedding (SimpleLLM.embedding m)) = V
  /\ nn_Embedding.embedding_dim (Embedding.embedding (SimpleLLM.embedding m)) = d
  /\ wf_PositionalEncoding d (SimpleLLM.positional_encoding m)
  /\ Forall (wf_TransformerBlock d h) (SimpleLLM.transformer_blocks m)
  /\ wf_Linear d V (SimpleLLM.output m).

Definition valid_id (V : nat) (id : Z) : Prop := (0 <= id < Z.of_nat V)%Z.

(** Initial values that are all zero, and a small model built from them. *)
Definition zero_values : initial_values :=
  {| normal_embedding := fun _ _ => 0%R;
     uniform_weight := fun _ _ _ => 0%R;
     uniform_bias := fun _ _ => 0%R |}.

Definition empty_model : SimpleLLM.t :=
  SimpleLLM.mk (Embedding.init 0 0 zero_values)
    (PositionalEncoding.mk 0 (mkTensor3 0 0 0 (fun _ _ _ => 0%R)))
    [] (new_Linear zero_values 0 0 0).

(** [SimpleLLM(3, 2, 2, 1)] *)
Definition tiny_model : SimpleLLM.t :=
  match SimpleLLM.init 3 2 2 1 zero_values with
  | Ok m => m
  | Raise _ _ => empty_model
  end.

(** Whether an exception comes out of the call [model(input_tensor)] rather
    than from a statement of the calling cell. *)
Definition inside_model (s : site) : bool :=
  match s with
  | in_Embedding | in_add | in_Linear | in_bmm | in_LayerNorm => true
  | _ => false
  end.

(** The caller itself refused the input: an exception that does not come
    from inside the model. *)
Definition rejected_by_caller {A} (r : result A) : Prop :=
  exists s e, r = Raise s e /\ inside_model s = false.

Definition shape3 (t : Tensor3) : nat * nat * nat := (size0 t, size1 t, size2 t).

(** Small concrete inputs: a tensor of ones, an attention unit and a block
    built from [zero_values]. *)
Definition ones (b l d : nat) : Tensor3 := mkTensor3 b l d (fun _ _ _ => 1%R).

Definition attention0 : SelfAttention.t := SelfAttention.init 2 zero_values 0.

Definition block0 : TransformerBlock.t := TransformerBlock.init 2 3 zero_values 0.

(** One sequence of [max_seq_len + 1] copies of token 0. *)
Definition long_input : IndexTensor :=
  mkIndexTensor int64 [repeat 0%Z (S PositionalEncoding.default_max_seq_len)].

(* ===================================================================== *)
(** * The rest of step 8: printing the predicted word *)
(* ===================================================================== *)

(** [l.index(v)]: the position of the first occurrence of [v]; a
    [ValueError] when there is none.  The exception is raised while the
    subscript of the [print] line is evaluated. *)
Fixpoint list_index (v : Z) (l : list Z) : result nat :=
  match l with
  | [] => Raise in_subscript ValueError
  | x :: l' =>
      if (x =? v)%Z then Ok 0
      else rbind (list_index v l') (fun n => Ok (S n))
  end.

(** [list(d.keys())[list(d.values()).index(token)]] for the dict [d] written
    with the entries [items]: a dict lists its keys and values in insertion
    order, which is the order of [items] when no key is written twice. *)
Definition reverse_lookup (items : list (string * Z)) (token : Z) : result string :=
  rbind (list_index token (map snd items)) (fun n =>
  match map fst items !! n with
  | Some word => Ok word
  | None => Raise in_subscript IndexError
  end).

(** The line the cell prints. *)
Definition predicted_line (input_text word : string) : string :=
  ("Input: " ++ input_text ++ ", Predicted: " ++ word)%string.

(** The whole cell of step 8 on the text that was read: tokenize, decode,
    map the id back to its word, print. *)
Definition use_model_print (input_text : string) : M SimpleLLM.t string :=
  let* predicted_token := use_model input_text in
  let* word := lift (reverse_lookup vocab_items predicted_token) in
  ret (predicted_line input_text word).

(* ===================================================================== *)
(** * Auxiliary notions for stating properties *)
(* ===================================================================== *)

(** A string without whitespace characters. *)
Fixpoint no_space (w : string) : bool :=
  match w with
  | EmptyString => true
  | String c w' => negb (is_space c) && no_space w'
  end.

(** A word as [split] returns them: not empty, no whitespace. *)
Definition is_word (w : string) : Prop := w <> EmptyString /\ no_space w = true.

(** The words separated by single spaces. *)
Fixpoint join_spaces (words : list string) : string :=
  match words with
  | [] => EmptyString
  | [w] => w
  | w :: rest => (w ++ String " " (join_spaces rest))%string
  end.

(** The id [tokenize] gives a word: its own, or that of "<UNK>". *)
Definition id_of (v : gmap string Z) (unk : Z) (word : string) : Z :=
  default unk (v !! word).

(** A layer normalisation with the scale and shift it is created with. *)
Definition fresh_LayerNorm (n : LayerNorm.t) : Prop :=
  LayerNorm.eps n = (1 / 100000)%R
  /\ (forall k, LayerNorm.weight n k = 1%R)
  /\ (forall k, LayerNorm.bias n k = 0%R).

(** A tiny data set and an optimiser that changes nothing. *)
Definition tiny_data : list (list Z) := [[2; 0; 1]; [1]; []; [0; 2]]%Z.

Definition no_gradient : (SimpleLLM.t -> R) -> SimpleLLM.t -> unit := fun _ _ => tt.

Definition no_accumulate : unit -> unit -> unit := fun _ _ => tt.

Definition identity_step : unit -> SimpleLLM.t -> option unit -> unit * SimpleLLM.t :=
  fun o m _ => (o, m).

Definition tiny_state : TrainState unit unit :=
  mkTrainState tiny_model None tt [].

(** The model of the notebook, [SimpleLLM(vocab_size, 32, 64, 2)], with all
    initial values zero. *)
Definition notebook_model : SimpleLLM.t :=
  match SimpleLLM.init vocab_size embedding_dim hidden_dim num_layers zero_values with
  | Ok m => m
  | Raise _ _ => empty_model
  end.

(** The epochs at which the training cell prints. *)
Definition printing_epoch (epoch : nat) : bool := epoch mod 20 =? 0.

(** Sentences of ids valid for a vocabulary of [V] tokens, none longer than
    the positional table allows its longest prefix to be. *)
Definition trainable (V : nat) (tokenized : list (list Z)) : Prop :=
  Forall (fun sentence =>
            Forall (valid_id V) sentence
            /\ length sentence <= S PositionalEncoding.default_max_seq_len)
    tokenized.

(* ===================================================================== *)
(** * The formulas of the specification, written out *)
(* ===================================================================== *)

(** These definitions follow the words of the specification, not the code:
    the theorems compare the code with them. *)

(** Layer normalisation of one position's vector [v] of [d] features: the
    vector is brought to mean 0 and variance 1 (up to [eps]), then scaled
    and shifted feature by feature. *)
Definition spec_mean (d : nat) (v : nat -> R) : R := (sumR d v / INR d)%R.

Definition spec_normalize (d : nat) (eps : R) (scale shift : nat -> R)
    (v : nat -> R) (k : nat) : R :=
  let mu := spec_mean d v in
  let variance := spec_mean d (fun c => (v c - mu) * (v c - mu))%R in
  ((v k - mu) / sqrt (variance + eps) * scale k + shift k)%R.

(** The logits the model [m] gives for the token that follows [prefix]:
    those at the last position, index [length prefix - 1], of the one
    sequence of the batch. *)
Definition spec_last_logits (m : SimpleLLM.t) (prefix : list Z) (c : nat) : R :=
  match eval (SimpleLLM.forward (mkIndexTensor int64 [prefix])) m with
  | Ok logits => item3 logits 0 (length prefix - 1) c
  | Raise _ _ => 0%R
  end.

(** The cross-entropy between logits over [V] classes and the class
    [target]: minus the logarithm of the soft-max probability of [target]. *)
Definition spec_cross_entropy (V : nat) (logits : nat -> R) (target : Z) : R :=
  (ln (sumR V (fun c => exp (logits c))) - logits (Z.to_nat target))%R.

(** One example of online training, at the split point [i] of [sentence]:
    the loss of the current model on (prefix, next token) is added to the
    running total, and the model is replaced by the one that a single
    optimiser step from the gradient of that loss gives. *)
Definition spec_update {Grad OptState : Type}
    (gradient : (SimpleLLM.t -> R) -> SimpleLLM.t -> Grad)
    (adam_step : OptState -> SimpleLLM.t -> option Grad -> OptState * SimpleLLM.t)
    (V : nat) (sentence : list Z)
    (acc : R * TrainState Grad OptState) (i : nat) : R * TrainState Grad OptState :=
  let total_loss := fst acc in
  let s := snd acc in
  let prefix := firstn i sentence in
  let target := nth i sentence 0%Z in
  let loss := spec_cross_entropy V (spec_last_logits (model s) prefix) target in
  let g := gradient
             (fun m => value_or_zero
                         (loss_of (mkIndexTensor int64 [prefix])
                            (mkTensor1 int64 [target]) m))
             (model s) in
  let updated := adam_step (optimizer s) (model s) (Some g) in
  ((total_loss + loss)%R,
   mkTrainState (snd updated) (Some g) (fst updated) (stdout s)).

(** The split points of all sentences of an epoch, in the order in which
    the two inner loops visit them. *)
Definition spec_split_points (tokenized : list (list Z)) : list (list Z * nat) :=
  flat_map (fun sentence =>
              map (fun i => (sentence, i)) (seq 1 (length sentence - 1)))
    tokenized.

(** No token is the class index that [nn.CrossEntropyLoss] ignores. *)
Definition counted (sentence : list Z) : Prop :=
  Forall (fun id => id <> CrossEntropyLoss.ignore_index) sentence.

(* ===================================================================== *)
(** * Facts about the monad *)
(* ===================================================================== *)

Section MonadFacts.
Context {S : Type}.

Lemma readonly_ret {A} (a : A) : readonly (ret (S:=S) a).
Proof. intros s. reflexivity. Qed.

Lemma readonly_raise {A} st e : readonly (raise (S:=S) (A:=A) st e).
Proof. intros s. reflexivity. Qed.

Lemma readonly_get : readonly (get (S:=S)).
Proof. intros s. reflexivity. Qed.

Lemma readonly_lift {A} (r : result A) : readonly (lift (S:=S) r).
Proof. intros s. reflexivity. Qed.

Lemma readonly_bind {A B} (c : M S A) (k : A -> M S B) :
  readonly c -> (forall a, readonly (k a)) -> readonly (bind c k).
Proof.
  intros Hc Hk s. unfold bind. specialize (Hc s).
  destruct (c s) as [[a | st e] s']; simpl in *; subst.
  - apply Hk.
  - reflexivity.
Qed.

Lemma readonly_zoom {T A} (l : lens S T) (c : M T A) :
  lawful l -> readonly c -> readonly (zoom l c).
Proof.
  intros Hl Hc s. unfold zoom. specialize (Hc (view l s)).
  destruct (c (view l s)) as [r t']; simpl in *; subst. apply Hl.
Qed.

(** A read-only computation is determined by the value it produces. *)
Lemma readonly_run {A} (c : M S A) (s : S) :
  readonly c -> c s = (eval c s, s).
Proof.
  intros Hc. unfold eval. specialize (Hc s).
  destruct (c s) as [r s']; simpl in *; subst. reflexivity.
Qed.

Lemma eval_bind {A B} (c : M S A) (k : A -> M S B) (s : S) :
  readonly c ->
  eval (bind c k) s = rbind (eval c s) (fun a => eval (k a) s).
Proof.
  intros Hc. unfold eval, bind. rewrite (readonly_run c s Hc).
  destruct (eval c s); reflexivity.
Qed.

Lemma eval_zoom {T A} (l : lens S T) (c : M T A) (s : S) :
  eval (zoom l c) s = eval c (view l s).
Proof. unfold eval, zoom. destruct (c (view l s)); reflexivity. Qed.

Lemma eval_lift {A} (r : result A) (s : S) : eval (lift r) s = r.
Proof. reflexivity. Qed.

Lemma eval_ret {A} (a : A) (s : S) : eval (ret a) s = Ok a.
Proof. reflexivity. Qed.
End MonadFacts.

Create HintDb readonly.

#[local] Hint Resolve readonly_ret readonly_raise readonly_get readonly_lift : readonly.

(** ** The lenses write back what they read *)

Lemma lawful_Embedding_embedding : lawful Embedding.embedding_.
Proof. intros []; reflexivity. Qed.

Lemma lawful_SelfAttention_query : lawful SelfAttention.query_.
Proof. intros []; reflexivity. Qed.

Lemma lawful_SelfAttention_key : lawful SelfAttention.key_.
Proof. intros []; reflexivity. Qed.

Lemma lawful_SelfAttention_value : lawful SelfAttention.value_.
Proof. intros []; reflexivity. Qed.

Lemma lawful_TransformerBlock_attention : lawful TransformerBlock.attention_.
Proof. intros []; reflexivity. Qed.

Lemma lawful_TransformerBlock_feed_forward : lawful TransformerBlock.feed_forward_.
Proof. intros []; reflexivity. Qed.

Lemma lawful_TransformerBlock_norm1 : lawful TransformerBlock.norm1_.
Proof. intros []; reflexivity. Qed.

Lemma lawful_TransformerBlock_norm2 : lawful TransformerBlock.norm2_.
Proof. intros []; reflexivity. Qed.

Lemma lawful_SimpleLLM_embedding : lawful SimpleLLM.embedding_.
Proof. intros []; reflexivity. Qed.

Lemma lawful_SimpleLLM_positional_encoding : lawful SimpleLLM.positional_encoding_.
Proof. intros []; reflexivity. Qed.

Lemma lawful_SimpleLLM_transformer_blocks : lawful SimpleLLM.transformer_blocks_.
Proof. intros []; reflexivity. Qed.

Lemma lawful_SimpleLLM_output : lawful SimpleLLM.output_.
Proof. intros []; reflexivity. Qed.

#[local] Hint Resolve
  lawful_Embedding_embedding lawful_SelfAttention_query lawful_SelfAttention_key
  lawful_SelfAttention_value lawful_TransformerBlock_attention
  lawful_TransformerBlock_feed_forward lawful_TransformerBlock_norm1
  lawful_TransformerBlock_norm2 lawful_SimpleLLM_embedding
  lawful_SimpleLLM_positional_encoding lawful_SimpleLLM_transformer_blocks
  lawful_SimpleLLM_output : readonly.

(** Closes [readonly c] for a computation built from reads, pure steps and
    calls of sub-modules already known to be read-only. *)
Ltac readonly_tac :=
  repeat first
    [ progress eauto with readonly
    | apply readonly_bind; [ | intros ? ]
    | apply readonly_zoom
    | match goal with
      | |- readonly (match ?x with _ => _ end) => destruct x
      | |- readonly (if ?b then _ else _) => destruct b
      | |- readonly (let _ := _ in _) => cbv zeta
      end ].

(** ** No [forward] changes its module *)

Lemma readonly_nn_Embedding x : readonly (nn_Embedding.forward x).
Proof. unfold nn_Embedding.forward. readonly_tac. Qed.

Lemma readonly_Embedding x : readonly (Embedding.forward x).
Proof.
  unfold Embedding.forward. apply readonly_zoom; auto with readonly.
  apply readonly_nn_Embedding.
Qed.

Lemma readonly_PositionalEncoding x : readonly (PositionalEncoding.forward x).
Proof. unfold PositionalEncoding.forward. readonly_tac. Qed.

Lemma readonly_Linear x : readonly (Linear.forward x).
Proof. unfold Linear.forward. readonly_tac. Qed.

Lemma readonly_LayerNorm x : readonly (LayerNorm.forward x).
Proof. unfold LayerNorm.forward. readonly_tac. Qed.

Lemma readonly_layer x : readonly (layer_forward x).
Proof.
  intros [l | ]; simpl; [ | reflexivity ].
  pose proof (readonly_Linear x l) as H.
  destruct (Linear.forward x l) as [r l']; simpl in *. congruence.
Qed.

Lemma readonly_Sequential {T} (fwd : Tensor3 -> M T Tensor3) :
  (forall x, readonly (fwd x)) -> forall x, readonly (Sequential_forward fwd x).
Proof.
  intros Hf x modules. unfold Sequential_forward. revert x.
  induction modules as [ | m rest IH ]; intros x; simpl; [ reflexivity | ].
  pose proof (Hf x m) as Hm.
  destruct (fwd x m) as [[y | s e] m']; simpl in *; subst; [ | reflexivity ].
  specialize (IH y).
  destruct (Sequential_run fwd rest y) as [r rest']; simpl in *. congruence.
Qed.

#[local] Hint Resolve readonly_nn_Embedding readonly_Embedding
  readonly_PositionalEncoding readonly_Linear readonly_LayerNorm readonly_layer
  : readonly.

Lemma readonly_SelfAttention x : readonly (SelfAttention.forward x).
Proof. unfold SelfAttention.forward. readonly_tac. Qed.

#[local] Hint Resolve readonly_SelfAttention : readonly.

Lemma readonly_TransformerBlock x : readonly (TransformerBlock.forward x).
Proof.
  unfold TransformerBlock.forward. readonly_tac.
  apply readonly_Sequential. auto with readonly.
Qed.

#[local] Hint Resolve readonly_TransformerBlock : readonly.

Lemma readonly_SimpleLLM x : readonly (SimpleLLM.forward x).
Proof.
  unfold SimpleLLM.forward. readonly_tac.
  apply readonly_Sequential. auto with readonly.
Qed.

#[local] Hint Resolve readonly_SimpleLLM : readonly.

Lemma readonly_greedy_decode tokens : readonly (greedy_decode tokens).
Proof. unfold greedy_decode. readonly_tac. Qed.

(* ===================================================================== *)
(** * The forward pass is a read-only function of the model *)
(* ===================================================================== *)

(** C9.  A forward pass of the model stack, whether it returns or raises,
    leaves the model object exactly as it was: embedding table, positional
    table, every projection and every normalisation parameter.  As the model
    object is all the state there is, a call made after another call gives
    what it gives on the untouched model: positions are counted from 0 again
    on every call. *)
Theorem forward_leaves_model_unchanged (x y : IndexTensor) (m : SimpleLLM.t) :
  snd (SimpleLLM.forward x m) = m
  /\ SimpleLLM.forward y (snd (SimpleLLM.forward x m)) = SimpleLLM.forward y m
  /\ SimpleLLM.forward y m = (eval (SimpleLLM.forward y) m, m).
Proof.
  pose proof (readonly_SimpleLLM x m) as Hx.
  split; [ exact Hx | split ].
  - rewrite Hx. reflexivity.
  - apply readonly_run, readonly_SimpleLLM.
Qed.

(* ===================================================================== *)
(** * Tokenization *)
(* ===================================================================== *)

Example split_example :
  split "  AI is fun " = ["AI"; "is"; "fun"]%string.
Proof. reflexivity. Qed.

Example tokenize_example :
  tokenize "AI is exciting" vocab = Ok [15; 16; 5]%Z.
Proof. vm_compute. reflexivity. Qed.

Example vocab_size_73 : vocab_size = 73.
Proof. vm_compute. reflexivity. Qed.

Lemma rmap_list_total {A B} (f : A -> result B) (P : B -> Prop) (l : list A) :
  (forall a, exists b, f a = Ok b /\ P b) ->
  exists bs, rmap_list f l = Ok bs /\ Forall P bs /\ length bs = length l.
Proof.
  intros Hf. induction l as [ | a l IH ]; simpl.
  - exists []. auto.
  - destruct (Hf a) as (b & -> & Hb). destruct IH as (bs & -> & Hbs & Hlen).
    exists (b :: bs). simpl. auto.
Qed.

Lemma vocab_items_in_range :
  Forall (fun kv : string * Z => valid_id 73 (snd kv)) vocab_items.
Proof.
  unfold vocab_items, valid_id.
  repeat (apply Forall_cons_2; [ simpl; lia | ]). apply Forall_nil_2.
Qed.

Lemma vocab_values_in_range (w : string) (id : Z) :
  vocab !! w = Some id -> valid_id vocab_size id.
Proof.
  intros H. unfold vocab in H. apply elem_of_list_to_map_2 in H.
  replace vocab_size with 73 by (vm_compute; reflexivity).
  pose proof vocab_items_in_range as Hall.
  rewrite Forall_forall in Hall. exact (Hall (w, id) H).
Qed.

Lemma valid_id_fits (V : nat) (id : Z) :
  valid_id V id -> (Z.of_nat V <= 2 ^ 63)%Z -> fits_int64 id = true.
Proof.
  unfold valid_id, fits_int64. intros H HV.
  apply andb_true_intro. split; [ apply Z.leb_le | apply Z.ltb_lt ]; lia.
Qed.

Lemma valid_index_true (self : nn_Embedding.t) (id : Z) :
  nn_Embedding.valid_index self id = true
  <-> valid_id (nn_Embedding.num_embeddings self) id.
Proof.
  unfold nn_Embedding.valid_index, valid_id.
  rewrite andb_true_iff, Z.leb_le, Z.ltb_lt. reflexivity.
Qed.

Lemma forallb_valid_rows (self : nn_Embedding.t) (rows : list (list Z)) :
  forallb (forallb (nn_Embedding.valid_index self)) rows = true
  <-> Forall (Forall (valid_id (nn_Embedding.num_embeddings self))) rows.
Proof.
  rewrite forallb_forall, Forall_forall. split.
  - intros H row Hrow. apply Forall_forall. intros id Hid.
    apply valid_index_true.
    apply list_elem_of_In in Hrow. specialize (H row Hrow).
    rewrite forallb_forall in H. apply H. apply list_elem_of_In. exact Hid.
  - intros H row Hrow. apply forallb_forall. intros id Hid.
    apply valid_index_true.
    apply list_elem_of_In in Hrow. specialize (H row Hrow).
    rewrite Forall_forall in H. apply H. apply list_elem_of_In. exact Hid.
Qed.

(** C10.  When the vocabulary has the key "<UNK>", [tokenize] returns, for
    any text, one id per word and each id is a value of the vocabulary.  With
    the vocabulary of the notebook the ids are below [vocab_size = 73], they
    make an index tensor, and an embedding table with [vocab_size] rows never
    raises [IndexError] on it. *)
Theorem tokenize_ids_are_vocab_values (text : string) (v : gmap string Z)
    (Hunk : is_Some (v !! "<UNK>"%string)) :
  exists ids,
    tokenize text v = Ok ids
    /\ length ids = length (split text)
    /\ Forall (fun id => exists w, v !! w = Some id) ids
    /\ (v = vocab ->
        vocab_size = 73
        /\ Forall (valid_id vocab_size) ids
        /\ exists x,
             input_tensor_of ids = Ok x
             /\ forall self : Embedding.t,
                  nn_Embedding.num_embeddings (Embedding.embedding self) = vocab_size ->
                  eval (Embedding.forward x) self <> Raise in_Embedding IndexError).
Proof.
  destruct Hunk as [unk Hunk].
  unfold tokenize.
  destruct (rmap_list_total
              (fun word => rbind (getitem v "<UNK>")
                             (fun unk => Ok (dict_get v word unk)))
              (fun id => exists w, v !! w = Some id) (split text))
    as (ids & Hids & Hall & Hlen).
  { intros word. unfold getitem. rewrite Hunk. simpl.
    eexists; split; [ reflexivity | ].
    unfold dict_get. destruct (v !! word) eqn:Hw; eauto. }
  exists ids. split; [ exact Hids | ]. split; [ exact Hlen | ].
  split; [ exact Hall | ]. intros ->.
  assert (Hrange : Forall (valid_id vocab_size) ids).
  { eapply Forall_impl; [ exact Hall | ].
    intros id [w Hw]. eapply vocab_values_in_range; eauto. }
  split; [ vm_compute; reflexivity | ]. split; [ exact Hrange | ].
  destruct ids as [ | id ids' ].
  - exists (mkIndexTensor float32 [[]]). split; [ reflexivity | ].
    intros self _. unfold Embedding.forward. rewrite eval_zoom.
    unfold eval, nn_Embedding.forward, bind, get. simpl. discriminate.
  - exists (mkIndexTensor int64 [id :: ids']). split.
    + unfold input_tensor_of, torch_tensor.
      replace (forallb fits_int64 (id :: ids')) with true; [ reflexivity | ].
      symmetry. apply forallb_forall. intros z Hz.
      apply list_elem_of_In in Hz.
      rewrite Forall_forall in Hrange. specialize (Hrange z Hz).
      eapply valid_id_fits; [ exact Hrange | ].
      replace vocab_size with 73 by (vm_compute; reflexivity). lia.
    + intros self HV. unfold Embedding.forward. rewrite eval_zoom.
      unfold eval, nn_Embedding.forward, bind, get. simpl idx_dtype. cbv iota beta.
      replace (forallb (forallb (nn_Embedding.valid_index
                 (view Embedding.embedding_ self)))
                 (idx_rows (mkIndexTensor int64 [id :: ids']))) with true.
      { simpl. discriminate. }
      symmetry. apply forallb_valid_rows. simpl view. rewrite HV.
      simpl idx_rows. apply Forall_cons_2; [ exact Hrange | apply Forall_nil_2 ].
Qed.

Lemma tokenize_ids_are_vocab_values_witness :
  exists ids,
    tokenize "AI is exciting" vocab = Ok ids
    /\ length ids = length (split "AI is exciting")
    /\ Forall (fun id => exists w, vocab !! w = Some id) ids
    /\ (vocab = vocab ->
        vocab_size = 73
        /\ Forall (valid_id vocab_size) ids
        /\ exists x,
             input_tensor_of ids = Ok x
             /\ forall self : Embedding.t,
                  nn_Embedding.num_embeddings (Embedding.embedding self) = vocab_size ->
                  eval (Embedding.forward x) self <> Raise in_Embedding IndexError).
Proof.
  apply (tokenize_ids_are_vocab_values "AI is exciting" vocab).
  exists 5%Z. vm_compute. reflexivity.
Defined.

(* ===================================================================== *)
(** * The embedding table *)
(* ===================================================================== *)

Lemma nn_Embedding_forward_int64 (self : nn_Embedding.t) (rows : list (list Z)) :
  eval (nn_Embedding.forward (mkIndexTensor int64 rows)) self =
  if forallb (forallb (nn_Embedding.valid_index self)) rows
  then Ok (mkTensor3 (length rows) (length (hd [] rows))
             (nn_Embedding.embedding_dim self)
             (fun b i k =>
                nn_Embedding.weight self (Z.to_nat (nth i (nth b rows []) 0%Z)) k))
  else Raise in_Embedding IndexError.
Proof.
  unfold eval, nn_Embedding.forward, bind, get. simpl.
  destruct (forallb (forallb (nn_Embedding.valid_index self)) rows); reflexivity.
Qed.

Lemma nn_Embedding_forward_float32 (self : nn_Embedding.t) (rows : list (list Z)) :
  eval (nn_Embedding.forward (mkIndexTensor float32 rows)) self =
  Raise in_Embedding RuntimeError_dtype.
Proof. reflexivity. Qed.

Lemma invalid_rows_rejected (self : nn_Embedding.t) (rows : list (list Z)) :
  Exists (Exists (fun id => ~ valid_id (nn_Embedding.num_embeddings self) id)) rows ->
  forallb (forallb (nn_Embedding.valid_index self)) rows = false.
Proof.
  intros Hbad.
  destruct (forallb (forallb (nn_Embedding.valid_index self)) rows) eqn:Hall;
    [ exfalso | reflexivity ].
  apply forallb_valid_rows in Hall.
  apply Exists_exists in Hbad. destruct Hbad as (row & Hrow & Hbad).
  apply Exists_exists in Hbad. destruct Hbad as (id & Hid & Hbad).
  rewrite Forall_forall in Hall. specialize (Hall row Hrow).
  rewrite Forall_forall in Hall. exact (Hbad (Hall id Hid)).
Qed.

(** An exception of the embedding lookup is the outcome of the whole
    forward pass. *)
Lemma SimpleLLM_forward_embedding_raises (x : IndexTensor) (m : SimpleLLM.t) s e :
  eval (Embedding.forward x) (SimpleLLM.embedding m) = Raise s e ->
  SimpleLLM.forward x m = (Raise s e, m).
Proof.
  intros H. rewrite (readonly_run _ m (readonly_SimpleLLM x)). f_equal.
  unfold SimpleLLM.forward.
  rewrite eval_bind by (apply readonly_zoom; auto with readonly).
  rewrite eval_zoom. simpl view. rewrite H. reflexivity.
Qed.

Lemma greedy_decode_forward_raises (tokens : list Z) (x : IndexTensor)
    (m : SimpleLLM.t) s e :
  input_tensor_of tokens = Ok x ->
  eval (SimpleLLM.forward x) m = Raise s e ->
  greedy_decode tokens m = (Raise s e, m).
Proof.
  intros Hx H. rewrite (readonly_run _ m (readonly_greedy_decode tokens)). f_equal.
  unfold greedy_decode.
  rewrite eval_bind by auto with readonly. rewrite eval_lift, Hx. simpl.
  rewrite eval_bind by auto with readonly. rewrite H. reflexivity.
Qed.

(** C6.  A lookup in the embedding table with an id outside
    [0, vocab_size) raises [IndexError]; the forward pass of the model and
    the decoding cell end with that same exception, nothing in between
    catches it.  A lookup with ids inside the range returns, for each id, the
    row of the table with that number. *)
Theorem embedding_lookup_index_range (self : Embedding.t)
    (rows_bad rows_ok : list (list Z))
    (Hbad : Exists (Exists (fun id =>
              ~ valid_id (nn_Embedding.num_embeddings (Embedding.embedding self)) id))
              rows_bad)
    (Hok : Forall (Forall
              (valid_id (nn_Embedding.num_embeddings (Embedding.embedding self))))
              rows_ok) :
  (eval (Embedding.forward (mkIndexTensor int64 rows_bad)) self
     = Raise in_Embedding IndexError
   /\ (forall m, SimpleLLM.embedding m = self ->
         SimpleLLM.forward (mkIndexTensor int64 rows_bad) m
           = (Raise in_Embedding IndexError, m))
   /\ (forall m tokens, SimpleLLM.embedding m = self ->
         input_tensor_of tokens = Ok (mkIndexTensor int64 rows_bad) ->
         greedy_decode tokens m = (Raise in_Embedding IndexError, m)))
  /\ exists out,
       eval (Embedding.forward (mkIndexTensor int64 rows_ok)) self = Ok out
       /\ size0 out = length rows_ok
       /\ size2 out = nn_Embedding.embedding_dim (Embedding.embedding self)
       /\ forall b i row id k,
            rows_ok !! b = Some row -> row !! i = Some id ->
            item3 out b i k
              = nn_Embedding.weight (Embedding.embedding self) (Z.to_nat id) k.
Proof.
  assert (Hraise : eval (Embedding.forward (mkIndexTensor int64 rows_bad)) self
                   = Raise in_Embedding IndexError).
  { unfold Embedding.forward. rewrite eval_zoom, nn_Embedding_forward_int64.
    simpl view. rewrite (invalid_rows_rejected _ _ Hbad). reflexivity. }
  split; [ split; [ exact Hraise | split ] | ].
  - intros m <-. apply SimpleLLM_forward_embedding_raises. exact Hraise.
  - intros m tokens <- Hx.
    eapply greedy_decode_forward_raises; [ exact Hx | ]. unfold eval.
    rewrite SimpleLLM_forward_embedding_raises with (s := in_Embedding) (e := IndexError);
      [ reflexivity | exact Hraise ].
  - eexists. split.
    + unfold Embedding.forward. rewrite eval_zoom, nn_Embedding_forward_int64.
      simpl view.
      replace (forallb (forallb (nn_Embedding.valid_index (Embedding.embedding self)))
                 rows_ok) with true
        by (symmetry; apply forallb_valid_rows; exact Hok).
      reflexivity.
    + simpl. split; [ reflexivity | split; [ reflexivity | ] ].
      intros b i row id k Hrow Hid.
      rewrite (nth_lookup_Some _ _ [] _ Hrow), (nth_lookup_Some _ _ 0%Z _ Hid).
      reflexivity.
Qed.

Lemma embedding_lookup_index_range_witness :
  (eval (Embedding.forward (mkIndexTensor int64 [[0; 3]%Z]))
        (SimpleLLM.embedding tiny_model)
     = Raise in_Embedding IndexError
   /\ (forall m, SimpleLLM.embedding m = SimpleLLM.embedding tiny_model ->
         SimpleLLM.forward (mkIndexTensor int64 [[0; 3]%Z]) m
           = (Raise in_Embedding IndexError, m))
   /\ (forall m tokens, SimpleLLM.embedding m = SimpleLLM.embedding tiny_model ->
         input_tensor_of tokens = Ok (mkIndexTensor int64 [[0; 3]%Z]) ->
         greedy_decode tokens m = (Raise in_Embedding IndexError, m)))
  /\ exists out,
       eval (Embedding.forward (mkIndexTensor int64 [[2; 0]%Z]))
            (SimpleLLM.embedding tiny_model) = Ok out
       /\ size0 out = length [[2; 0]%Z]
       /\ size2 out = nn_Embedding.embedding_dim
                        (Embedding.embedding (SimpleLLM.embedding tiny_model))
       /\ forall b i row id k,
            [[2; 0]%Z] !! b = Some row -> row !! i = Some id ->
            item3 out b i k
              = nn_Embedding.weight
                  (Embedding.embedding (SimpleLLM.embedding tiny_model))
                  (Z.to_nat id) k.
Proof.
  apply (embedding_lookup_index_range (SimpleLLM.embedding tiny_model)
           [[0; 3]%Z] [[2; 0]%Z]).
  - apply Exists_cons_hd, Exists_cons_tl, Exists_cons_hd.
    unfold valid_id. simpl. lia.
  - repeat constructor; unfold valid_id; simpl; lia.
Defined.

(* ===================================================================== *)
(** * The empty input *)
(* ===================================================================== *)

Lemma greedy_decode_nil (m : SimpleLLM.t) :
  greedy_decode [] m = (Raise in_Embedding RuntimeError_dtype, m).
Proof.
  eapply greedy_decode_forward_raises; [ reflexivity | ]. unfold eval.
  rewrite SimpleLLM_forward_embedding_raises
    with (s := in_Embedding) (e := RuntimeError_dtype); reflexivity.
Qed.

(** C7, as amended.  On the empty token sequence the decoding cell returns
    no token id: the empty list makes a float32 index tensor, the model is
    called on it, and the embedding lookup raises the dtype error, which
    ends the cell.  The model is left unchanged. *)
Theorem greedy_decode_empty_input (m : SimpleLLM.t) :
  input_tensor_of [] = Ok (mkIndexTensor float32 [[]])
  /\ greedy_decode [] m = (Raise in_Embedding RuntimeError_dtype, m)
  /\ use_model EmptyString m = (Raise in_Embedding RuntimeError_dtype, m).
Proof.
  split; [ reflexivity | split; [ apply greedy_decode_nil | ] ].
  unfold use_model, bind, lift. simpl. apply greedy_decode_nil.
Qed.

(** C7, as stated, fails: on the empty input the exception comes from inside
    the model call, the cell itself does not refuse the input. *)
Lemma greedy_decode_empty_not_rejected_by_caller :
  ~ rejected_by_caller (eval (greedy_decode []) tiny_model).
Proof.
  unfold eval. rewrite greedy_decode_nil.
  intros (s & e & Heq & Hs). simpl in Heq. inversion Heq; subst s.
  discriminate Hs.
Qed.

(* ===================================================================== *)
(** * Sums, soft-max and arg-max *)
(* ===================================================================== *)

Lemma sumR_ext (n : nat) (f g : nat -> R) :
  (forall k, k < n -> f k = g k) -> sumR n f = sumR n g.
Proof.
  induction n as [ | n IH ]; intros H; simpl; [ reflexivity | ].
  rewrite IH by (intros; apply H; lia). rewrite H by lia. reflexivity.
Qed.

Lemma sumR_pos (n : nat) (f : nat -> R) :
  0 < n -> (forall k, (0 < f k)%R) -> (0 < sumR n f)%R.
Proof.
  intros Hn Hf. induction n as [ | n IH ]; [ lia | ]. simpl.
  destruct n as [ | n' ].
  - simpl. specialize (Hf 0). lra.
  - assert (0 < sumR (S n') f)%R by (apply IH; lia). specialize (Hf (S n')). lra.
Qed.

Lemma sumR_scale (n : nat) (f : nat -> R) (c : R) :
  sumR n (fun k => (f k * c)%R) = (sumR n f * c)%R.
Proof.
  induction n as [ | n IH ]; simpl; [ lra | ]. rewrite IH. lra.
Qed.

Lemma softmax_nonneg (t : Tensor3) (b i j : nat) :
  0 < size2 t -> (0 <= item3 (softmax t) b i j)%R.
Proof.
  intros Hn. simpl.
  assert (0 < sumR (size2 t) (fun j' => exp (item3 t b i j')))%R
    by (apply sumR_pos; [ exact Hn | intros; apply exp_pos ]).
  apply Rlt_le, Rdiv_lt_0_compat; [ apply exp_pos | assumption ].
Qed.

Lemma softmax_row_sum (t : Tensor3) (b i : nat) :
  0 < size2 t -> sumR (size2 t) (fun j => item3 (softmax t) b i j) = 1%R.
Proof.
  intros Hn. simpl.
  assert (0 < sumR (size2 t) (fun j' => exp (item3 t b i j')))%R
    by (apply sumR_pos; [ exact Hn | intros; apply exp_pos ]).
  unfold Rdiv. rewrite sumR_scale. apply Rinv_r. lra.
Qed.

Lemma argmax_below_spec (f : nat -> R) (n : nat) :
  0 < n ->
  argmax_below f n < n
  /\ (forall j, j < n -> (f j <= f (argmax_below f n))%R)
  /\ (forall j, j < argmax_below f n -> (f j < f (argmax_below f n))%R).
Proof.
  induction n as [ | n IH ]; [ lia | ]. intros _.
  destruct n as [ | n' ].
  - simpl. destruct (Rlt_dec (f 0) (f 0)); repeat split; try lia;
      intros j Hj; replace j with 0 by lia; lra.
  - destruct IH as (Hlt & Hmax & Hfirst); [ lia | ].
    set (best := argmax_below f (S n')) in *.
    change (argmax_below f (S (S n')))
      with (if Rlt_dec (f best) (f (S n')) then S n' else best).
    destruct (Rlt_dec (f best) (f (S n'))) as [Hnew | Hold].
    + split; [ lia | split ].
      * intros j Hj. destruct (Nat.eq_dec j (S n')) as [-> | Hne]; [ lra | ].
        specialize (Hmax j ltac:(lia)). lra.
      * intros j Hj. specialize (Hmax j Hj). lra.
    + split; [ lia | split ].
      * intros j Hj. destruct (Nat.eq_dec j (S n')) as [-> | Hne]; [ lra | ].
        apply Hmax. lia.
      * exact Hfirst.
Qed.

(* ===================================================================== *)
(** * What each layer returns on a well-shaped input *)
(* ===================================================================== *)

Lemma Linear_forward_ok (i o : nat) (l : Linear.t) (x : Tensor3) :
  wf_Linear i o l -> size2 x = i ->
  exists y,
    eval (Linear.forward x) l = Ok y
    /\ shape3 y = (size0 x, size1 x, o)
    /\ forall b p k,
         item3 y b p k
           = (sumR i (fun j => item3 x b p j * Linear.weight l k j)
              + Linear.bias l k)%R.
Proof.
  intros [Hi Ho] Hx. unfold eval, Linear.forward, bind, get. simpl.
  rewrite Hx, Hi, Nat.eqb_refl. simpl. eexists. split; [ reflexivity | ].
  unfold shape3. simpl. rewrite Ho. auto.
Qed.

Lemma LayerNorm_forward_ok (d : nat) (n : LayerNorm.t) (x : Tensor3) :
  wf_LayerNorm d n -> size2 x = d ->
  exists y,
    eval (LayerNorm.forward x) n = Ok y
    /\ shape3 y = shape3 x
    /\ forall b p k,
         item3 y b p k
           = ((item3 x b p k - LayerNorm.mean x b p)
              / sqrt (LayerNorm.var x b p + LayerNorm.eps n)
              * LayerNorm.weight n k + LayerNorm.bias n k)%R.
Proof.
  intros Hn Hx. unfold eval, LayerNorm.forward, bind, get. simpl.
  rewrite Hx, Hn, Nat.eqb_refl. simpl. eexists. split; [ reflexivity | ].
  unfold shape3. simpl. auto.
Qed.

Lemma broadcast_dim_same (n : nat) : broadcast_dim n n = Some n.
Proof. unfold broadcast_dim. rewrite Nat.eqb_refl. reflexivity. Qed.

Lemma bidx_in_range (m i : nat) : i < m -> bidx m i = i.
Proof. unfold bidx. intros H. destruct (m =? 1) eqn:E; [ | reflexivity ].
  apply Nat.eqb_eq in E. lia. Qed.

(** The residual additions of the block: both operands have one shape. *)
Lemma tensor_add_same_shape (a b : Tensor3) :
  shape3 a = shape3 b ->
  exists c,
    tensor_add a b = Ok c
    /\ shape3 c = shape3 a
    /\ forall i j k, i < size0 a -> j < size1 a -> k < size2 a ->
         item3 c i j k = (item3 a i j k + item3 b i j k)%R.
Proof.
  unfold shape3. intros H. inversion H as [[H0 H1 H2]].
  unfold tensor_add. rewrite <- H0, <- H1, <- H2, !broadcast_dim_same.
  eexists. split; [ reflexivity | ]. simpl. split; [ reflexivity | ].
  intros i j k Hi Hj Hk. rewrite !bidx_in_range by assumption. reflexivity.
Qed.

Lemma bmm_ok (a b : Tensor3) :
  size0 a = size0 b -> size2 a = size1 b ->
  bmm a b = Ok (mkTensor3 (size0 a) (size1 a) (size2 b)
                  (fun bt i j =>
                     sumR (size2 a) (fun k => (item3 a bt i k * item3 b bt k j)%R))).
Proof.
  intros H0 H1. unfold bmm. rewrite H0, H1, !Nat.eqb_refl. reflexivity.
Qed.

(* ===================================================================== *)
(** * Self-attention *)
(* ===================================================================== *)

(** The value of [SelfAttention.forward] in terms of the values of the
    calls it makes. *)
Lemma SelfAttention_forward_eval (self : SelfAttention.t) (x : Tensor3) :
  eval (SelfAttention.forward x) self =
  rbind (eval (Linear.forward x) (SelfAttention.query self)) (fun queries =>
  rbind (eval (Linear.forward x) (SelfAttention.key self)) (fun keys =>
  rbind (eval (Linear.forward x) (SelfAttention.value self)) (fun values =>
  rbind (SelfAttention.scores x queries keys) (fun scores =>
  bmm (softmax scores) values)))).
Proof.
  unfold SelfAttention.forward.
  rewrite eval_bind by (apply readonly_zoom; auto with readonly).
  rewrite eval_zoom. simpl view.
  destruct (eval (Linear.forward x) (SelfAttention.query self)) as [queries | ];
    [ simpl rbind | reflexivity ].
  rewrite eval_bind by (apply readonly_zoom; auto with readonly).
  rewrite eval_zoom. simpl view.
  destruct (eval (Linear.forward x) (SelfAttention.key self)) as [keys | ];
    [ simpl rbind | reflexivity ].
  rewrite eval_bind by (apply readonly_zoom; auto with readonly).
  rewrite eval_zoom. simpl view.
  destruct (eval (Linear.forward x) (SelfAttention.value self)) as [values | ];
    [ simpl rbind | reflexivity ].
  rewrite eval_bind by auto with readonly. rewrite eval_lift.
  destruct (SelfAttention.scores x queries keys) as [scores | ];
    [ simpl rbind | reflexivity ].
  rewrite eval_bind by auto with readonly. rewrite eval_lift.
  destruct (bmm (softmax scores) values); reflexivity.
Qed.

Lemma SelfAttention_forward_ok (d : nat) (self : SelfAttention.t) (x : Tensor3) :
  wf_SelfAttention d self -> size2 x = d ->
  exists out,
    eval (SelfAttention.forward x) self = Ok out
    /\ shape3 out = (size0 x, size1 x, d).
Proof.
  intros (Hq & Hk & Hv) Hx.
  destruct (Linear_forward_ok d d _ x Hq Hx) as (queries & Eq & Sq & _).
  destruct (Linear_forward_ok d d _ x Hk Hx) as (keys & Ek & Sk & _).
  destruct (Linear_forward_ok d d _ x Hv Hx) as (values & Ev & Sv & _).
  unfold shape3 in Sq, Sk, Sv.
  injection Sq as Sq0 Sq1 Sq2. injection Sk as Sk0 Sk1 Sk2.
  injection Sv as Sv0 Sv1 Sv2.
  rewrite SelfAttention_forward_eval, Eq, Ek, Ev. simpl rbind.
  unfold SelfAttention.scores.
  rewrite bmm_ok by (simpl; congruence). simpl rbind.
  rewrite bmm_ok by (simpl; congruence).
  eexists. split; [ reflexivity | ]. unfold shape3. simpl. congruence.
Qed.

(** C2.  On an input of shape (B, L, d) with [0 < d], B being the batch
    size, the self-attention unit computes the queries, keys and values as
    three linear maps of the input; the scores [Query x Key^T], every entry
    scaled by [1 / sqrt d]; the attention weights as the soft-max of each
    row of scores, [exp score / sum of the row's exp scores], so that every
    row of weights is non-negative and sums to 1; and it returns
    [weights x Value], of shape (B, L, d). *)
Theorem self_attention_forward (d : nat) (self : SelfAttention.t) (x : Tensor3)
    (Hwf : wf_SelfAttention d self) (Hx : size2 x = d) (Hd : 0 < d) :
  exists queries keys values scores weights out,
    eval (Linear.forward x) (SelfAttention.query self) = Ok queries
    /\ eval (Linear.forward x) (SelfAttention.key self) = Ok keys
    /\ eval (Linear.forward x) (SelfAttention.value self) = Ok values
    /\ (forall b i k,
          item3 queries b i k
            = (sumR d (fun c => item3 x b i c
                                * Linear.weight (SelfAttention.query self) k c)
               + Linear.bias (SelfAttention.query self) k)%R
          /\ item3 keys b i k
            = (sumR d (fun c => item3 x b i c
                                * Linear.weight (SelfAttention.key self) k c)
               + Linear.bias (SelfAttention.key self) k)%R
          /\ item3 values b i k
            = (sumR d (fun c => item3 x b i c
                                * Linear.weight (SelfAttention.value self) k c)
               + Linear.bias (SelfAttention.value self) k)%R)
    /\ SelfAttention.scores x queries keys = Ok scores
    /\ shape3 scores = (size0 x, size1 x, size1 x)
    /\ (0 < sqrt (INR d))%R
    /\ (forall b i j,
          item3 scores b i j
            = (sumR d (fun k => item3 queries b i k * item3 keys b j k)
               * (1 / sqrt (INR d)))%R)
    /\ weights = softmax scores
    /\ shape3 weights = (size0 x, size1 x, size1 x)
    /\ (forall b i j,
          item3 weights b i j
            = (exp (item3 scores b i j)
               / sumR (size1 x) (fun j' => exp (item3 scores b i j')))%R)
    /\ (forall b i, i < size1 x ->
          (forall j, (0 <= item3 weights b i j)%R)
          /\ sumR (size1 x) (fun j => item3 weights b i j) = 1%R)
    /\ bmm weights values = Ok out
    /\ eval (SelfAttention.forward x) self = Ok out
    /\ shape3 out = (size0 x, size1 x, d)
    /\ (forall b i k,
          item3 out b i k
            = sumR (size1 x)
                (fun j => item3 weights b i j * item3 values b j k)%R).
Proof.
  destruct Hwf as (Hq & Hk & Hv).
  destruct (Linear_forward_ok d d _ x Hq Hx) as (queries & Eq & Sq & Iq).
  destruct (Linear_forward_ok d d _ x Hk Hx) as (keys & Ek & Sk & Ik).
  destruct (Linear_forward_ok d d _ x Hv Hx) as (values & Ev & Sv & Iv).
  unfold shape3 in Sq, Sk, Sv.
  injection Sq as Sq0 Sq1 Sq2. injection Sk as Sk0 Sk1 Sk2.
  injection Sv as Sv0 Sv1 Sv2.
  assert (Ebmm : bmm queries (transpose12 keys)
                 = Ok (mkTensor3 (size0 queries) (size1 queries) (size1 keys)
                         (fun bt i j => sumR (size2 queries)
                            (fun k => (item3 queries bt i k * item3 keys bt j k)%R)))).
  { apply bmm_ok; simpl; congruence. }
  set (scores := div_scalar
                   (mkTensor3 (size0 queries) (size1 queries) (size1 keys)
                      (fun bt i j => sumR (size2 queries)
                         (fun k => (item3 queries bt i k * item3 keys bt j k)%R)))
                   (sqrt (INR (size2 x)))).
  assert (Escores : SelfAttention.scores x queries keys = Ok scores).
  { unfold SelfAttention.scores. rewrite Ebmm. reflexivity. }
  assert (Eout : bmm (softmax scores) values
                 = Ok (mkTensor3 (size0 x) (size1 x) d
                         (fun bt i j => sumR (size1 x)
                            (fun k => (item3 (softmax scores) bt i k
                                       * item3 values bt k j)%R)))).
  { rewrite bmm_ok by (simpl; congruence). simpl.
    rewrite Sq0, Sq1, Sk1, Sv2. reflexivity. }
  exists queries, keys, values, scores, (softmax scores). eexists.
  split; [ exact Eq | ]. split; [ exact Ek | ]. split; [ exact Ev | ].
  split; [ intros b i k; rewrite Iq, Ik, Iv; auto | ].
  split; [ exact Escores | ].
  split; [ unfold shape3; simpl; congruence | ].
  split; [ apply sqrt_lt_R0, lt_0_INR; exact Hd | ].
  split.
  { intros b i j. simpl. rewrite Sq2, Hx. unfold Rdiv. rewrite Rmult_1_l.
    reflexivity. }
  split; [ reflexivity | ].
  split; [ unfold shape3; simpl; congruence | ].
  split.
  { intros b i j. simpl. rewrite Sk1. reflexivity. }
  split.
  { intros b i Hi.
    assert (Hpos : 0 < size2 scores) by (simpl; lia).
    split.
    - intros j. apply softmax_nonneg. exact Hpos.
    - replace (size1 x) with (size2 scores) by (simpl; congruence).
      apply softmax_row_sum. exact Hpos. }
  split; [ exact Eout | ].
  split.
  { rewrite SelfAttention_forward_eval, Eq, Ek, Ev. simpl rbind.
    rewrite Escores. simpl rbind. exact Eout. }
  split; [ reflexivity | ].
  intros b i k. reflexivity.
Qed.

Lemma self_attention_forward_witness :
  exists queries keys values scores weights out,
    eval (Linear.forward (ones 1 3 2)) (SelfAttention.query attention0) = Ok queries
    /\ eval (Linear.forward (ones 1 3 2)) (SelfAttention.key attention0) = Ok keys
    /\ eval (Linear.forward (ones 1 3 2)) (SelfAttention.value attention0) = Ok values
    /\ (forall b i k,
          item3 queries b i k
            = (sumR 2 (fun c => item3 (ones 1 3 2) b i c
                                * Linear.weight (SelfAttention.query attention0) k c)
               + Linear.bias (SelfAttention.query attention0) k)%R
          /\ item3 keys b i k
            = (sumR 2 (fun c => item3 (ones 1 3 2) b i c
                                * Linear.weight (SelfAttention.key attention0) k c)
               + Linear.bias (SelfAttention.key attention0) k)%R
          /\ item3 values b i k
            = (sumR 2 (fun c => item3 (ones 1 3 2) b i c
                                * Linear.weight (SelfAttention.value attention0) k c)
               + Linear.bias (SelfAttention.value attention0) k)%R)
    /\ SelfAttention.scores (ones 1 3 2) queries keys = Ok scores
    /\ shape3 scores = (size0 (ones 1 3 2), size1 (ones 1 3 2), size1 (ones 1 3 2))
    /\ (0 < sqrt (INR 2))%R
    /\ (forall b i j,
          item3 scores b i j
            = (sumR 2 (fun k => item3 queries b i k * item3 keys b j k)
               * (1 / sqrt (INR 2)))%R)
    /\ weights = softmax scores
    /\ shape3 weights = (size0 (ones 1 3 2), size1 (ones 1 3 2), size1 (ones 1 3 2))
    /\ (forall b i j,
          item3 weights b i j
            = (exp (item3 scores b i j)
               / sumR (size1 (ones 1 3 2)) (fun j' => exp (item3 scores b i j')))%R)
    /\ (forall b i, i < size1 (ones 1 3 2) ->
          (forall j, (0 <= item3 weights b i j)%R)
          /\ sumR (size1 (ones 1 3 2)) (fun j => item3 weights b i j) = 1%R)
    /\ bmm weights values = Ok out
    /\ eval (SelfAttention.forward (ones 1 3 2)) attention0 = Ok out
    /\ shape3 out = (size0 (ones 1 3 2), size1 (ones 1 3 2), 2)
    /\ (forall b i k,
          item3 out b i k
            = sumR (size1 (ones 1 3 2))
                (fun j => item3 weights b i j * item3 values b j k)%R).
Proof.
  apply (self_attention_forward 2 attention0 (ones 1 3 2)).
  - repeat split.
  - reflexivity.
  - lia.
Defined.

(* ===================================================================== *)
(** * The transformer block *)
(* ===================================================================== *)

Lemma Sequential_forward_nil {T} (fwd : Tensor3 -> M T Tensor3) (x : Tensor3) :
  eval (Sequential_forward fwd x) [] = Ok x.
Proof. reflexivity. Qed.

Lemma Sequential_forward_cons {T} (fwd : Tensor3 -> M T Tensor3) (x : Tensor3)
    (m : T) (rest : list T) :
  eval (Sequential_forward fwd x) (m :: rest) =
  rbind (eval (fwd x) m) (fun y => eval (Sequential_forward fwd y) rest).
Proof.
  unfold eval, Sequential_forward. simpl.
  destruct (fwd x m) as [[y | s e] m']; simpl; [ | reflexivity ].
  destruct (Sequential_run fwd rest y); reflexivity.
Qed.

Lemma layer_forward_Linear (x : Tensor3) (l : Linear.t) :
  eval (layer_forward x) (nn_Linear l) = eval (Linear.forward x) l.
Proof. unfold eval. simpl. destruct (Linear.forward x l); reflexivity. Qed.

Lemma layer_forward_ReLU (x : Tensor3) :
  eval (layer_forward x) nn_ReLU = Ok (relu x).
Proof. reflexivity. Qed.

(** Proves that a computation made of module calls is read-only. *)
Ltac ro :=
  solve [ readonly_tac
        | readonly_tac; apply readonly_Sequential; auto with readonly ].

(** Evaluates a chain of binds whose steps are read-only, one step after
    the other, splitting on the outcome of each step. *)
Ltac eval_chain :=
  repeat (rewrite eval_bind by ro;
          first [ rewrite eval_zoom; simpl view | rewrite eval_lift ];
          match goal with
          | |- rbind ?r _ = rbind ?r _ => destruct r; [ simpl rbind | reflexivity ]
          end);
  try reflexivity.

Lemma TransformerBlock_forward_eval (self : TransformerBlock.t) (x : Tensor3) :
  eval (TransformerBlock.forward x) self =
  rbind (eval (SelfAttention.forward x) (TransformerBlock.attention self))
    (fun attended =>
  rbind (tensor_add x attended) (fun sum1 =>
  rbind (eval (LayerNorm.forward sum1) (TransformerBlock.norm1 self)) (fun x1 =>
  rbind (eval (Sequential_forward layer_forward x1)
           (TransformerBlock.feed_forward self)) (fun forwarded =>
  rbind (tensor_add x1 forwarded) (fun sum2 =>
  rbind (eval (LayerNorm.forward sum2) (TransformerBlock.norm2 self)) (fun x2 =>
  Ok x2)))))).
Proof. unfold TransformerBlock.forward. eval_chain. Qed.

(** The feed-forward sub-network: linear, ReLU, linear. *)
Lemma feed_forward_ok (d h : nat) (l1 l2 : Linear.t) (x : Tensor3) :
  wf_Linear d h l1 -> wf_Linear h d l2 -> size2 x = d ->
  exists hidden forwarded,
    eval (Linear.forward x) l1 = Ok hidden
    /\ eval (Linear.forward (relu hidden)) l2 = Ok forwarded
    /\ eval (Sequential_forward layer_forward x) [nn_Linear l1; nn_ReLU; nn_Linear l2]
       = Ok forwarded
    /\ shape3 forwarded = shape3 x
    /\ forall b p k,
         item3 forwarded b p k
           = (sumR h (fun j =>
                Rmax 0 (sumR d (fun c => item3 x b p c * Linear.weight l1 j c)
                        + Linear.bias l1 j)
                * Linear.weight l2 k j)
              + Linear.bias l2 k)%R.
Proof.
  intros H1 H2 Hx.
  destruct (Linear_forward_ok d h l1 x H1 Hx) as (hidden & Eh & Sh & Ih).
  assert (Hrelu : size2 (relu hidden) = h)
    by (unfold shape3 in Sh; simpl; congruence).
  destruct (Linear_forward_ok h d l2 (relu hidden) H2 Hrelu) as (fw & Ef & Sf & If).
  exists hidden, fw. split; [ exact Eh | ]. split; [ exact Ef | ]. split.
  - rewrite Sequential_forward_cons, layer_forward_Linear, Eh. simpl rbind.
    rewrite Sequential_forward_cons, layer_forward_ReLU. simpl rbind.
    rewrite Sequential_forward_cons, layer_forward_Linear, Ef. reflexivity.
  - split.
    + unfold shape3 in *. simpl in Sf. injection Sh as Sh0 Sh1 Sh2.
      rewrite Sf. congruence.
    + intros b p k. rewrite If. f_equal. apply sumR_ext. intros j _.
      simpl. rewrite Ih. reflexivity.
Qed.

(** The formula of [LayerNorm.forward] is the normalisation of the
    specification, position by position. *)
Lemma LayerNorm_forward_normalizes (d : nat) (n : LayerNorm.t) (x : Tensor3) :
  wf_LayerNorm d n -> size2 x = d ->
  exists y,
    eval (LayerNorm.forward x) n = Ok y
    /\ shape3 y = shape3 x
    /\ forall b p k,
         item3 y b p k
           = spec_normalize d (LayerNorm.eps n) (LayerNorm.weight n)
               (LayerNorm.bias n) (fun c => item3 x b p c) k.
Proof.
  intros Hn Hx.
  destruct (LayerNorm_forward_ok d n x Hn Hx) as (y & Ey & Sy & Iy).
  exists y. split; [ exact Ey | ]. split; [ exact Sy | ].
  intros b p k. rewrite Iy.
  unfold spec_normalize, spec_mean, LayerNorm.var, LayerNorm.mean.
  rewrite Hx. reflexivity.
Qed.

(** C3.  On an input [x] of shape (B, L, d) with [0 < d] the block returns
    [norm2 (x1 + forwarded)] with [x1 = norm1 (x + attended)]: each
    normalisation is applied to the sum of a sub-layer's input and output,
    and brings every position's vector of that sum to mean 0 and variance 1
    (up to [eps]) before the layer's scale and shift.  [feed_forward] is a
    linear layer d -> hidden, ReLU, and a linear layer hidden -> d,
    computed at every position from that position's vector of [x1] alone.
    The output has the shape of the input. *)
Theorem transformer_block_forward (d h : nat) (self : TransformerBlock.t)
    (x : Tensor3) (Hwf : wf_TransformerBlock d h self) (Hx : size2 x = d)
    (Hd : 0 < d) :
  exists l1 l2 attended sum1 x1 hidden forwarded sum2 out,
    TransformerBlock.feed_forward self = [nn_Linear l1; nn_ReLU; nn_Linear l2]
    /\ wf_Linear d h l1 /\ wf_Linear h d l2
    /\ eval (SelfAttention.forward x) (TransformerBlock.attention self) = Ok attended
    /\ shape3 attended = shape3 x
    /\ tensor_add x attended = Ok sum1
    /\ shape3 sum1 = shape3 x
    /\ (forall b p k, b < size0 x -> p < size1 x -> k < d ->
          item3 sum1 b p k = (item3 x b p k + item3 attended b p k)%R)
    /\ eval (LayerNorm.forward sum1) (TransformerBlock.norm1 self) = Ok x1
    /\ shape3 x1 = shape3 x
    /\ (forall b p k, b < size0 x -> p < size1 x -> k < d ->
          item3 x1 b p k
            = spec_normalize d
                (LayerNorm.eps (TransformerBlock.norm1 self))
                (LayerNorm.weight (TransformerBlock.norm1 self))
                (LayerNorm.bias (TransformerBlock.norm1 self))
                (fun c => item3 sum1 b p c) k)
    /\ eval (Linear.forward x1) l1 = Ok hidden
    /\ eval (Linear.forward (relu hidden)) l2 = Ok forwarded
    /\ eval (Sequential_forward layer_forward x1) (TransformerBlock.feed_forward self)
       = Ok forwarded
    /\ shape3 forwarded = shape3 x
    /\ (forall b p k,
          item3 forwarded b p k
            = (sumR h (fun j =>
                 Rmax 0 (sumR d (fun c => item3 x1 b p c * Linear.weight l1 j c)
                         + Linear.bias l1 j)
                 * Linear.weight l2 k j)
               + Linear.bias l2 k)%R)
    /\ tensor_add x1 forwarded = Ok sum2
    /\ shape3 sum2 = shape3 x
    /\ (forall b p k, b < size0 x -> p < size1 x -> k < d ->
          item3 sum2 b p k = (item3 x1 b p k + item3 forwarded b p k)%R)
    /\ eval (LayerNorm.forward sum2) (TransformerBlock.norm2 self) = Ok out
    /\ (forall b p k, b < size0 x -> p < size1 x -> k < d ->
          item3 out b p k
            = spec_normalize d
                (LayerNorm.eps (TransformerBlock.norm2 self))
                (LayerNorm.weight (TransformerBlock.norm2 self))
                (LayerNorm.bias (TransformerBlock.norm2 self))
                (fun c => item3 sum2 b p c) k)
    /\ eval (TransformerBlock.forward x) self = Ok out
    /\ shape3 out = shape3 x.
Proof.
  destruct Hwf as (Ha & (l1 & l2 & Hff & Hl1 & Hl2) & Hn1 & Hn2).
  destruct (SelfAttention_forward_ok d _ x Ha Hx) as (attended & Eatt & Satt).
  assert (Sx : shape3 x = shape3 attended)
    by (rewrite Satt; unfold shape3; rewrite Hx; reflexivity).
  destruct (tensor_add_same_shape x attended Sx) as (sum1 & Esum1 & Ssum1 & Isum1).
  assert (Hsum1 : size2 sum1 = d)
    by (unfold shape3 in Ssum1; injection Ssum1 as _ _ ->; exact Hx).
  destruct (LayerNorm_forward_normalizes d _ sum1 Hn1 Hsum1)
    as (x1 & Ex1 & Sx1 & Ix1).
  assert (Hx1 : size2 x1 = d)
    by (unfold shape3 in Sx1; injection Sx1 as _ _ ->; exact Hsum1).
  destruct (feed_forward_ok d h l1 l2 x1 Hl1 Hl2 Hx1)
    as (hidden & forwarded & Eh & Ef & Eseq & Sfw & Ifw).
  destruct (tensor_add_same_shape x1 forwarded (eq_sym Sfw))
    as (sum2 & Esum2 & Ssum2 & Isum2).
  assert (Hsum2 : size2 sum2 = d)
    by (unfold shape3 in Ssum2; injection Ssum2 as _ _ ->; exact Hx1).
  destruct (LayerNorm_forward_normalizes d _ sum2 Hn2 Hsum2)
    as (out & Eout & Sout & Iout).
  assert (Sx1x : shape3 x1 = shape3 x) by congruence.
  exists l1, l2, attended, sum1, x1, hidden, forwarded, sum2, out.
  split; [ exact Hff | ]. split; [ exact Hl1 | ]. split; [ exact Hl2 | ].
  split; [ exact Eatt | ]. split; [ symmetry; exact Sx | ].
  split; [ exact Esum1 | ]. split; [ exact Ssum1 | ].
  split; [ rewrite <- Hx; exact Isum1 | ].
  split; [ exact Ex1 | ]. split; [ exact Sx1x | ].
  split; [ intros b p k _ _ _; apply Ix1 | ].
  split; [ exact Eh | ]. split; [ exact Ef | ].
  split; [ rewrite Hff; exact Eseq | ].
  split; [ congruence | ]. split; [ exact Ifw | ].
  split; [ exact Esum2 | ]. split; [ congruence | ]. split.
  { unfold shape3 in Sx1x. injection Sx1x as <- <- _. rewrite <- Hx1.
    exact Isum2. }
  split; [ exact Eout | ].
  split; [ intros b p k _ _ _; apply Iout | ].
  split.
  { rewrite TransformerBlock_forward_eval, Eatt. simpl rbind.
    rewrite Esum1. simpl rbind. rewrite Ex1. simpl rbind.
    rewrite Hff, Eseq. simpl rbind. rewrite Esum2. simpl rbind.
    rewrite Eout. reflexivity. }
  congruence.
Qed.

Lemma TransformerBlock_init_wf (d h : nat) (theta : initial_values) (n : nat) :
  wf_TransformerBlock d h (TransformerBlock.init d h theta n).
Proof.
  unfold wf_TransformerBlock, wf_SelfAttention, wf_Linear, wf_LayerNorm. simpl.
  repeat split. do 2 eexists. repeat split.
Qed.

Lemma transformer_block_forward_witness :
  exists l1 l2 attended sum1 x1 hidden forwarded sum2 out,
    TransformerBlock.feed_forward block0 = [nn_Linear l1; nn_ReLU; nn_Linear l2]
    /\ wf_Linear 2 3 l1 /\ wf_Linear 3 2 l2
    /\ eval (SelfAttention.forward (ones 1 3 2)) (TransformerBlock.attention block0)
       = Ok attended
    /\ shape3 attended = shape3 (ones 1 3 2)
    /\ tensor_add (ones 1 3 2) attended = Ok sum1
    /\ shape3 sum1 = shape3 (ones 1 3 2)
    /\ (forall b p k,
          b < size0 (ones 1 3 2) -> p < size1 (ones 1 3 2) -> k < 2 ->
          item3 sum1 b p k = (item3 (ones 1 3 2) b p k + item3 attended b p k)%R)
    /\ eval (LayerNorm.forward sum1) (TransformerBlock.norm1 block0) = Ok x1
    /\ shape3 x1 = shape3 (ones 1 3 2)
    /\ (forall b p k,
          b < size0 (ones 1 3 2) -> p < size1 (ones 1 3 2) -> k < 2 ->
          item3 x1 b p k
            = spec_normalize 2
                (LayerNorm.eps (TransformerBlock.norm1 block0))
                (LayerNorm.weight (TransformerBlock.norm1 block0))
                (LayerNorm.bias (TransformerBlock.norm1 block0))
                (fun c => item3 sum1 b p c) k)
    /\ eval (Linear.forward x1) l1 = Ok hidden
    /\ eval (Linear.forward (relu hidden)) l2 = Ok forwarded
    /\ eval (Sequential_forward layer_forward x1) (TransformerBlock.feed_forward block0)
       = Ok forwarded
    /\ shape3 forwarded = shape3 (ones 1 3 2)
    /\ (forall b p k,
          item3 forwarded b p k
            = (sumR 3 (fun j =>
                 Rmax 0 (sumR 2 (fun c => item3 x1 b p c * Linear.weight l1 j c)
                         + Linear.bias l1 j)
                 * Linear.weight l2 k j)
               + Linear.bias l2 k)%R)
    /\ tensor_add x1 forwarded = Ok sum2
    /\ shape3 sum2 = shape3 (ones 1 3 2)
    /\ (forall b p k,
          b < size0 (ones 1 3 2) -> p < size1 (ones 1 3 2) -> k < 2 ->
          item3 sum2 b p k = (item3 x1 b p k + item3 forwarded b p k)%R)
    /\ eval (LayerNorm.forward sum2) (TransformerBlock.norm2 block0) = Ok out
    /\ (forall b p k,
          b < size0 (ones 1 3 2) -> p < size1 (ones 1 3 2) -> k < 2 ->
          item3 out b p k
            = spec_normalize 2
                (LayerNorm.eps (TransformerBlock.norm2 block0))
                (LayerNorm.weight (TransformerBlock.norm2 block0))
                (LayerNorm.bias (TransformerBlock.norm2 block0))
                (fun c => item3 sum2 b p c) k)
    /\ eval (TransformerBlock.forward (ones 1 3 2)) block0 = Ok out
    /\ shape3 out = shape3 (ones 1 3 2).
Proof.
  apply (transformer_block_forward 2 3 block0 (ones 1 3 2)).
  - apply TransformerBlock_init_wf.
  - reflexivity.
  - lia.
Defined.

(* ===================================================================== *)
(** * The model stack *)
(* ===================================================================== *)

Lemma setitem_cols_shape (dst src out : Tensor2) (start : nat) :
  PositionalEncoding.setitem_cols dst start src = Ok out ->
  rows2 out = rows2 dst /\ cols2 out = cols2 dst.
Proof.
  unfold PositionalEncoding.setitem_cols.
  destruct (_ && _); intros H; inversion H; subst; simpl; auto.
Qed.

Lemma PositionalEncoding_init_wf (d max_seq_len : nat) (p : PositionalEncoding.t) :
  PositionalEncoding.init d max_seq_len = Ok p ->
  shape3 (PositionalEncoding.pe p) = (max_seq_len, 1, d).
Proof.
  unfold PositionalEncoding.init.
  destruct (d =? 0); [ discriminate | ].
  destruct (PositionalEncoding.setitem_cols _ 0 _) as [pe1 | ] eqn:E1;
    [ simpl rbind | discriminate ].
  destruct (PositionalEncoding.setitem_cols pe1 1 _) as [pe2 | ] eqn:E2;
    [ simpl rbind | discriminate ].
  intros H. inversion H; subst. clear H.
  apply setitem_cols_shape in E1, E2. simpl in E1.
  unfold shape3. simpl. destruct E1, E2. congruence.
Qed.

Lemma blocks_init_wf (d h : nat) (theta : initial_values) (ls : list nat) :
  Forall (wf_TransformerBlock d h)
    (map (fun l => TransformerBlock.init d h theta (5 * l)) ls).
Proof.
  induction ls as [ | l ls IH ]; simpl.
  - apply Forall_nil_2.
  - apply Forall_cons_2; [ apply TransformerBlock_init_wf | exact IH ].
Qed.

(** The constructor establishes the shapes. *)
Lemma SimpleLLM_init_wf (V d h n : nat) (theta : initial_values) (m : SimpleLLM.t) :
  SimpleLLM.init V d h n theta = Ok m -> wf_SimpleLLM V d h m.
Proof.
  unfold SimpleLLM.init.
  destruct (PositionalEncoding.init d PositionalEncoding.default_max_seq_len)
    as [p | ] eqn:Ep; [ simpl rbind | discriminate ].
  intros H. inversion H; subst. clear H.
  apply PositionalEncoding_init_wf in Ep. unfold shape3 in Ep.
  injection Ep as E0 E1 E2.
  unfold wf_SimpleLLM, wf_PositionalEncoding, wf_Linear. simpl.
  repeat split; try assumption. apply blocks_init_wf.
Qed.

Lemma tiny_model_init : SimpleLLM.init 3 2 2 1 zero_values = Ok tiny_model.
Proof. reflexivity. Qed.

Lemma tiny_model_wf : wf_SimpleLLM 3 2 2 tiny_model.
Proof. apply (SimpleLLM_init_wf 3 2 2 1 zero_values). exact tiny_model_init. Qed.

Lemma SimpleLLM_forward_eval (m : SimpleLLM.t) (x : IndexTensor) :
  eval (SimpleLLM.forward x) m =
  rbind (eval (Embedding.forward x) (SimpleLLM.embedding m)) (fun e =>
  rbind (eval (PositionalEncoding.forward (transpose01 e))
           (SimpleLLM.positional_encoding m)) (fun p =>
  rbind (eval (Sequential_forward TransformerBlock.forward (transpose01 p))
           (SimpleLLM.transformer_blocks m)) (fun t =>
  rbind (eval (Linear.forward t) (SimpleLLM.output m)) (fun logits =>
  Ok logits)))).
Proof. unfold SimpleLLM.forward. eval_chain. Qed.

Lemma greedy_decode_eval (m : SimpleLLM.t) (tokens : list Z) :
  eval (greedy_decode tokens) m =
  rbind (input_tensor_of tokens) (fun input_tensor =>
  rbind (eval (SimpleLLM.forward input_tensor) m) (fun output =>
  rbind (select_last output) (fun last =>
  rbind (argmax last) (fun predicted_token =>
  Ok predicted_token)))).
Proof.
  unfold greedy_decode.
  rewrite eval_bind by ro. rewrite eval_lift.
  destruct (input_tensor_of tokens) as [x | ]; [ simpl rbind | reflexivity ].
  rewrite eval_bind by ro.
  destruct (eval (SimpleLLM.forward x) m) as [out | ]; [ simpl rbind | reflexivity ].
  eval_chain.
Qed.

Lemma PositionalEncoding_forward_eval (self : PositionalEncoding.t) (x : Tensor3) :
  eval (PositionalEncoding.forward x) self
  = tensor_add x (slice0 (PositionalEncoding.pe self) (size0 x)).
Proof. reflexivity. Qed.

Lemma broadcast_dim_one (n : nat) : broadcast_dim n 1 = Some n.
Proof.
  unfold broadcast_dim. destruct (n =? 1) eqn:E; [ reflexivity | ].
  reflexivity.
Qed.

(** Within the capacity of the table, position [i] of the sequence gets row
    [i] of the table, for every batch element. *)
Lemma PositionalEncoding_forward_ok (d : nat) (self : PositionalEncoding.t)
    (x : Tensor3) :
  wf_PositionalEncoding d self -> size2 x = d ->
  size0 x <= PositionalEncoding.default_max_seq_len ->
  exists y,
    eval (PositionalEncoding.forward x) self = Ok y
    /\ shape3 y = shape3 x
    /\ forall i b k, i < size0 x -> b < size1 x -> k < size2 x ->
         item3 y i b k
           = (item3 x i b k + item3 (PositionalEncoding.pe self) i 0 k)%R.
Proof.
  intros (H0 & H1 & H2) Hx Hlen.
  rewrite PositionalEncoding_forward_eval. unfold tensor_add. simpl.
  rewrite H0, H1, H2, Hx.
  replace (Nat.min (size0 x) PositionalEncoding.default_max_seq_len)
    with (size0 x) by lia.
  rewrite !broadcast_dim_same, broadcast_dim_one.
  eexists. split; [ reflexivity | ]. unfold shape3. simpl.
  split; [ congruence | ].
  intros i b k Hi Hb Hk.
  rewrite !bidx_in_range by lia. reflexivity.
Qed.

(** Beyond the capacity the slice of the table has fewer rows than the
    sequence, and the addition cannot broadcast. *)
Lemma PositionalEncoding_forward_too_long (d : nat) (self : PositionalEncoding.t)
    (x : Tensor3) :
  wf_PositionalEncoding d self ->
  PositionalEncoding.default_max_seq_len < size0 x ->
  eval (PositionalEncoding.forward x) self = Raise in_add RuntimeError_shape.
Proof.
  intros (H0 & H1 & H2) Hlen.
  rewrite PositionalEncoding_forward_eval. unfold tensor_add. simpl.
  rewrite H0.
  replace (Nat.min (size0 x) PositionalEncoding.default_max_seq_len)
    with PositionalEncoding.default_max_seq_len by lia.
  unfold broadcast_dim at 1.
  replace (size0 x =? PositionalEncoding.default_max_seq_len) with false
    by (symmetry; apply Nat.eqb_neq; lia).
  replace (size0 x =? 1) with false
    by (symmetry; apply Nat.eqb_neq; unfold PositionalEncoding.default_max_seq_len in Hlen; lia).
  replace (PositionalEncoding.default_max_seq_len =? 1) with false
    by reflexivity.
  reflexivity.
Qed.

Lemma TransformerBlock_forward_ok (d h : nat) (self : TransformerBlock.t)
    (x : Tensor3) :
  wf_TransformerBlock d h self -> size2 x = d ->
  exists out,
    eval (TransformerBlock.forward x) self = Ok out /\ shape3 out = shape3 x.
Proof.
  intros (Ha & (l1 & l2 & Hff & Hl1 & Hl2) & Hn1 & Hn2) Hx.
  destruct (SelfAttention_forward_ok d _ x Ha Hx) as (attended & Eatt & Satt).
  assert (Sx : shape3 x = shape3 attended)
    by (rewrite Satt; unfold shape3; rewrite Hx; reflexivity).
  destruct (tensor_add_same_shape x attended Sx) as (sum1 & Esum1 & Ssum1 & _).
  assert (Hsum1 : size2 sum1 = d)
    by (unfold shape3 in Ssum1; injection Ssum1 as _ _ ->; exact Hx).
  destruct (LayerNorm_forward_ok d _ sum1 Hn1 Hsum1) as (x1 & Ex1 & Sx1 & _).
  assert (Hx1 : size2 x1 = d)
    by (unfold shape3 in Sx1; injection Sx1 as _ _ ->; exact Hsum1).
  destruct (feed_forward_ok d h l1 l2 x1 Hl1 Hl2 Hx1)
    as (hidden & forwarded & _ & _ & Eseq & Sfw & _).
  destruct (tensor_add_same_shape x1 forwarded (eq_sym Sfw))
    as (sum2 & Esum2 & Ssum2 & _).
  assert (Hsum2 : size2 sum2 = d)
    by (unfold shape3 in Ssum2; injection Ssum2 as _ _ ->; exact Hx1).
  destruct (LayerNorm_forward_ok d _ sum2 Hn2 Hsum2) as (out & Eout & Sout & _).
  exists out. split; [ | congruence ].
  rewrite TransformerBlock_forward_eval, Eatt. simpl rbind.
  rewrite Esum1. simpl rbind. rewrite Ex1. simpl rbind.
  rewrite Hff, Eseq. simpl rbind. rewrite Esum2. simpl rbind.
  rewrite Eout. reflexivity.
Qed.

Lemma transformer_blocks_forward_ok (d h : nat) (blocks : list TransformerBlock.t) :
  Forall (wf_TransformerBlock d h) blocks ->
  forall x, size2 x = d ->
  exists out,
    eval (Sequential_forward TransformerBlock.forward x) blocks = Ok out
    /\ shape3 out = shape3 x.
Proof.
  induction 1 as [ | b blocks Hb _ IH ]; intros x Hx.
  - exists x. split; reflexivity.
  - destruct (TransformerBlock_forward_ok d h b x Hb Hx) as (y & Ey & Sy).
    assert (Hy : size2 y = d)
      by (unfold shape3 in Sy; injection Sy as _ _ ->; exact Hx).
    destruct (IH y Hy) as (out & Eout & Sout).
    exists out. split; [ | congruence ].
    rewrite Sequential_forward_cons, Ey. exact Eout.
Qed.

Lemma Embedding_forward_ok (self : Embedding.t) (rows : list (list Z)) :
  Forall (Forall (valid_id (nn_Embedding.num_embeddings (Embedding.embedding self))))
    rows ->
  exists e,
    eval (Embedding.forward (mkIndexTensor int64 rows)) self = Ok e
    /\ shape3 e = (length rows, length (hd [] rows),
                   nn_Embedding.embedding_dim (Embedding.embedding self)).
Proof.
  intros Hok. unfold Embedding.forward.
  rewrite eval_zoom, nn_Embedding_forward_int64. simpl view.
  replace (forallb _ rows) with true
    by (symmetry; apply forallb_valid_rows; exact Hok).
  eexists. split; reflexivity.
Qed.

(** On valid ids, within the capacity of the positional table, the forward
    pass returns logits of shape (B, L, V). *)
Lemma SimpleLLM_forward_ok (V d h : nat) (m : SimpleLLM.t) (rows : list (list Z)) :
  wf_SimpleLLM V d h m ->
  Forall (Forall (valid_id V)) rows ->
  length (hd [] rows) <= PositionalEncoding.default_max_seq_len ->
  exists logits,
    eval (SimpleLLM.forward (mkIndexTensor int64 rows)) m = Ok logits
    /\ shape3 logits = (length rows, length (hd [] rows), V).
Proof.
  intros (HV & Hd & Hpe & Hblocks & Hout) Hrows Hlen.
  rewrite <- HV in Hrows.
  destruct (Embedding_forward_ok _ rows Hrows) as (e & Ee & Se).
  unfold shape3 in Se. injection Se as Se0 Se1 Se2. rewrite Hd in Se2.
  destruct (PositionalEncoding_forward_ok d _ (transpose01 e) Hpe)
    as (p & Ep & Sp & _); [ exact Se2 | simpl; lia | ].
  unfold shape3 in Sp. simpl in Sp. injection Sp as Sp0 Sp1 Sp2.
  destruct (transformer_blocks_forward_ok d h _ Hblocks (transpose01 p))
    as (t & Et & St); [ simpl; congruence | ].
  unfold shape3 in St. simpl in St. injection St as St0 St1 St2.
  destruct (Linear_forward_ok d V _ t Hout) as (logits & El & Sl & _);
    [ congruence | ].
  exists logits. split.
  - rewrite SimpleLLM_forward_eval, Ee. simpl rbind. rewrite Ep. simpl rbind.
    rewrite Et. simpl rbind. rewrite El. reflexivity.
  - rewrite Sl. congruence.
Qed.

(* ===================================================================== *)
(** * Sequences longer than the positional table *)
(* ===================================================================== *)

(** Past the embedding lookup, a sequence longer than the table stops at
    the positional encoder. *)
Lemma too_long_after_embedding (V d h : nat) (m : SimpleLLM.t) (x : IndexTensor)
    (e : Tensor3) :
  wf_SimpleLLM V d h m ->
  PositionalEncoding.default_max_seq_len < length (hd [] (idx_rows x)) ->
  eval (Embedding.forward x) (SimpleLLM.embedding m) = Ok e ->
  eval (PositionalEncoding.forward (transpose01 e)) (SimpleLLM.positional_encoding m)
    = Raise in_add RuntimeError_shape
  /\ size0 (transpose01 e) = length (hd [] (idx_rows x)).
Proof.
  intros (HV & Hd & Hpe & Hblocks & Hout) Hlen He.
  destruct x as [dt rows]. simpl in Hlen |- *.
  unfold Embedding.forward in He. rewrite eval_zoom in He.
  destruct dt; [ discriminate He | ].
  rewrite nn_Embedding_forward_int64 in He.
  destruct (forallb _ rows); [ | discriminate He ].
  inversion He; subst e. clear He. split; [ | reflexivity ].
  apply (PositionalEncoding_forward_too_long d); [ exact Hpe | exact Hlen ].
Qed.

Lemma too_long_never_returns (V d h : nat) (m : SimpleLLM.t) (x : IndexTensor) :
  wf_SimpleLLM V d h m ->
  PositionalEncoding.default_max_seq_len < length (hd [] (idx_rows x)) ->
  forall out, eval (SimpleLLM.forward x) m <> Ok out.
Proof.
  intros Hwf Hlen out. rewrite SimpleLLM_forward_eval.
  destruct (eval (Embedding.forward x) (SimpleLLM.embedding m)) as [e | ] eqn:Ee;
    [ | discriminate ].
  simpl rbind.
  destruct (too_long_after_embedding V d h m x e Hwf Hlen Ee) as [-> _].
  discriminate.
Qed.

(** C5.  A model built by [SimpleLLM] has a positional table of
    [max_seq_len = 5000] rows.  On a sequence longer than that the forward
    pass never returns a result.  With valid token ids the embedding lookup
    succeeds and the failure is the size-mismatch error of the addition in
    the positional encoder, which reaches the caller; the model is left
    unchanged. *)
Theorem forward_sequence_too_long (V d h : nat) (m : SimpleLLM.t) (x : IndexTensor)
    (Hwf : wf_SimpleLLM V d h m)
    (Hlen : PositionalEncoding.default_max_seq_len < length (hd [] (idx_rows x))) :
  (forall out, eval (SimpleLLM.forward x) m <> Ok out)
  /\ (idx_dtype x = int64 -> Forall (Forall (valid_id V)) (idx_rows x) ->
      (exists e,
         eval (Embedding.forward x) (SimpleLLM.embedding m) = Ok e
         /\ size0 (transpose01 e) = length (hd [] (idx_rows x))
         /\ eval (PositionalEncoding.forward (transpose01 e))
              (SimpleLLM.positional_encoding m)
            = Raise in_add RuntimeError_shape)
      /\ SimpleLLM.forward x m = (Raise in_add RuntimeError_shape, m)).
Proof.
  split.
  - exact (too_long_never_returns V d h m x Hwf Hlen).
  - intros Hdt Hrows. destruct x as [dt rows]. simpl in Hdt, Hrows. subst dt.
    assert (HV : nn_Embedding.num_embeddings
                   (Embedding.embedding (SimpleLLM.embedding m)) = V)
      by (destruct Hwf as (HV & _); exact HV).
    rewrite <- HV in Hrows.
    destruct (Embedding_forward_ok _ rows Hrows) as (e & Ee & _).
    destruct (too_long_after_embedding V d h m _ e Hwf Hlen Ee) as [Hraise Hsize].
    split; [ exists e; auto | ].
    rewrite (readonly_run _ m (readonly_SimpleLLM _)). f_equal.
    rewrite SimpleLLM_forward_eval, Ee. simpl rbind. rewrite Hraise. reflexivity.
Qed.

Lemma forward_sequence_too_long_witness :
  (forall out, eval (SimpleLLM.forward long_input) tiny_model <> Ok out)
  /\ (idx_dtype long_input = int64 ->
      Forall (Forall (valid_id 3)) (idx_rows long_input) ->
      (exists e,
         eval (Embedding.forward long_input) (SimpleLLM.embedding tiny_model) = Ok e
         /\ size0 (transpose01 e) = length (hd [] (idx_rows long_input))
         /\ eval (PositionalEncoding.forward (transpose01 e))
              (SimpleLLM.positional_encoding tiny_model)
            = Raise in_add RuntimeError_shape)
      /\ SimpleLLM.forward long_input tiny_model
         = (Raise in_add RuntimeError_shape, tiny_model)).
Proof.
  apply (forward_sequence_too_long 3 2 2 tiny_model long_input).
  - exact tiny_model_wf.
  - unfold long_input. cbn [idx_rows hd]. rewrite repeat_length. apply Nat.lt_succ_diag_r.
Defined.

(* ===================================================================== *)
(** * Greedy decoding *)
(* ===================================================================== *)

Lemma argmax_below_bound (f : nat -> R) (n : nat) : argmax_below f n <= Nat.pred n.
Proof.
  induction n as [ | n IH ]; [ reflexivity | ]. simpl.
  destruct (Rlt_dec (f (argmax_below f n)) (f n)); lia.
Qed.

Lemma argmax_below_ext (f g : nat -> R) (n : nat) :
  (forall k, k < n -> f k = g k) -> argmax_below f n = argmax_below g n.
Proof.
  induction n as [ | n IH ]; intros H; [ reflexivity | ]. simpl.
  rewrite <- IH by (intros; apply H; lia).
  pose proof (argmax_below_bound f n) as Hb.
  rewrite <- (H (argmax_below f n)) by lia. rewrite <- (H n) by lia.
  reflexivity.
Qed.

Lemma input_tensor_of_valid (V : nat) (tokens : list Z) :
  tokens <> [] -> Forall (valid_id V) tokens -> (Z.of_nat V <= 2 ^ 63)%Z ->
  input_tensor_of tokens = Ok (mkIndexTensor int64 [tokens]).
Proof.
  intros Hne Hvalid HV. unfold input_tensor_of, torch_tensor.
  destruct tokens as [ | t ts ]; [ congruence | ].
  replace (forallb fits_int64 (t :: ts)) with true; [ reflexivity | ].
  symmetry. apply forallb_forall. intros z Hz. apply list_elem_of_In in Hz.
  rewrite Forall_forall in Hvalid.
  exact (valid_id_fits V z (Hvalid z Hz) HV).
Qed.

Lemma input_tensor_of_nonempty (tokens : list Z) (x : IndexTensor) :
  tokens <> [] -> input_tensor_of tokens = Ok x -> x = mkIndexTensor int64 [tokens].
Proof.
  intros Hne. unfold input_tensor_of, torch_tensor.
  destruct tokens as [ | t ts ]; [ congruence | ].
  destruct (forallb fits_int64 (t :: ts)); simpl; intros H;
    [ inversion H; reflexivity | discriminate H ].
Qed.

(** A forward pass that returns was given valid ids, no more of them than
    the positional table has rows. *)
Lemma forward_ok_inputs (V d h : nat) (m : SimpleLLM.t) (tokens : list Z)
    (logits : Tensor3) :
  wf_SimpleLLM V d h m ->
  eval (SimpleLLM.forward (mkIndexTensor int64 [tokens])) m = Ok logits ->
  Forall (valid_id V) tokens
  /\ length tokens <= PositionalEncoding.default_max_seq_len.
Proof.
  intros Hwf El. split.
  - destruct Hwf as (HV & _). rewrite SimpleLLM_forward_eval in El.
    unfold Embedding.forward in El. rewrite eval_zoom in El.
    rewrite nn_Embedding_forward_int64 in El. simpl view in El.
    destruct (forallb _ [tokens]) eqn:Hall; [ | discriminate El ].
    apply forallb_valid_rows in Hall. rewrite HV in Hall.
    apply Forall_cons_1 in Hall. exact (proj1 Hall).
  - destruct (Nat.le_gt_cases (length tokens)
                PositionalEncoding.default_max_seq_len) as [Hle | Hgt];
      [ exact Hle | exfalso ].
    exact (too_long_never_returns V d h m (mkIndexTensor int64 [tokens])
             Hwf Hgt logits El).
Qed.

(** The decoding cell on logits of shape (1, L, V) with L and V positive. *)
Lemma greedy_decode_of_logits (V : nat) (m : SimpleLLM.t) (tokens : list Z)
    (logits : Tensor3) :
  input_tensor_of tokens = Ok (mkIndexTensor int64 [tokens]) ->
  eval (SimpleLLM.forward (mkIndexTensor int64 [tokens])) m = Ok logits ->
  shape3 logits = (1, length tokens, V) -> 0 < length tokens -> 0 < V ->
  greedy_decode tokens m
  = (Ok (Z.of_nat (argmax_below
                     (fun v => item3 logits 0 (length tokens - 1) v) V)), m).
Proof.
  intros Hx El Sl HL HVpos. unfold shape3 in Sl. injection Sl as S0 S1 S2.
  rewrite (readonly_run _ m (readonly_greedy_decode tokens)). f_equal.
  rewrite greedy_decode_eval, Hx. simpl rbind. rewrite El. simpl rbind.
  unfold select_last. rewrite S1.
  replace (length tokens =? 0) with false by (symmetry; apply Nat.eqb_neq; lia).
  simpl rbind. unfold argmax. simpl rows2. simpl cols2. rewrite S0, S2.
  rewrite Nat.mul_1_l.
  replace (V =? 0) with false by (symmetry; apply Nat.eqb_neq; lia).
  simpl rbind. f_equal. f_equal.
  apply argmax_below_ext. intros k Hk. simpl.
  rewrite (Nat.div_small k V Hk), (Nat.mod_small k V Hk). reflexivity.
Qed.

(** C8.  For a non-empty token sequence and a model as the notebook builds
    it, the decoding cell makes one forward pass.  When the pass raises, the
    cell ends with that exception.  When it returns logits, the cell returns
    the first index [p] at which the logits of the last position are
    maximal.  The pass does return for valid ids within the capacity of the
    positional table.  A second run after the first gives what the first
    gave: nothing is sampled and nothing was changed. *)
Theorem greedy_decode_argmax (V d h : nat) (m : SimpleLLM.t) (tokens : list Z)
    (x : IndexTensor)
    (Hwf : wf_SimpleLLM V d h m)
    (HV : (Z.of_nat V <= 2 ^ 63)%Z)
    (Hne : tokens <> [])
    (Hx : input_tensor_of tokens = Ok x) :
  x = mkIndexTensor int64 [tokens]
  /\ (forall st e, eval (SimpleLLM.forward x) m = Raise st e ->
        greedy_decode tokens m = (Raise st e, m))
  /\ (forall logits, eval (SimpleLLM.forward x) m = Ok logits ->
        exists p,
          greedy_decode tokens m = (Ok (Z.of_nat p), m)
          /\ p < V
          /\ (forall v, v < V ->
                (item3 logits 0 (length tokens - 1) v
                 <= item3 logits 0 (length tokens - 1) p)%R)
          /\ (forall v, v < p ->
                (item3 logits 0 (length tokens - 1) v
                 < item3 logits 0 (length tokens - 1) p)%R))
  /\ (Forall (valid_id V) tokens ->
      length tokens <= PositionalEncoding.default_max_seq_len ->
      exists logits,
        eval (SimpleLLM.forward x) m = Ok logits
        /\ shape3 logits = (1, length tokens, V))
  /\ greedy_decode tokens (snd (greedy_decode tokens m)) = greedy_decode tokens m.
Proof.
  pose proof (input_tensor_of_nonempty tokens x Hne Hx) as ->.
  assert (Hok : Forall (valid_id V) tokens ->
                length tokens <= PositionalEncoding.default_max_seq_len ->
                exists logits,
                  eval (SimpleLLM.forward (mkIndexTensor int64 [tokens])) m = Ok logits
                  /\ shape3 logits = (1, length tokens, V)).
  { intros Hvalid Hlen.
    apply (SimpleLLM_forward_ok V d h m [tokens] Hwf); [ | exact Hlen ].
    apply Forall_cons_2; [ exact Hvalid | apply Forall_nil_2 ]. }
  split; [ reflexivity | ]. split; [ | split; [ | split; [ exact Hok | ] ] ].
  - intros st e Hraise. exact (greedy_decode_forward_raises tokens _ m st e Hx Hraise).
  - intros logits El.
    destruct (forward_ok_inputs V d h m tokens logits Hwf El) as [Hvalid Hlen].
    destruct (Hok Hvalid Hlen) as (logits' & El' & Sl).
    assert (logits' = logits) by congruence. subst logits'.
    assert (HL : 0 < length tokens) by (destruct tokens; [ congruence | simpl; lia ]).
    assert (HVpos : 0 < V).
    { destruct tokens as [ | t ts ]; [ congruence | ].
      apply Forall_cons_1 in Hvalid. destruct Hvalid as [Ht _].
      unfold valid_id in Ht. lia. }
    set (row := fun v : nat => item3 logits 0 (length tokens - 1) v).
    destruct (argmax_below_spec row V HVpos) as (Hp & Hmax & Hfirst).
    exists (argmax_below row V).
    split; [ | split; [ exact Hp | split; [ exact Hmax | exact Hfirst ] ] ].
    exact (greedy_decode_of_logits V m tokens logits Hx El Sl HL HVpos).
  - rewrite (readonly_greedy_decode tokens m). reflexivity.
Qed.

Lemma greedy_decode_argmax_witness :
  mkIndexTensor int64 [[2; 0; 1]%Z] = mkIndexTensor int64 [[2; 0; 1]%Z]
  /\ (forall st e,
        eval (SimpleLLM.forward (mkIndexTensor int64 [[2; 0; 1]%Z])) tiny_model
          = Raise st e ->
        greedy_decode [2; 0; 1]%Z tiny_model = (Raise st e, tiny_model))
  /\ (forall logits,
        eval (SimpleLLM.forward (mkIndexTensor int64 [[2; 0; 1]%Z])) tiny_model
          = Ok logits ->
        exists p,
          greedy_decode [2; 0; 1]%Z tiny_model = (Ok (Z.of_nat p), tiny_model)
          /\ p < 3
          /\ (forall v, v < 3 ->
                (item3 logits 0 (length [2; 0; 1]%Z - 1) v
                 <= item3 logits 0 (length [2; 0; 1]%Z - 1) p)%R)
          /\ (forall v, v < p ->
                (item3 logits 0 (length [2; 0; 1]%Z - 1) v
                 < item3 logits 0 (length [2; 0; 1]%Z - 1) p)%R))
  /\ (Forall (valid_id 3) [2; 0; 1]%Z ->
      length [2; 0; 1]%Z <= PositionalEncoding.default_max_seq_len ->
      exists logits,
        eval (SimpleLLM.forward (mkIndexTensor int64 [[2; 0; 1]%Z])) tiny_model
          = Ok logits
        /\ shape3 logits = (1, length [2; 0; 1]%Z, 3))
  /\ greedy_decode [2; 0; 1]%Z (snd (greedy_decode [2; 0; 1]%Z tiny_model))
     = greedy_decode [2; 0; 1]%Z tiny_model.
Proof.
  apply (greedy_decode_argmax 3 2 2 tiny_model [2; 0; 1]%Z
           (mkIndexTensor int64 [[2; 0; 1]%Z])).
  - exact tiny_model_wf.
  - simpl. lia.
  - discriminate.
  - reflexivity.
Defined.

(** On the tiny model, whose parameters are all zero, every logit is 0 and
    the first index is returned. *)
Example greedy_decode_tiny :
  greedy_decode [2; 0; 1]%Z tiny_model = (Ok 0%Z, tiny_model).
Proof.
  destruct (SimpleLLM_forward_ok 3 2 2 tiny_model [[2; 0; 1]%Z] tiny_model_wf)
    as (logits & El & Sl).
  { repeat constructor; unfold valid_id; simpl; lia. }
  { simpl. unfold PositionalEncoding.default_max_seq_len. lia. }
  rewrite (greedy_decode_of_logits 3 tiny_model [2; 0; 1]%Z logits eq_refl El Sl)
    by (simpl; lia).
  assert (Hzero : forall v, item3 logits 0 2 v = 0%R).
  { intros v. rewrite SimpleLLM_forward_eval in El.
    destruct (eval (Embedding.forward _) _) as [e | ]; [ | discriminate El ].
    simpl rbind in El.
    destruct (eval (PositionalEncoding.forward _) _) as [pz | ]; [ | discriminate El ].
    simpl rbind in El.
    destruct (eval (Sequential_forward _ _) _) as [t | ]; [ | discriminate El ].
    simpl rbind in El. unfold eval, Linear.forward, bind, get in El. simpl in El.
    destruct (size2 t =? 2); simpl in El; [ | discriminate El ].
    inversion El; subst logits. simpl. lra. }
  do 2 f_equal. simpl argmax_below. simpl length. simpl Nat.sub.
  rewrite !Hzero.
  repeat (destruct (Rlt_dec 0 0) as [Hlt | _]; [ lra | ]). reflexivity.
Qed.

(* ===================================================================== *)
(** * The positional table *)
(* ===================================================================== *)

Lemma setitem_cols_item (dst src out : Tensor2) (start : nat) :
  PositionalEncoding.setitem_cols dst start src = Ok out ->
  rows2 src = rows2 dst ->
  (cols2 src = PositionalEncoding.strided_cols (cols2 dst) start \/ cols2 src = 1)
  /\ forall p c,
       item2 out p c
       = if (start <=? c) && ((c - start) mod 2 =? 0) && (c <? cols2 dst)
         then item2 src p
                (if cols2 src =? PositionalEncoding.strided_cols (cols2 dst) start
                 then (c - start) / 2 else 0)
         else item2 dst p c.
Proof.
  unfold PositionalEncoding.setitem_cols. intros H Hrows.
  destruct (_ && _) eqn:Hcond; [ | discriminate ].
  inversion H; subst out; clear H. simpl.
  apply andb_true_iff in Hcond. destruct Hcond as [_ Hcols].
  apply orb_true_iff in Hcols. split.
  - destruct Hcols as [Hc | Hc]; apply Nat.eqb_eq in Hc; auto.
  - intros p c. rewrite Hrows, Nat.eqb_refl. reflexivity.
Qed.

Lemma positional_entry_raw (d max_seq_len : nat) (self : PositionalEncoding.t)
    (p c : nat) :
  PositionalEncoding.init d max_seq_len = Ok self -> c < d ->
  item3 (PositionalEncoding.pe self) p 0 c
  = (if Nat.even c
     then sin (INR p * exp (INR c * (- ln 10000 / INR d)))
     else cos (INR p * exp (INR (c - 1) * (- ln 10000 / INR d))))%R.
Proof.
  intros Hinit Hc. unfold PositionalEncoding.init in Hinit.
  destruct (d =? 0) eqn:Ed; [ discriminate | ].
  destruct (PositionalEncoding.setitem_cols _ 0 _) as [pe1 | ] eqn:E1;
    [ cbv beta iota delta [rbind] in Hinit | discriminate ].
  destruct (PositionalEncoding.setitem_cols pe1 1 _) as [pe2 | ] eqn:E2;
    [ cbv beta iota delta [rbind] in Hinit | discriminate ].
  inversion Hinit; subst self; clear Hinit. simpl.
  pose proof (setitem_cols_shape _ _ _ _ E1) as [R1 C1]. simpl in R1, C1.
  apply setitem_cols_item in E1; [ | reflexivity ].
  apply setitem_cols_item in E2; [ | simpl; congruence ].
  destruct E1 as [_ I1]. destruct E2 as [Hcols I2].
  rewrite I2, I1, C1. cbn [item2 rows2 cols2 PositionalEncoding.map2 zeros]. clear I1 I2.
  unfold PositionalEncoding.strided_cols in *.
  cbn [cols2 PositionalEncoding.map2] in Hcols. rewrite C1 in Hcols.
  replace (c <? d) with true by (symmetry; apply Nat.ltb_lt; exact Hc).
  rewrite !andb_true_r, Nat.sub_0_r.
  replace (d + 1 - 0) with (d + 1) by lia. rewrite Nat.eqb_refl.
  destruct (Nat.even c) eqn:Heven.
  - apply Nat.even_spec in Heven. destruct Heven as [k ->].
    replace ((1 <=? 2 * k) && ((2 * k - 1) mod 2 =? 0)) with false.
    2:{ symmetry. apply andb_false_iff.
        destruct (Nat.eq_dec k 0) as [-> | Hk]; [ left; reflexivity | right ].
        apply Nat.eqb_neq.
        replace (2 * k - 1) with (1 + (k - 1) * 2) by lia.
        rewrite Nat.Div0.mod_add. discriminate. }
    replace (2 * k) with (k * 2) by lia.
    rewrite Nat.Div0.mod_mul, Nat.div_mul by discriminate.
    cbn [Nat.eqb]. replace (2 * k) with (k * 2) by lia. reflexivity.
  - assert (Hodd : Nat.odd c = true) by (unfold Nat.odd; rewrite Heven; reflexivity).
    apply Nat.odd_spec in Hodd. destruct Hodd as [k ->].
    replace (1 <=? 2 * k + 1) with true by (symmetry; apply Nat.leb_le; lia).
    replace (2 * k + 1 - 1) with (k * 2) by lia.
    rewrite Nat.Div0.mod_mul, Nat.div_mul by discriminate. cbn [Nat.eqb andb].
    replace ((d + 1) / 2 =? (d + 1 - 1) / 2) with true.
    + replace (2 * k) with (k * 2) by lia. reflexivity.
    + symmetry. apply Nat.eqb_eq.
      destruct Hcols as [Hcols | Hcols]; [ exact Hcols | ].
      destruct d as [ | [ | [ | d' ] ] ]; [ lia | lia | reflexivity | exfalso ].
      assert (2 <= (S (S (S d')) + 1) / 2)
        by (apply Nat.div_le_lower_bound; lia).
      lia.
Qed.

(** The angle the code computes is the one of the specification. *)
Lemma angle_formula (p c d : nat) :
  d <> 0 ->
  (INR p * exp (INR c * (- ln 10000 / INR d))
   = INR p / Rpower 10000 (INR c / INR d))%R.
Proof.
  intros Hd. unfold Rpower, Rdiv. rewrite <- exp_Ropp. f_equal. f_equal.
  field. apply not_0_INR. exact Hd.
Qed.

(** The constructor succeeds for every even dimension. *)
Lemma PositionalEncoding_init_even (d max_seq_len : nat) :
  0 < d -> Nat.even d = true ->
  exists self, PositionalEncoding.init d max_seq_len = Ok self.
Proof.
  intros Hd Heven. unfold PositionalEncoding.init.
  replace (d =? 0) with false by (symmetry; apply Nat.eqb_neq; lia).
  apply Nat.even_spec in Heven. destruct Heven as [k ->].
  assert (Hhalf : (2 * k + 1) / 2 = k).
  { replace (2 * k + 1) with (1 + k * 2) by lia.
    rewrite Nat.div_add by discriminate. reflexivity. }
  unfold PositionalEncoding.setitem_cols, PositionalEncoding.strided_cols.
  cbn [rows2 cols2 zeros PositionalEncoding.map2].
  rewrite Nat.sub_0_r, !Nat.eqb_refl.
  cbv beta iota delta [rbind orb andb rows2 cols2].
  rewrite Nat.eqb_refl, Hhalf.
  replace (2 * k + 1 - 1) with (k * 2) by lia.
  rewrite Nat.div_mul by discriminate. rewrite Nat.eqb_refl.
  cbv beta iota delta [rbind orb andb]. eexists. reflexivity.
Qed.

(** It raises for dimension 0 and for odd dimensions from 3 on. *)
Lemma PositionalEncoding_init_zero (max_seq_len : nat) :
  PositionalEncoding.init 0 max_seq_len
  = Raise in_PositionalEncoding_init ZeroDivisionError.
Proof. reflexivity. Qed.

Example PositionalEncoding_init_3 :
  PositionalEncoding.init 3 PositionalEncoding.default_max_seq_len
  = Raise in_PositionalEncoding_init RuntimeError_shape.
Proof. reflexivity. Qed.

(** C4.  When [PositionalEncoding(d, max_seq_len)] has been built, the entry
    of its table for position [p < max_seq_len] and channel [c < d] is
    [sin (p / 10000^(c/d))] for even [c] and [cos (p / 10000^((c-1)/d))]
    for odd [c]; the row of position 0 is 0 at even and 1 at odd channels,
    whatever [d].  The table has shape (max_seq_len, 1, d). *)
Theorem positional_table_entries (d max_seq_len : nat) (self : PositionalEncoding.t)
    (p c : nat)
    (Hinit : PositionalEncoding.init d max_seq_len = Ok self)
    (Hp : p < max_seq_len) (Hc : c < d) :
  shape3 (PositionalEncoding.pe self) = (max_seq_len, 1, d)
  /\ item3 (PositionalEncoding.pe self) p 0 c
     = (if Nat.even c
        then sin (INR p / Rpower 10000 (INR c / INR d))
        else cos (INR p / Rpower 10000 (INR (c - 1) / INR d)))%R
  /\ item3 (PositionalEncoding.pe self) 0 0 c = (if Nat.even c then 0 else 1)%R.
Proof.
  assert (Hd : d <> 0) by lia.
  split; [ exact (PositionalEncoding_init_wf d max_seq_len self Hinit) | ].
  split.
  - rewrite (positional_entry_raw d max_seq_len self p c Hinit Hc).
    destruct (Nat.even c); rewrite angle_formula by exact Hd; reflexivity.
  - rewrite (positional_entry_raw d max_seq_len self 0 c Hinit Hc).
    simpl INR. destruct (Nat.even c); rewrite Rmult_0_l.
    + apply sin_0.
    + apply cos_0.
Qed.

Lemma positional_table_entries_witness :
  exists self,
    PositionalEncoding.init 4 3 = Ok self
    /\ shape3 (PositionalEncoding.pe self) = (3, 1, 4)
    /\ item3 (PositionalEncoding.pe self) 2 0 3
       = (if Nat.even 3
          then sin (INR 2 / Rpower 10000 (INR 3 / INR 4))
          else cos (INR 2 / Rpower 10000 (INR (3 - 1) / INR 4)))%R
    /\ item3 (PositionalEncoding.pe self) 0 0 3 = (if Nat.even 3 then 0 else 1)%R.
Proof.
  eexists. split; [ reflexivity | ].
  apply (positional_table_entries 4 3 _ 2 3); [ reflexivity | lia | lia ].
Defined.

(* ===================================================================== *)
(** * The training loop *)
(* ===================================================================== *)

Lemma for_each_map {S A A' B} (f : A' -> A) (l : list A') (body : A -> B -> M S B)
    (acc : B) (s : S) :
  for_each (map f l) body acc s = for_each l (fun a => body (f a)) acc s.
Proof.
  revert acc s. induction l as [ | a l IH ]; intros acc s; simpl; [ reflexivity | ].
  unfold bind. destruct (body (f a) acc s) as [[acc' | st e] s']; [ apply IH | reflexivity ].
Qed.

Lemma for_each_ext {S A B} (l : list A) (body1 body2 : A -> B -> M S B) :
  (forall a, In a l -> forall acc s, body1 a acc s = body2 a acc s) ->
  forall acc s, for_each l body1 acc s = for_each l body2 acc s.
Proof.
  induction l as [ | a l IH ]; intros H acc s; simpl; [ reflexivity | ].
  unfold bind. rewrite (H a (or_introl eq_refl)).
  destruct (body2 a acc s) as [[acc' | st e] s']; [ | reflexivity ].
  apply IH. intros a' Ha'. apply H. right. exact Ha'.
Qed.

Lemma subscript_in_range (sentence : list Z) (i : nat) :
  i < length sentence -> subscript sentence i = Ok (nth i sentence 0%Z).
Proof.
  intros Hi. unfold subscript.
  destruct (sentence !! i) as [z | ] eqn:E.
  - rewrite (nth_lookup_Some _ _ 0%Z _ E). reflexivity.
  - apply lookup_ge_None in E. lia.
Qed.

Section TrainingFacts.

Variables Grad OptState : Type.
Variable gradient : (SimpleLLM.t -> R) -> SimpleLLM.t -> Grad.
Variable accumulate : Grad -> Grad -> Grad.
Variable adam_step : OptState -> SimpleLLM.t -> option Grad -> OptState * SimpleLLM.t.

(** The model inside the training state is called without being changed. *)
Lemma zoom_model_forward (x : IndexTensor) (s : TrainState Grad OptState) :
  zoom model_ (SimpleLLM.forward x) s = (eval (SimpleLLM.forward x) (model s), s).
Proof.
  unfold zoom. simpl view. rewrite (readonly_run _ _ (readonly_SimpleLLM x)).
  simpl. destruct s; reflexivity.
Qed.

(** The body of the loop, at a split point inside the sentence, is the
    online step on that split point's example. *)
Lemma train_example_online (sentence : list Z) (i : nat) (total_loss : R)
    (s : TrainState Grad OptState) :
  i < length sentence ->
  train_example gradient accumulate adam_step sentence i total_loss s
  = spec_online_step gradient adam_step
      (firstn i sentence) (nth i sentence 0%Z) total_loss s.
Proof.
  intros Hi. unfold train_example, spec_online_step.
  unfold bind at 1. unfold lift at 1.
  destruct (input_tensor_of (firstn i sentence)) as [input_seq | st e];
    [ | reflexivity ].
  unfold bind at 1. unfold lift at 1. rewrite (subscript_in_range sentence i Hi).
  unfold bind at 1. unfold lift at 1.
  destruct (torch_tensor_scalar (nth i sentence 0%Z)) as [target | st e];
    [ | reflexivity ].
  unfold bind at 1. unfold zero_grad at 1.
  unfold bind at 1. rewrite zoom_model_forward. cbn [model].
  destruct (eval (SimpleLLM.forward input_seq) (model s)) as [output | st e];
    [ | reflexivity ].
  unfold bind at 1. unfold lift at 1.
  destruct (select_last output) as [last | st e]; [ | reflexivity ].
  unfold bind at 1. unfold lift at 1. cbn [rbind].
  destruct (CrossEntropyLoss.forward last target) as [loss | st e];
    [ | reflexivity ].
  unfold bind, backward, step, ret. cbn [model grad optimizer stdout].
  destruct (adam_step (optimizer s) (model s) _) as [o' m']. reflexivity.
Qed.

(** ** A sentence of valid ids is trained on without exception *)

Variables V d h : nat.
Hypothesis HV : (Z.of_nat V <= 2 ^ 63)%Z.
Hypothesis adam_step_wf :
  forall o m g, wf_SimpleLLM V d h m -> wf_SimpleLLM V d h (snd (adam_step o m g)).

Lemma CrossEntropyLoss_forward_ok (input : Tensor2) (target : Z) :
  rows2 input = 1 -> valid_id (cols2 input) target ->
  exists loss, CrossEntropyLoss.forward input (mkTensor1 int64 [target]) = Ok loss.
Proof.
  intros Hrows [Hlo Hhi]. unfold CrossEntropyLoss.forward. simpl.
  rewrite Hrows. simpl.
  replace (target =? CrossEntropyLoss.ignore_index)%Z with false
    by (symmetry; apply Z.eqb_neq; unfold CrossEntropyLoss.ignore_index; lia).
  replace (0 <=? target)%Z with true by (symmetry; apply Z.leb_le; lia).
  replace (target <? Z.of_nat (cols2 input))%Z with true
    by (symmetry; apply Z.ltb_lt; lia).
  simpl. eexists. reflexivity.
Qed.

Lemma spec_online_step_ok (prefix : list Z) (target : Z) (total_loss : R)
    (s : TrainState Grad OptState) :
  wf_SimpleLLM V d h (model s) ->
  prefix <> [] -> Forall (valid_id V) prefix ->
  length prefix <= PositionalEncoding.default_max_seq_len ->
  valid_id V target ->
  exists total' s',
    spec_online_step gradient adam_step prefix target total_loss s = (Ok total', s')
    /\ wf_SimpleLLM V d h (model s').
Proof.
  intros Hwf Hne Hvalid Hlen Htarget. unfold spec_online_step.
  rewrite (input_tensor_of_valid V prefix Hne Hvalid HV).
  unfold torch_tensor_scalar. rewrite (valid_id_fits V target Htarget HV).
  destruct (SimpleLLM_forward_ok V d h (model s) [prefix] Hwf) as (logits & El & Sl).
  { apply Forall_cons_2; [ exact Hvalid | apply Forall_nil_2 ]. }
  { exact Hlen. }
  rewrite El. unfold shape3 in Sl. simpl in Sl. injection Sl as S0 S1 S2.
  unfold select_last.
  replace (size1 logits =? 0) with false
    by (symmetry; apply Nat.eqb_neq; rewrite S1;
        destruct prefix; [ congruence | simpl; lia ]).
  cbn [rbind].
  destruct (CrossEntropyLoss_forward_ok
              (mkTensor2 (size0 logits) (size2 logits)
                 (fun b v => item3 logits b (size1 logits - 1) v)) target)
    as (loss & ->); [ exact S0 | simpl; rewrite S2; exact Htarget | ].
  match goal with
  | |- context [adam_step ?o ?m ?g] =>
      pose proof (adam_step_wf o m g Hwf) as Hwf'; destruct (adam_step o m g)
  end.
  do 2 eexists. split; [ reflexivity | exact Hwf' ].
Qed.

Lemma spec_examples_valid (sentence : list Z) :
  Forall (valid_id V) sentence ->
  length sentence <= S PositionalEncoding.default_max_seq_len ->
  Forall (fun example =>
            fst example <> [] /\ Forall (valid_id V) (fst example)
            /\ length (fst example) <= PositionalEncoding.default_max_seq_len
            /\ valid_id V (snd example))
    (spec_examples sentence).
Proof.
  intros Hvalid Hlen. unfold spec_examples. apply Forall_forall.
  intros example Hex. apply list_elem_of_fmap in Hex.
  destruct Hex as (i & -> & Hi). apply elem_of_seq in Hi. simpl.
  assert (Hlen_i : length (firstn i sentence) = i)
    by (rewrite length_take; lia).
  repeat split.
  - intros Hnil. rewrite Hnil in Hlen_i. simpl in Hlen_i. lia.
  - apply Forall_take. exact Hvalid.
  - lia.
  - rewrite Forall_forall in Hvalid. apply Hvalid.
    apply list_elem_of_In, nth_In. lia.
  - rewrite Forall_forall in Hvalid. apply Hvalid.
    apply list_elem_of_In, nth_In. lia.
Qed.

Lemma train_sentence_ok (sentence : list Z) (total_loss : R)
    (s : TrainState Grad OptState) :
  wf_SimpleLLM V d h (model s) ->
  Forall (valid_id V) sentence ->
  length sentence <= S PositionalEncoding.default_max_seq_len ->
  exists total' s',
    train_sentence gradient accumulate adam_step sentence total_loss s = (Ok total', s')
    /\ wf_SimpleLLM V d h (model s').
Proof.
  intros Hwf Hvalid Hlen.
  assert (Heq : train_sentence gradient accumulate adam_step sentence total_loss s
                = for_each (spec_examples sentence)
                    (fun example =>
                       spec_online_step gradient adam_step (fst example) (snd example))
                    total_loss s).
  { unfold train_sentence, spec_examples. rewrite for_each_map.
    apply for_each_ext. intros i Hi acc s'. apply in_seq in Hi.
    apply train_example_online. lia. }
  rewrite Heq. clear Heq.
  pose proof (spec_examples_valid sentence Hvalid Hlen) as Hex.
  revert total_loss s Hwf.
  induction Hex as [ | example examples (Hne & Hv & Hl & Ht) _ IH ];
    intros total_loss s Hwf; simpl.
  - exists total_loss, s. split; [ reflexivity | exact Hwf ].
  - destruct (spec_online_step_ok (fst example) (snd example) total_loss s
                Hwf Hne Hv Hl Ht) as (total' & s' & Hstep & Hwf').
    unfold bind. rewrite Hstep. apply IH. exact Hwf'.
Qed.

(** ** The inner loop, step by step *)

(** On a model of the right shapes, the loss of the example
    (prefix, target) is the cross-entropy of the logits at the last
    position of the prefix, index [length prefix - 1]. *)
Lemma loss_of_explicit (m : SimpleLLM.t) (prefix : list Z) (target : Z) :
  wf_SimpleLLM V d h m ->
  prefix <> [] -> Forall (valid_id V) prefix ->
  length prefix <= PositionalEncoding.default_max_seq_len ->
  valid_id V target ->
  exists logits,
    eval (SimpleLLM.forward (mkIndexTensor int64 [prefix])) m = Ok logits
    /\ shape3 logits = (1, length prefix, V)
    /\ (forall c, spec_last_logits m prefix c
                  = item3 logits 0 (length prefix - 1) c)
    /\ loss_of (mkIndexTensor int64 [prefix]) (mkTensor1 int64 [target]) m
       = Ok (spec_cross_entropy V (spec_last_logits m prefix) target).
Proof.
  intros Hwf Hne Hvalid Hlen Htarget.
  destruct (SimpleLLM_forward_ok V d h m [prefix] Hwf) as (logits & El & Sl).
  { apply Forall_cons_2; [ exact Hvalid | apply Forall_nil_2 ]. }
  { exact Hlen. }
  assert (Hlast : forall c, spec_last_logits m prefix c
                            = item3 logits 0 (length prefix - 1) c).
  { intros c. unfold spec_last_logits. rewrite El. reflexivity. }
  exists logits. split; [ exact El | ]. split; [ exact Sl | ].
  split; [ exact Hlast | ].
  unfold shape3 in Sl. simpl in Sl. injection Sl as S0 S1 S2.
  unfold loss_of. rewrite El. cbn [rbind]. unfold select_last.
  replace (size1 logits =? 0) with false
    by (symmetry; apply Nat.eqb_neq; rewrite S1;
        destruct prefix; [ congruence | simpl; lia ]).
  cbn [rbind]. destruct Htarget as [Hlo Hhi].
  unfold CrossEntropyLoss.forward, CrossEntropyLoss.terms.
  cbn [dtype1 data1 rows2 cols2 length]. rewrite S0, S2. cbn [Nat.eqb].
  replace (target =? CrossEntropyLoss.ignore_index)%Z with false
    by (symmetry; apply Z.eqb_neq; unfold CrossEntropyLoss.ignore_index; lia).
  replace (0 <=? target)%Z with true by (symmetry; apply Z.leb_le; lia).
  replace (target <? Z.of_nat V)%Z with true by (symmetry; apply Z.ltb_lt; lia).
  cbn [andb rbind Nat.eqb]. f_equal.
  unfold CrossEntropyLoss.nll, spec_cross_entropy. cbn [cols2 item2].
  rewrite S1, Hlast.
  rewrite (sumR_ext V (fun c => exp (spec_last_logits m prefix c))
             (fun c => exp (item3 logits 0 (length prefix - 1) c)))
    by (intros c _; rewrite Hlast; reflexivity).
  simpl INR. lra.
Qed.

(** At a split point of a sentence of valid ids, the body of the loop is
    the update of the specification, and leaves a model of the same
    shapes. *)
Lemma train_example_explicit (sentence : list Z) (i : nat) (total_loss : R)
    (s : TrainState Grad OptState) :
  wf_SimpleLLM V d h (model s) ->
  Forall (valid_id V) sentence ->
  length sentence <= S PositionalEncoding.default_max_seq_len ->
  1 <= i < length sentence ->
  train_example gradient accumulate adam_step sentence i total_loss s
  = (Ok (fst (spec_update gradient adam_step V sentence (total_loss, s) i)),
     snd (spec_update gradient adam_step V sentence (total_loss, s) i))
  /\ wf_SimpleLLM V d h
       (model (snd (spec_update gradient adam_step V sentence (total_loss, s) i))).
Proof.
  intros Hwf Hvalid Hlen Hi.
  assert (Hlen_i : length (firstn i sentence) = i) by (rewrite length_take; lia).
  assert (Hne : firstn i sentence <> []).
  { intros Hnil. rewrite Hnil in Hlen_i. simpl in Hlen_i. lia. }
  assert (Hpre : Forall (valid_id V) (firstn i sentence))
    by (apply Forall_take; exact Hvalid).
  assert (Htarget : valid_id V (nth i sentence 0%Z)).
  { rewrite Forall_forall in Hvalid. apply Hvalid.
    apply list_elem_of_In, nth_In. lia. }
  destruct (loss_of_explicit (model s) (firstn i sentence) (nth i sentence 0%Z)
              Hwf Hne Hpre ltac:(lia) Htarget)
    as (logits & El & _ & _ & Hloss).
  rewrite train_example_online by lia. unfold spec_online_step.
  rewrite (input_tensor_of_valid V _ Hne Hpre HV).
  unfold torch_tensor_scalar. rewrite (valid_id_fits V _ Htarget HV).
  rewrite El. unfold loss_of in Hloss. rewrite El in Hloss.
  cbn [rbind] in Hloss. rewrite Hloss.
  unfold spec_update. cbn [fst snd].
  match goal with
  | |- context [adam_step ?o ?m ?g] =>
      pose proof (adam_step_wf o m g Hwf) as Hwf'; destruct (adam_step o m g)
  end.
  split; [ reflexivity | exact Hwf' ].
Qed.

(** A list of split points of one sentence is worked off as the fold of
    the specification's update over it. *)
Lemma split_points_fold (sentence : list Z) (l : list nat) :
  Forall (valid_id V) sentence ->
  length sentence <= S PositionalEncoding.default_max_seq_len ->
  Forall (fun i => 1 <= i < length sentence) l ->
  forall (total_loss : R) (s : TrainState Grad OptState),
    wf_SimpleLLM V d h (model s) ->
    for_each l (train_example gradient accumulate adam_step sentence) total_loss s
    = (Ok (fst (fold_left (spec_update gradient adam_step V sentence) l
                  (total_loss, s))),
       snd (fold_left (spec_update gradient adam_step V sentence) l
              (total_loss, s)))
    /\ wf_SimpleLLM V d h
         (model (snd (fold_left (spec_update gradient adam_step V sentence) l
                        (total_loss, s)))).
Proof.
  intros Hvalid Hlen Hl.
  induction Hl as [ | i l Hi _ IH ]; intros total_loss s Hwf.
  - simpl. split; [ reflexivity | exact Hwf ].
  - destruct (train_example_explicit sentence i total_loss s Hwf Hvalid Hlen Hi)
      as [Hstep Hwf'].
    cbn [for_each fold_left]. unfold bind. rewrite Hstep.
    rewrite (surjective_pairing
               (spec_update gradient adam_step V sentence (total_loss, s) i)) at 3 4 5.
    apply IH. exact Hwf'.
Qed.


End TrainingFacts.


(** The sentences of the notebook tokenize to 28 sequences of valid ids; the
    words outside the vocabulary become the id of "<UNK>". *)
Example tokenized_data_valid :
  exists tokenized,
    tokenized_data = Ok tokenized
    /\ length tokenized = 28
    /\ Forall (Forall (valid_id vocab_size)) tokenized
    /\ tokenized !! 5 = Some [5; 5; 18; 20]%Z.
Proof.
  eexists. split; [ vm_compute; reflexivity | ].
  split; [ reflexivity | ]. split; [ | reflexivity ].
  replace vocab_size with 73 by (vm_compute; reflexivity).
  unfold valid_id. repeat (constructor; [ repeat (constructor; [ lia | ]); constructor | ]).
  constructor.
Qed.

(** With an optimiser that changes nothing, a sentence of three tokens is
    trained on in two steps without exception. *)
Example train_sentence_tiny :
  exists total_loss s',
    train_sentence (Grad := unit) (OptState := unit)
      (fun _ _ => tt) (fun _ _ => tt) (fun o m _ => (o, m))
      [2; 0; 1]%Z 0%R (mkTrainState tiny_model None tt [])
    = (Ok total_loss, s')
    /\ wf_SimpleLLM 3 2 2 (model s').
Proof.
  apply (train_sentence_ok unit unit (fun _ _ => tt) (fun _ _ => tt)
           (fun o m _ => (o, m)) 3 2 2).
  - simpl. lia.
  - intros o m g Hwf. exact Hwf.
  - exact tiny_model_wf.
  - repeat constructor; unfold valid_id; simpl; lia.
  - simpl. unfold PositionalEncoding.default_max_seq_len. lia.
Qed.

(** The failure on long sequences rests on the size of the table the model
    is built with: a positional encoder built with [max_seq_len = 1], which
    [SimpleLLM] never does, adds its single row to every position. *)
Remark PositionalEncoding_of_one_row_broadcasts :
  exists self y,
    PositionalEncoding.init 2 1 = Ok self
    /\ eval (PositionalEncoding.forward (ones 3 1 2)) self = Ok y
    /\ shape3 y = (3, 1, 2)
    /\ forall i k, item3 y i 0 k
                   = (1 + item3 (PositionalEncoding.pe self) 0 0 k)%R.
Proof.
  do 2 eexists. split; [ reflexivity | ]. split; [ reflexivity | ].
  split; reflexivity.
Qed.

(* ===================================================================== *)
(** * More on tokenization *)
(* ===================================================================== *)

Lemma rmap_list_raises {A B} (f : A -> result B) (l : list A) s e :
  l <> [] -> (forall a, f a = Raise s e) -> rmap_list f l = Raise s e.
Proof.
  intros Hne Hf. destruct l as [ | a l ]; [ congruence | ].
  simpl. rewrite Hf. reflexivity.
Qed.

Lemma rmap_list_pure {A B} (f : A -> result B) (g : A -> B) (l : list A) :
  (forall a, f a = Ok (g a)) -> rmap_list f l = Ok (map g l).
Proof.
  intros Hf. induction l as [ | a l IH ]; simpl; [ reflexivity | ].
  rewrite Hf, IH. reflexivity.
Qed.

(** X1.  Without the key "<UNK>" in the vocabulary, [tokenize] raises
    [KeyError] as soon as the text has one word, whether or not the words
    are in the vocabulary: the default is looked up before [get] is called.
    A text without words still gives the empty list. *)
Theorem tokenize_without_unk (text : string) (v : gmap string Z)
    (Hunk : v !! "<UNK>"%string = None) :
  tokenize text v
  = match split text with
    | [] => Ok []
    | _ :: _ => Raise in_tokenize (KeyError "<UNK>")
    end.
Proof.
  unfold tokenize. destruct (split text) as [ | w ws ] eqn:Hsplit.
  - reflexivity.
  - apply rmap_list_raises; [ discriminate | ].
    intros word. unfold getitem. rewrite Hunk. reflexivity.
Qed.

Lemma tokenize_without_unk_witness :
  tokenize "hello world" {[ "hello"%string := 0%Z; "world"%string := 1%Z ]}
  = match split "hello world" with
    | [] => Ok []
    | _ :: _ => Raise in_tokenize (KeyError "<UNK>")
    end.
Proof.
  apply (tokenize_without_unk "hello world"
           {[ "hello"%string := 0%Z; "world"%string := 1%Z ]}).
  vm_compute. reflexivity.
Defined.

Lemma string_app_cons (x : ascii) (a b : string) :
  (String x a ++ b = String x (a ++ b))%string.
Proof. reflexivity. Qed.

Lemma string_app_nil_l (a : string) : (EmptyString ++ a = a)%string.
Proof. reflexivity. Qed.

Lemma string_app_assoc (a b c : string) : ((a ++ b) ++ c = a ++ (b ++ c))%string.
Proof.
  induction a as [ | x a IH ].
  - rewrite !string_app_nil_l. reflexivity.
  - rewrite !string_app_cons, IH. reflexivity.
Qed.

Lemma string_app_nil_r (a : string) : (a ++ EmptyString = a)%string.
Proof.
  induction a as [ | x a IH ]; [ reflexivity | ].
  rewrite string_app_cons, IH. reflexivity.
Qed.

(** Reading a whitespace-free string only extends the word being read. *)
Lemma split_from_word (w cur rest : string) :
  no_space w = true ->
  split_from cur (w ++ rest) = split_from (cur ++ w) rest.
Proof.
  revert cur. induction w as [ | c w IH ]; intros cur Hw.
  - rewrite string_app_nil_l, string_app_nil_r. reflexivity.
  - simpl in Hw. apply andb_true_iff in Hw. destruct Hw as [Hc Hw].
    apply negb_true_iff in Hc. rewrite string_app_cons.
    cbn [split_from]. rewrite Hc, (IH _ Hw), string_app_assoc.
    rewrite string_app_cons, string_app_nil_l. reflexivity.
Qed.

Lemma eqb_nonempty (w : string) :
  w <> EmptyString -> String.eqb w EmptyString = false.
Proof.
  intros Hw. destruct (String.eqb w EmptyString) eqn:E; [ | reflexivity ].
  apply String.eqb_eq in E. contradiction.
Qed.

Lemma split_join_spaces (words : list string) :
  Forall is_word words -> split (join_spaces words) = words.
Proof.
  unfold split. induction 1 as [ | w ws [Hne Hw] Hws IH ]; [ reflexivity | ].
  destruct ws as [ | w' ws' ].
  - cbn [join_spaces]. rewrite <- (string_app_nil_r w) at 1.
    rewrite (split_from_word w _ _ Hw), string_app_nil_l. cbn [split_from].
    rewrite (eqb_nonempty w Hne). reflexivity.
  - change (join_spaces (w :: w' :: ws'))
      with (w ++ String " " (join_spaces (w' :: ws')))%string.
    rewrite (split_from_word w _ _ Hw), string_app_nil_l.
    change (split_from w (String " " (join_spaces (w' :: ws'))))
      with (if String.eqb w EmptyString
            then split_from EmptyString (join_spaces (w' :: ws'))
            else w :: split_from EmptyString (join_spaces (w' :: ws'))).
    rewrite (eqb_nonempty w Hne), IH. reflexivity.
Qed.

(** X2.  Words joined by single spaces are tokenized to one id per word, in
    order: its own id for a word of the vocabulary, the id of "<UNK>" for
    any other word.  [split] gives the words back. *)
Theorem tokenize_join_spaces (words : list string) (v : gmap string Z) (unk : Z)
    (Hunk : v !! "<UNK>"%string = Some unk)
    (Hwords : Forall is_word words) :
  split (join_spaces words) = words
  /\ tokenize (join_spaces words) v = Ok (map (id_of v unk) words).
Proof.
  pose proof (split_join_spaces words Hwords) as Hsplit.
  split; [ exact Hsplit | ].
  unfold tokenize. rewrite Hsplit. apply rmap_list_pure.
  intros word. unfold getitem. rewrite Hunk. simpl.
  unfold dict_get, id_of. destruct (v !! word); reflexivity.
Qed.

Lemma tokenize_join_spaces_witness :
  split (join_spaces ["AI"; "is"; "exciting"]%string) = ["AI"; "is"; "exciting"]%string
  /\ tokenize (join_spaces ["AI"; "is"; "exciting"]%string) vocab
     = Ok (map (id_of vocab 5%Z) ["AI"; "is"; "exciting"]%string).
Proof.
  apply (tokenize_join_spaces ["AI"; "is"; "exciting"]%string vocab 5%Z).
  - vm_compute. reflexivity.
  - repeat constructor; discriminate.
Defined.

Lemma split_from_words (text cur : string) :
  no_space cur = true ->
  Forall is_word (split_from cur text).
Proof.
  revert cur. induction text as [ | c rest IH ]; intros cur Hcur; simpl.
  - destruct (String.eqb cur EmptyString) eqn:E; [ constructor | ].
    repeat constructor; [ | exact Hcur ].
    intros ->. discriminate E.
  - destruct (is_space c) eqn:Hc.
    + destruct (String.eqb cur EmptyString) eqn:E; [ apply IH; reflexivity | ].
      constructor; [ | apply IH; reflexivity ].
      split; [ intros ->; discriminate E | exact Hcur ].
    + apply IH. clear IH. induction cur as [ | x cur IHc ].
      * rewrite string_app_nil_l. simpl. rewrite Hc. reflexivity.
      * simpl in Hcur. apply andb_true_iff in Hcur. destruct Hcur as [Hx Hcur].
        rewrite string_app_cons. simpl. rewrite Hx. simpl. apply IHc. exact Hcur.
Qed.

(** X3.  Whatever the text, the words [split] returns are not empty and
    hold no whitespace character, so a text without any non-whitespace
    character gives no word, and [tokenize] gives no id for it. *)
Theorem split_gives_words (text : string) :
  Forall is_word (split text)
  /\ (no_space text = true -> text <> EmptyString -> split text = [text])
  /\ (forall v, split text = [] -> tokenize text v = Ok []).
Proof.
  split; [ apply split_from_words; reflexivity | split ].
  - intros Hns Hne. unfold split.
    rewrite <- (string_app_nil_r text) at 1.
    rewrite (split_from_word text _ _ Hns), string_app_nil_l. cbn [split_from].
    rewrite (eqb_nonempty text Hne). reflexivity.
  - intros v Hnil. unfold tokenize. rewrite Hnil. reflexivity.
Qed.

(* ===================================================================== *)
(** * Mapping the predicted id back to a word *)
(* ===================================================================== *)

Lemma list_index_absent (v : Z) (l : list Z) :
  v ∉ l -> list_index v l = Raise in_subscript ValueError.
Proof.
  induction l as [ | x l IH ]; intros Hv; simpl; [ reflexivity | ].
  apply not_elem_of_cons in Hv. destruct Hv as [Hne Hv].
  replace (x =? v)%Z with false by (symmetry; apply Z.eqb_neq; congruence).
  rewrite (IH Hv). reflexivity.
Qed.

Lemma list_index_present (v : Z) (l : list Z) :
  v ∈ l -> exists n, list_index v l = Ok n /\ l !! n = Some v.
Proof.
  induction l as [ | x l IH ]; intros Hv; [ inversion Hv | ]. simpl.
  destruct (x =? v)%Z eqn:E.
  - apply Z.eqb_eq in E. subst x. exists 0. split; reflexivity.
  - apply Z.eqb_neq in E. apply elem_of_cons in Hv.
    destruct Hv as [-> | Hv]; [ congruence | ].
    destruct (IH Hv) as (n & -> & Hn). exists (S n). split; [ reflexivity | exact Hn ].
Qed.

Lemma reverse_lookup_of_entry (items : list (string * Z)) (k : string) (v : Z) :
  NoDup (map snd items) -> (k, v) ∈ items -> reverse_lookup items v = Ok k.
Proof.
  intros Hvals Hin. unfold reverse_lookup.
  apply list_elem_of_lookup in Hin. destruct Hin as [i Hi].
  assert (Hvi : map snd items !! i = Some v)
    by (rewrite list_lookup_fmap, Hi; reflexivity).
  destruct (list_index_present v (map snd items)) as (n & -> & Hn).
  { apply list_elem_of_lookup. exists i. exact Hvi. }
  simpl. assert (n = i) by (eapply NoDup_lookup; eauto). subst n.
  rewrite list_lookup_fmap, Hi. reflexivity.
Qed.

(** X4.  For a dict written without a repeated key or a repeated value,
    looking a key up and mapping the id back gives the key again; an id that
    is no value of the dict makes the [print] line raise [ValueError]. *)
Theorem reverse_lookup_round_trip (items : list (string * Z)) (k : string) (v : Z)
    (Hkeys : NoDup (map fst items))
    (Hvals : NoDup (map snd items))
    (Hin : (k, v) ∈ items) :
  (list_to_map items : gmap string Z) !! k = Some v
  /\ reverse_lookup items v = Ok k
  /\ (forall token, token ∉ map snd items ->
        reverse_lookup items token = Raise in_subscript ValueError).
Proof.
  split; [ apply elem_of_list_to_map_1; assumption | ].
  split; [ apply reverse_lookup_of_entry; assumption | ].
  intros token Habsent. unfold reverse_lookup.
  rewrite (list_index_absent token _ Habsent). reflexivity.
Qed.

Lemma vocab_keys_NoDup : NoDup (map fst vocab_items).
Proof. apply (bool_decide_unpack _). vm_compute. exact I. Qed.

Lemma vocab_values_NoDup : NoDup (map snd vocab_items).
Proof. apply (bool_decide_unpack _). vm_compute. exact I. Qed.

Lemma reverse_lookup_round_trip_witness :
  (list_to_map vocab_items : gmap string Z) !! "awesome"%string = Some 19%Z
  /\ reverse_lookup vocab_items 19%Z = Ok "awesome"%string
  /\ (forall token, token ∉ map snd vocab_items ->
        reverse_lookup vocab_items token = Raise in_subscript ValueError).
Proof.
  apply (reverse_lookup_round_trip vocab_items "awesome"%string 19%Z).
  - exact vocab_keys_NoDup.
  - exact vocab_values_NoDup.
  - apply list_elem_of_In. vm_compute. tauto.
Defined.

(* ===================================================================== *)
(** * Building the model *)
(* ===================================================================== *)

Lemma PositionalEncoding_init_odd (k max_seq_len : nat) :
  PositionalEncoding.init (2 * k + 3) max_seq_len
  = Raise in_PositionalEncoding_init RuntimeError_shape.
Proof.
  unfold PositionalEncoding.init.
  replace (2 * k + 3 =? 0) with false by (symmetry; apply Nat.eqb_neq; lia).
  assert (Hsrc : (2 * k + 3 + 1) / 2 = k + 2).
  { replace (2 * k + 3 + 1) with ((k + 2) * 2) by lia.
    apply Nat.div_mul. discriminate. }
  assert (Hdst : (2 * k + 3 + 1 - 1) / 2 = k + 1).
  { replace (2 * k + 3 + 1 - 1) with (1 + (k + 1) * 2) by lia.
    rewrite Nat.div_add by discriminate. reflexivity. }
  unfold PositionalEncoding.setitem_cols, PositionalEncoding.strided_cols.
  cbn [rows2 cols2 zeros PositionalEncoding.map2].
  rewrite Nat.sub_0_r, !Nat.eqb_refl.
  cbv beta iota delta [rbind orb andb rows2 cols2].
  rewrite Nat.eqb_refl, Hsrc, Hdst.
  replace (k + 2 =? k + 1) with false by (symmetry; apply Nat.eqb_neq; lia).
  replace (k + 2 =? 1) with false by (symmetry; apply Nat.eqb_neq; lia).
  reflexivity.
Qed.

Lemma blocks_init_fresh (d h : nat) (theta : initial_values) (ls : list nat) :
  Forall (fun b => fresh_LayerNorm (TransformerBlock.norm1 b)
                   /\ fresh_LayerNorm (TransformerBlock.norm2 b))
    (map (fun l => TransformerBlock.init d h theta (5 * l)) ls).
Proof.
  induction ls as [ | l ls IH ]; simpl; constructor; [ | exact IH ].
  unfold fresh_LayerNorm. simpl. repeat split.
Qed.

(** X5.  [SimpleLLM(V, d, h, n)] cannot be built for every [d]: for [d = 0]
    the positional encoder divides by zero, and for odd [d] from 3 on its
    cosine columns are one fewer than the angles computed, so the
    assignment raises.  For even [d] from 2 on the model is built, with [n]
    blocks, the shapes the layers need, and layer norms of scale 1 and
    shift 0. *)
Theorem SimpleLLM_init_outcome (V h n : nat) (theta : initial_values) :
  SimpleLLM.init V 0 h n theta = Raise in_PositionalEncoding_init ZeroDivisionError
  /\ (forall k, SimpleLLM.init V (2 * k + 3) h n theta
                = Raise in_PositionalEncoding_init RuntimeError_shape)
  /\ (forall k, exists m,
        SimpleLLM.init V (2 * k + 2) h n theta = Ok m
        /\ wf_SimpleLLM V (2 * k + 2) h m
        /\ length (SimpleLLM.transformer_blocks m) = n
        /\ Forall (fun b => fresh_LayerNorm (TransformerBlock.norm1 b)
                            /\ fresh_LayerNorm (TransformerBlock.norm2 b))
             (SimpleLLM.transformer_blocks m)).
Proof.
  split; [ reflexivity | split ].
  - intros k. unfold SimpleLLM.init.
    rewrite PositionalEncoding_init_odd. reflexivity.
  - intros k.
    destruct (PositionalEncoding_init_even (2 * k + 2)
                PositionalEncoding.default_max_seq_len) as [p Hp]; [ lia | | ].
    { apply Nat.even_spec. exists (k + 1). lia. }
    unfold SimpleLLM.init. rewrite Hp. cbv beta iota delta [rbind].
    eexists. split; [ reflexivity | ]. split.
    + apply (SimpleLLM_init_wf V (2 * k + 2) h n theta).
      unfold SimpleLLM.init. rewrite Hp. reflexivity.
    + cbn [SimpleLLM.transformer_blocks].
      split; [ rewrite length_map, length_seq; reflexivity | apply blocks_init_fresh ].
Qed.

(* ===================================================================== *)
(** * Every outcome of the forward pass *)
(* ===================================================================== *)

(** X6.  On a model as the notebook builds it the forward pass has four
    outcomes, checked in this order: a float index tensor raises the dtype
    error; an id outside [0, V) raises [IndexError], also when the sequence
    is too long; valid ids in a sequence longer than the positional table
    raise the size error of the addition; in every other case the pass
    returns logits of shape (B, L, V). *)
Theorem SimpleLLM_forward_outcome (V d h : nat) (m : SimpleLLM.t) (x : IndexTensor)
    (Hwf : wf_SimpleLLM V d h m) :
  (idx_dtype x = float32 ->
     eval (SimpleLLM.forward x) m = Raise in_Embedding RuntimeError_dtype)
  /\ (idx_dtype x = int64 ->
      Exists (Exists (fun id => ~ valid_id V id)) (idx_rows x) ->
      eval (SimpleLLM.forward x) m = Raise in_Embedding IndexError)
  /\ (idx_dtype x = int64 ->
      Forall (Forall (valid_id V)) (idx_rows x) ->
      PositionalEncoding.default_max_seq_len < length (hd [] (idx_rows x)) ->
      eval (SimpleLLM.forward x) m = Raise in_add RuntimeError_shape)
  /\ (idx_dtype x = int64 ->
      Forall (Forall (valid_id V)) (idx_rows x) ->
      length (hd [] (idx_rows x)) <= PositionalEncoding.default_max_seq_len ->
      exists logits,
        eval (SimpleLLM.forward x) m = Ok logits
        /\ shape3 logits = (length (idx_rows x), length (hd [] (idx_rows x)), V)).
Proof.
  assert (HV : nn_Embedding.num_embeddings
                 (Embedding.embedding (SimpleLLM.embedding m)) = V)
    by (destruct Hwf as (HV & _); exact HV).
  destruct x as [dt rows]. simpl.
  split; [ | split; [ | split ] ].
  - intros ->. unfold eval.
    rewrite SimpleLLM_forward_embedding_raises
      with (s := in_Embedding) (e := RuntimeError_dtype); reflexivity.
  - intros -> Hbad. unfold eval.
    rewrite SimpleLLM_forward_embedding_raises
      with (s := in_Embedding) (e := IndexError); [ reflexivity | ].
    unfold Embedding.forward. rewrite eval_zoom, nn_Embedding_forward_int64.
    simpl view. rewrite invalid_rows_rejected; [ reflexivity | ].
    rewrite HV. exact Hbad.
  - intros -> Hok Hlen. rewrite <- HV in Hok.
    destruct (Embedding_forward_ok _ rows Hok) as (e & Ee & _).
    destruct (too_long_after_embedding V d h m (mkIndexTensor int64 rows) e
                Hwf Hlen Ee) as [Hraise _].
    rewrite SimpleLLM_forward_eval, Ee. simpl rbind. rewrite Hraise. reflexivity.
  - intros -> Hok Hlen. exact (SimpleLLM_forward_ok V d h m rows Hwf Hok Hlen).
Qed.

Lemma SimpleLLM_forward_outcome_witness :
  (idx_dtype long_input = float32 ->
     eval (SimpleLLM.forward long_input) tiny_model
     = Raise in_Embedding RuntimeError_dtype)
  /\ (idx_dtype long_input = int64 ->
      Exists (Exists (fun id => ~ valid_id 3 id)) (idx_rows long_input) ->
      eval (SimpleLLM.forward long_input) tiny_model = Raise in_Embedding IndexError)
  /\ (idx_dtype long_input = int64 ->
      Forall (Forall (valid_id 3)) (idx_rows long_input) ->
      PositionalEncoding.default_max_seq_len < length (hd [] (idx_rows long_input)) ->
      eval (SimpleLLM.forward long_input) tiny_model = Raise in_add RuntimeError_shape)
  /\ (idx_dtype long_input = int64 ->
      Forall (Forall (valid_id 3)) (idx_rows long_input) ->
      length (hd [] (idx_rows long_input)) <= PositionalEncoding.default_max_seq_len ->
      exists logits,
        eval (SimpleLLM.forward long_input) tiny_model = Ok logits
        /\ shape3 logits
           = (length (idx_rows long_input), length (hd [] (idx_rows long_input)), 3)).
Proof.
  apply (SimpleLLM_forward_outcome 3 2 2 tiny_model long_input).
  exact tiny_model_wf.
Defined.

(* ===================================================================== *)
(** * More on the positional encoder *)
(* ===================================================================== *)

Lemma positional_entry_bounded (d max_seq_len : nat) (self : PositionalEncoding.t)
    (p c : nat) :
  PositionalEncoding.init d max_seq_len = Ok self -> c < d ->
  (-1 <= item3 (PositionalEncoding.pe self) p 0 c <= 1)%R.
Proof.
  intros Hinit Hc. rewrite (positional_entry_raw d max_seq_len self p c Hinit Hc).
  destruct (Nat.even c); [ apply SIN_bound | apply COS_bound ].
Qed.

(** X7.  For a positional encoder built with any [max_seq_len], a sequence
    of at most [max_seq_len] positions gets, at position [i] of every batch
    element, row [i] of the table added, and keeps its shape; every table
    entry that is added lies between -1 and 1. *)
Theorem positional_encoding_shift (d max_seq_len : nat) (self : PositionalEncoding.t)
    (x : Tensor3)
    (Hinit : PositionalEncoding.init d max_seq_len = Ok self)
    (Hx : size2 x = d)
    (Hlen : size0 x <= max_seq_len) :
  exists y,
    eval (PositionalEncoding.forward x) self = Ok y
    /\ shape3 y = shape3 x
    /\ forall i b k, i < size0 x -> b < size1 x -> k < d ->
         item3 y i b k = (item3 x i b k + item3 (PositionalEncoding.pe self) i 0 k)%R
         /\ (-1 <= item3 (PositionalEncoding.pe self) i 0 k <= 1)%R.
Proof.
  pose proof (PositionalEncoding_init_wf d max_seq_len self Hinit) as Hshape.
  unfold shape3 in Hshape. injection Hshape as H0 H1 H2.
  rewrite PositionalEncoding_forward_eval. unfold tensor_add. simpl.
  rewrite H0, H1, H2, Hx.
  replace (Nat.min (size0 x) max_seq_len) with (size0 x) by lia.
  rewrite !broadcast_dim_same, broadcast_dim_one.
  eexists. split; [ reflexivity | ]. unfold shape3. simpl.
  split; [ congruence | ].
  intros i b k Hi Hb Hk.
  rewrite !bidx_in_range by lia.
  assert (Hone : bidx 1 b = 0) by reflexivity. rewrite Hone.
  split; [ reflexivity | ].
  exact (positional_entry_bounded d max_seq_len self i k Hinit Hk).
Qed.

Lemma positional_encoding_shift_witness :
  exists self,
    PositionalEncoding.init 4 3 = Ok self
    /\ exists y,
         eval (PositionalEncoding.forward (ones 3 2 4)) self = Ok y
         /\ shape3 y = shape3 (ones 3 2 4)
         /\ forall i b k, i < size0 (ones 3 2 4) -> b < size1 (ones 3 2 4) -> k < 4 ->
              item3 y i b k
              = (item3 (ones 3 2 4) i b k + item3 (PositionalEncoding.pe self) i 0 k)%R
              /\ (-1 <= item3 (PositionalEncoding.pe self) i 0 k <= 1)%R.
Proof.
  eexists. split; [ reflexivity | ].
  apply (positional_encoding_shift 4 3 _ (ones 3 2 4)); [ reflexivity | reflexivity | ].
  simpl. lia.
Defined.

(** X8.  In every row of the positional table the channels [2k] and
    [2k + 1] are the sine and the cosine of one angle: the pair lies on the
    unit circle. *)
Theorem positional_pairs_on_unit_circle (d max_seq_len : nat)
    (self : PositionalEncoding.t) (p k : nat)
    (Hinit : PositionalEncoding.init d max_seq_len = Ok self)
    (Hk : 2 * k + 1 < d) :
  (item3 (PositionalEncoding.pe self) p 0 (2 * k)
     * item3 (PositionalEncoding.pe self) p 0 (2 * k)
   + item3 (PositionalEncoding.pe self) p 0 (2 * k + 1)
     * item3 (PositionalEncoding.pe self) p 0 (2 * k + 1) = 1)%R.
Proof.
  rewrite (positional_entry_raw d max_seq_len self p (2 * k) Hinit) by lia.
  rewrite (positional_entry_raw d max_seq_len self p (2 * k + 1) Hinit) by lia.
  replace (Nat.even (2 * k)) with true
    by (symmetry; apply Nat.even_spec; exists k; reflexivity).
  replace (Nat.even (2 * k + 1)) with false.
  2:{ symmetry. rewrite <- Nat.negb_odd. apply negb_false_iff.
      apply Nat.odd_spec. exists k. reflexivity. }
  replace (2 * k + 1 - 1) with (2 * k) by lia.
  pose proof (sin2_cos2 (INR p * exp (INR (2 * k) * (- ln 10000 / INR d)))) as H.
  unfold Rsqr in H. exact H.
Qed.

Lemma positional_pairs_on_unit_circle_witness :
  exists self,
    PositionalEncoding.init 4 3 = Ok self
    /\ (item3 (PositionalEncoding.pe self) 2 0 (2 * 1)
          * item3 (PositionalEncoding.pe self) 2 0 (2 * 1)
        + item3 (PositionalEncoding.pe self) 2 0 (2 * 1 + 1)
          * item3 (PositionalEncoding.pe self) 2 0 (2 * 1 + 1) = 1)%R.
Proof.
  eexists. split; [ reflexivity | ].
  apply (positional_pairs_on_unit_circle 4 3 _ 2 1); [ reflexivity | lia ].
Defined.

(* ===================================================================== *)
(** * More on the training loop *)
(* ===================================================================== *)

Lemma for_each_app {S A B} (l1 l2 : list A) (body : A -> B -> M S B) (acc : B) (s : S) :
  for_each (l1 ++ l2) body acc s
  = bind (for_each l1 body acc) (fun acc' => for_each l2 body acc') s.
Proof.
  revert acc s. induction l1 as [ | a l1 IH ]; intros acc s; simpl.
  - reflexivity.
  - unfold bind in *. destruct (body a acc s) as [[acc' | st e] s'].
    + apply IH.
    + reflexivity.
Qed.

(** A property of the state that every iteration keeps is kept by the loop,
    whether it ends or raises. *)
Lemma for_each_state {S A B} (P : S -> Prop) (l : list A) (body : A -> B -> M S B) :
  (forall a acc s, P s -> P (snd (body a acc s))) ->
  forall acc s, P s -> P (snd (for_each l body acc s)).
Proof.
  intros Hbody. induction l as [ | a l IH ]; intros acc s Hs; simpl; [ exact Hs | ].
  unfold bind. specialize (Hbody a acc s Hs).
  destruct (body a acc s) as [[acc' | st e] s']; simpl in *.
  - apply IH. exact Hbody.
  - exact Hbody.
Qed.

(** A relation between accumulators that every iteration respects is
    respected by the loop. *)
Lemma for_each_acc {S A B} (Rel : B -> B -> Prop) (l : list A)
    (body : A -> B -> M S B) :
  (forall b, Rel b b) -> (forall a b c, Rel a b -> Rel b c -> Rel a c) ->
  (forall a acc s acc' s', body a acc s = (Ok acc', s') -> Rel acc acc') ->
  forall acc s acc' s', for_each l body acc s = (Ok acc', s') -> Rel acc acc'.
Proof.
  intros Hrefl Htrans Hbody.
  induction l as [ | a l IH ]; intros acc s acc' s' H; simpl in H.
  - inversion H; subst. apply Hrefl.
  - unfold bind in H. destruct (body a acc s) as [[acc1 | st e] s1] eqn:E;
      [ | discriminate H ].
    eapply Htrans; [ eapply Hbody; exact E | eapply IH; exact H ].
Qed.

Lemma sumR_const (n : nat) (c : R) : sumR n (fun _ => c) = (INR n * c)%R.
Proof.
  induction n as [ | n IH ]; [ simpl; lra | ].
  rewrite S_INR. simpl. rewrite IH. lra.
Qed.

Lemma sumR_le (n : nat) (f g : nat -> R) :
  (forall k, k < n -> (f k <= g k)%R) -> (sumR n f <= sumR n g)%R.
Proof.
  induction n as [ | n IH ]; intros H; simpl; [ lra | ].
  specialize (IH ltac:(intros; apply H; lia)). specialize (H n ltac:(lia)). lra.
Qed.

Lemma sumR_nonneg (n : nat) (f : nat -> R) :
  (forall k, k < n -> (0 <= f k)%R) -> (0 <= sumR n f)%R.
Proof.
  intros H. replace 0%R with (sumR n (fun _ => 0%R)).
  - apply sumR_le. exact H.
  - rewrite sumR_const. lra.
Qed.

Lemma sumR_ge_term (n : nat) (f : nat -> R) (c : nat) :
  (forall k, (0 <= f k)%R) -> c < n -> (f c <= sumR n f)%R.
Proof.
  intros Hf. induction n as [ | n IH ]; intros Hc; [ lia | ]. simpl.
  destruct (Nat.eq_dec c n) as [-> | Hne].
  - assert (0 <= sumR n f)%R by (apply sumR_nonneg; intros; apply Hf). lra.
  - specialize (IH ltac:(lia)). specialize (Hf n). lra.
Qed.

(** The negative log-likelihood of a class is never negative. *)
Lemma nll_nonneg (input : Tensor2) (n c : nat) :
  c < cols2 input -> (0 <= CrossEntropyLoss.nll input n c)%R.
Proof.
  intros Hc. unfold CrossEntropyLoss.nll.
  set (S := sumR (cols2 input) (fun c' => exp (item2 input n c'))).
  assert (Hge : (exp (item2 input n c) <= S)%R).
  { apply (sumR_ge_term (cols2 input) (fun c' => exp (item2 input n c')) c);
      [ intros; apply Rlt_le, exp_pos | exact Hc ]. }
  assert (Hln : (item2 input n c <= ln S)%R).
  { rewrite <- (ln_exp (item2 input n c)) at 1.
    destruct Hge as [Hlt | Heq].
    - apply Rlt_le, ln_increasing; [ apply exp_pos | exact Hlt ].
    - rewrite Heq. lra. }
  lra.
Qed.

Lemma CrossEntropyLoss_single_nonneg (input : Tensor2) (z : Z) (loss : R) :
  CrossEntropyLoss.forward input (mkTensor1 int64 [z]) = Ok loss -> (0 <= loss)%R.
Proof.
  unfold CrossEntropyLoss.forward. cbn [dtype1 data1 length].
  destruct (rows2 input =? 1); [ | discriminate ].
  cbn [CrossEntropyLoss.terms].
  destruct (z =? CrossEntropyLoss.ignore_index)%Z.
  - cbn [rbind Nat.eqb]. discriminate.
  - destruct ((0 <=? z) && (z <? Z.of_nat (cols2 input)))%Z eqn:Hrange;
      [ | discriminate ].
    cbn [rbind Nat.eqb]. intros H. inversion H. subst loss. clear H.
    apply andb_true_iff in Hrange. destruct Hrange as [Hlo Hhi].
    apply Z.leb_le in Hlo. apply Z.ltb_lt in Hhi.
    assert (Hc : Z.to_nat z < cols2 input) by lia.
    pose proof (nll_nonneg input 0 (Z.to_nat z) Hc). simpl INR.
    unfold Rdiv. rewrite Rinv_1. lra.
Qed.

Lemma torch_tensor_scalar_ok (z : Z) (t : Tensor1) :
  torch_tensor_scalar z = Ok t -> t = mkTensor1 int64 [z].
Proof.
  unfold torch_tensor_scalar. destruct (fits_int64 z); [ | discriminate ].
  intros H. inversion H. reflexivity.
Qed.

Section MoreTrainingFacts.

Variables Grad OptState : Type.
Variable gradient : (SimpleLLM.t -> R) -> SimpleLLM.t -> Grad.
Variable accumulate : Grad -> Grad -> Grad.
Variable adam_init : SimpleLLM.t -> OptState.
Variable adam_step : OptState -> SimpleLLM.t -> option Grad -> OptState * SimpleLLM.t.

Abbreviation example_step := (train_example gradient accumulate adam_step).
Abbreviation sentence_loop := (train_sentence gradient accumulate adam_step).

(** Nothing in the body of the inner loop prints. *)
Lemma train_example_stdout (sentence : list Z) (i : nat) (total_loss : R)
    (s : TrainState Grad OptState) :
  stdout (snd (example_step sentence i total_loss s)) = stdout s.
Proof.
  unfold train_example.
  unfold bind at 1. unfold lift at 1.
  destruct (input_tensor_of (firstn i sentence)) as [input_seq | st e];
    [ | reflexivity ].
  unfold bind at 1. unfold lift at 1.
  destruct (subscript sentence i) as [token | st e]; [ | reflexivity ].
  unfold bind at 1. unfold lift at 1.
  destruct (torch_tensor_scalar token) as [target | st e]; [ | reflexivity ].
  unfold bind at 1. unfold zero_grad at 1.
  unfold bind at 1. rewrite zoom_model_forward. cbn [model].
  destruct (eval (SimpleLLM.forward input_seq) (model s)) as [output | st e];
    [ | reflexivity ].
  unfold bind at 1. unfold lift at 1.
  destruct (select_last output) as [last | st e]; [ | reflexivity ].
  unfold bind at 1. unfold lift at 1.
  destruct (CrossEntropyLoss.forward last target) as [loss | st e];
    [ | reflexivity ].
  unfold bind, backward, step, ret. cbn [model grad optimizer stdout].
  destruct (adam_step (optimizer s) (model s) _) as [o' m']. reflexivity.
Qed.

(** An example that is trained on adds a loss that is not negative. *)
Lemma train_example_loss (sentence : list Z) (i : nat) (total_loss total' : R)
    (s s' : TrainState Grad OptState) :
  example_step sentence i total_loss s = (Ok total', s') ->
  (total_loss <= total')%R.
Proof.
  unfold train_example.
  unfold bind at 1. unfold lift at 1.
  destruct (input_tensor_of (firstn i sentence)) as [input_seq | st e];
    [ | discriminate ].
  unfold bind at 1. unfold lift at 1.
  destruct (subscript sentence i) as [token | st e]; [ | discriminate ].
  unfold bind at 1. unfold lift at 1.
  destruct (torch_tensor_scalar token) as [target | st e] eqn:Etarget;
    [ | discriminate ].
  apply torch_tensor_scalar_ok in Etarget. subst target.
  unfold bind at 1. unfold zero_grad at 1.
  unfold bind at 1. rewrite zoom_model_forward. cbn [model].
  destruct (eval (SimpleLLM.forward input_seq) (model s)) as [output | st e];
    [ | discriminate ].
  unfold bind at 1. unfold lift at 1.
  destruct (select_last output) as [last | st e]; [ | discriminate ].
  unfold bind at 1. unfold lift at 1.
  destruct (CrossEntropyLoss.forward last (mkTensor1 int64 [token]))
    as [loss | st e] eqn:Eloss; [ | discriminate ].
  apply CrossEntropyLoss_single_nonneg in Eloss.
  unfold bind, backward, step, ret. cbn [model grad optimizer stdout].
  destruct (adam_step (optimizer s) (model s) _) as [o' m'].
  intros H. inversion H. lra.
Qed.

Lemma train_sentence_stdout (sentence : list Z) (total_loss : R)
    (s : TrainState Grad OptState) :
  stdout (snd (sentence_loop sentence total_loss s)) = stdout s.
Proof.
  unfold train_sentence.
  apply (for_each_state (fun s' => stdout s' = stdout s)); [ | reflexivity ].
  intros i acc s' Hs'. rewrite train_example_stdout. exact Hs'.
Qed.

Lemma train_sentence_loss (sentence : list Z) (total_loss total' : R)
    (s s' : TrainState Grad OptState) :
  sentence_loop sentence total_loss s = (Ok total', s') ->
  (total_loss <= total')%R.
Proof.
  unfold train_sentence. apply (for_each_acc Rle).
  - intros. lra.
  - intros a b c. lra.
  - intros i acc s1 acc' s1'. apply train_example_loss.
Qed.

(** X11.  On sentences none of whose tokens is the ignored class index
    -100, the loss of every example is a cross-entropy and so not negative:
    when the loop over a sentence ends, the running total is at least what
    it was, and when the loop over all sentences ends, the epoch's total is
    at least 0.  Neither loop prints. *)
Theorem total_loss_never_decreases (tokenized : list (list Z)) (sentence : list Z)
    (total_loss total' epoch_total : R) (s s' s'' : TrainState Grad OptState)
    (Hcounted : counted sentence)
    (Hall : Forall counted tokenized)
    (Hsentence : sentence_loop sentence total_loss s = (Ok total', s'))
    (Hepoch : for_each tokenized sentence_loop 0%R s = (Ok epoch_total, s'')) :
  (total_loss <= total')%R
  /\ (0 <= epoch_total)%R
  /\ stdout s' = stdout s
  /\ stdout s'' = stdout s.
Proof.
  split; [ exact (train_sentence_loss _ _ _ _ _ Hsentence) | ]. split.
  - revert Hepoch. apply (for_each_acc Rle).
    + intros. lra.
    + intros a b c. lra.
    + intros sn acc s1 acc' s1'. apply train_sentence_loss.
  - split.
    + pose proof (train_sentence_stdout sentence total_loss s) as H.
      rewrite Hsentence in H. exact H.
    + assert (H : stdout (snd (for_each tokenized sentence_loop 0%R s)) = stdout s).
      { apply (for_each_state (fun s1 => stdout s1 = stdout s)); [ | reflexivity ].
        intros sn acc s1 Hs1. rewrite train_sentence_stdout. exact Hs1. }
      rewrite Hepoch in H. exact H.
Qed.

End MoreTrainingFacts.

Section TrainingRun.

Variables Grad OptState : Type.
Variable gradient : (SimpleLLM.t -> R) -> SimpleLLM.t -> Grad.
Variable accumulate : Grad -> Grad -> Grad.
Variable adam_init : SimpleLLM.t -> OptState.
Variable adam_step : OptState -> SimpleLLM.t -> option Grad -> OptState * SimpleLLM.t.

Abbreviation sentences_loop := (train_sentence gradient accumulate adam_step).
Abbreviation epoch_body := (train_epoch Grad OptState gradient accumulate adam_step).
Abbreviation training := (train Grad OptState gradient accumulate adam_step).

(** What one epoch that ends has done to the output. *)
Lemma train_epoch_stdout (tokenized : list (list Z)) (epoch : nat)
    (s s' : TrainState Grad OptState) :
  epoch_body tokenized epoch tt s = (Ok tt, s') ->
  exists total_loss,
    (0 <= total_loss)%R
    /\ stdout s' = stdout s ++ (if printing_epoch epoch then [(epoch, total_loss)] else []).
Proof.
  intros Hret. unfold train_epoch, bind in Hret.
  fold (printing_epoch epoch) in Hret.
  destruct (for_each tokenized sentences_loop 0%R s) as [[total | st e] s1] eqn:E;
    [ | discriminate Hret ].
  assert (Hout : stdout s1 = stdout s).
  { assert (H : stdout (snd (for_each tokenized sentences_loop 0%R s)) = stdout s).
    { apply (for_each_state (fun s2 => stdout s2 = stdout s)); [ | reflexivity ].
      intros sn acc s2 Hs2. rewrite train_sentence_stdout. exact Hs2. }
    rewrite E in H. exact H. }
  assert (Hpos : (0 <= total)%R).
  { revert E. apply (for_each_acc Rle).
    - intros. lra.
    - intros a b c. lra.
    - intros sn acc s2 acc' s2'. apply train_sentence_loss. }
  exists total. split; [ exact Hpos | ].
  destruct (printing_epoch epoch); inversion Hret; subst s'; simpl.
  - rewrite Hout. reflexivity.
  - rewrite Hout, app_nil_r. reflexivity.
Qed.

(** The epochs of a list, trained one after the other. *)
Lemma epochs_stdout (tokenized : list (list Z)) (epochs : list nat) :
  forall (s s' : TrainState Grad OptState),
  for_each epochs (epoch_body tokenized) tt s = (Ok tt, s') ->
  exists printed,
    stdout s' = stdout s ++ printed
    /\ map fst printed = List.filter printing_epoch epochs
    /\ Forall (fun line => (0 <= snd line)%R) printed.
Proof.
  induction epochs as [ | epoch epochs IH ]; intros s s' H; simpl in H.
  - inversion H; subst. exists []. rewrite app_nil_r. repeat split. constructor.
  - unfold bind in H.
    destruct (epoch_body tokenized epoch tt s) as [[[] | st e] s1] eqn:E;
      [ | discriminate H ].
    destruct (train_epoch_stdout tokenized epoch s s1 E) as (total & Hpos & Hout).
    destruct (IH s1 s' H) as (printed & Hout' & Hfst & Hall).
    cbn [List.filter]. destruct (printing_epoch epoch).
    + exists ((epoch, total) :: printed). split; [ | split ].
      * rewrite Hout', Hout, <- app_assoc. reflexivity.
      * simpl. rewrite Hfst. reflexivity.
      * constructor; [ exact Hpos | exact Hall ].
    + exists printed. split; [ | split; [ exact Hfst | exact Hall ] ].
      rewrite Hout', Hout, app_nil_r. reflexivity.
Qed.

(** X13.  A training run that ends, on sentences none of whose tokens is
    the ignored class index -100, has printed one line for each epoch
    divisible by 20, in order, and nothing else; every total printed is at
    least 0.  For the 200 epochs of the notebook these are the ten epochs
    0, 20, ..., 180. *)
Theorem train_prints_every_20_epochs (tokenized : list (list Z)) (epochs : nat)
    (s s' : TrainState Grad OptState)
    (Hall : Forall counted tokenized)
    (Hrun : training tokenized epochs s = (Ok tt, s')) :
  (exists printed,
     stdout s' = stdout s ++ printed
     /\ map fst printed = List.filter printing_epoch (seq 0 epochs)
     /\ Forall (fun line => (0 <= snd line)%R) printed)
  /\ List.filter printing_epoch (seq 0 200)
     = [0; 20; 40; 60; 80; 100; 120; 140; 160; 180].
Proof.
  split; [ | vm_compute; reflexivity ].
  unfold train in Hrun. exact (epochs_stdout tokenized (seq 0 epochs) s s' Hrun).
Qed.

(** ** Training on valid data runs to the end *)

Variables V d h : nat.
Hypothesis HV : (Z.of_nat V <= 2 ^ 63)%Z.
Hypothesis adam_step_wf :
  forall o m g, wf_SimpleLLM V d h m -> wf_SimpleLLM V d h (snd (adam_step o m g)).

Lemma sentences_ok (tokenized : list (list Z)) :
  trainable V tokenized ->
  forall (total_loss : R) (s : TrainState Grad OptState),
  wf_SimpleLLM V d h (model s) ->
  exists total' s',
    for_each tokenized sentences_loop total_loss s = (Ok total', s')
    /\ wf_SimpleLLM V d h (model s').
Proof.
  induction 1 as [ | sentence rest [Hvalid Hlen] _ IH ]; intros total s Hwf; simpl.
  - exists total, s. split; [ reflexivity | exact Hwf ].
  - destruct (train_sentence_ok Grad OptState gradient accumulate adam_step
                V d h HV adam_step_wf sentence total s Hwf Hvalid Hlen)
      as (total1 & s1 & Hstep & Hwf1).
    unfold bind. rewrite Hstep. apply IH. exact Hwf1.
Qed.

Lemma fold_left_map {A B C} (f : A -> B -> A) (g : C -> B) (l : list C) (a : A) :
  fold_left f (map g l) a = fold_left (fun a' c => f a' (g c)) l a.
Proof.
  revert a. induction l as [ | c l IH ]; intros a; simpl; [ reflexivity | apply IH ].
Qed.

Lemma spec_split_points_length (tokenized : list (list Z)) :
  length (spec_split_points tokenized)
  = list_sum (map (fun sentence => length sentence - 1) tokenized).
Proof.
  unfold spec_split_points.
  induction tokenized as [ | sentence rest IH ]; [ reflexivity | ].
  cbn [flat_map map list_sum]. rewrite length_app, IH, length_map, length_seq.
  reflexivity.
Qed.

(** X12.  On sentences of valid ids, the two inner loops of an epoch work
    off the split points of all sentences in order, sentence after sentence
    and [i = 1, ..., length - 1] inside each: the state after them is the
    fold of the single-example update over that list, which has the sum of
    the [length - 1] as its length.  A sentence of fewer than two tokens has
    no split point: it is passed over without a forward pass, an update or
    an exception, whatever its token is. *)
Theorem epoch_is_sequence_of_steps (tokenized : list (list Z)) (total_loss : R)
    (s : TrainState Grad OptState)
    (Hdata : trainable V tokenized)
    (Hwf : wf_SimpleLLM V d h (model s)) :
  let final := fold_left
                 (fun acc point =>
                    spec_update gradient adam_step V (fst point) acc (snd point))
                 (spec_split_points tokenized) (total_loss, s) in
  for_each tokenized sentences_loop total_loss s = (Ok (fst final), snd final)
  /\ wf_SimpleLLM V d h (model (snd final))
  /\ length (spec_split_points tokenized)
     = list_sum (map (fun sentence => length sentence - 1) tokenized)
  /\ (forall sentence total1 (s1 : TrainState Grad OptState),
        length sentence <= 1 ->
        spec_split_points (sentence :: tokenized) = spec_split_points tokenized
        /\ sentences_loop sentence total1 s1 = (Ok total1, s1)).
Proof.
  intros final. subst final.
  split; [ | split; [ | split ] ].
  - revert total_loss s Hwf.
    induction Hdata as [ | sentence rest [Hvalid Hlen] _ IH ]; intros total s Hwf.
    + reflexivity.
    + assert (Hpoints : Forall (fun i => 1 <= i < length sentence)
                          (seq 1 (length sentence - 1))).
      { apply Forall_forall. intros i Hi. apply elem_of_seq in Hi. lia. }
      destruct (split_points_fold Grad OptState gradient accumulate adam_step
                  V d h HV adam_step_wf sentence _ Hvalid Hlen Hpoints total s Hwf)
        as [Hloop Hwf1].
      cbn [for_each]. unfold bind. unfold train_sentence at 1. rewrite Hloop.
      unfold spec_split_points. cbn [flat_map].
      rewrite fold_left_app, fold_left_map. cbn [fst snd].
      change (fun (a' : R * TrainState Grad OptState) (c : nat) =>
                spec_update gradient adam_step V sentence a' c)
        with (spec_update gradient adam_step V sentence).
      destruct (fold_left (spec_update gradient adam_step V sentence)
                  (seq 1 (length sentence - 1)) (total, s)) as [total1 s1].
      cbn [fst snd] in *. apply IH. exact Hwf1.
  - revert total_loss s Hwf.
    induction Hdata as [ | sentence rest [Hvalid Hlen] _ IH ]; intros total s Hwf.
    + exact Hwf.
    + assert (Hpoints : Forall (fun i => 1 <= i < length sentence)
                          (seq 1 (length sentence - 1))).
      { apply Forall_forall. intros i Hi. apply elem_of_seq in Hi. lia. }
      destruct (split_points_fold Grad OptState gradient accumulate adam_step
                  V d h HV adam_step_wf sentence _ Hvalid Hlen Hpoints total s Hwf)
        as [_ Hwf1].
      unfold spec_split_points. cbn [flat_map].
      rewrite fold_left_app, fold_left_map. cbn [fst snd].
      change (fun (a' : R * TrainState Grad OptState) (c : nat) =>
                spec_update gradient adam_step V sentence a' c)
        with (spec_update gradient adam_step V sentence).
      destruct (fold_left (spec_update gradient adam_step V sentence)
                  (seq 1 (length sentence - 1)) (total, s)) as [total1 s1].
      cbn [fst snd] in *. apply IH. exact Hwf1.
  - apply spec_split_points_length.
  - intros sentence total1 s1 Hlen. split.
    + unfold spec_split_points. cbn [flat_map].
      replace (length sentence - 1) with 0 by lia. reflexivity.
    + unfold train_sentence. replace (length sentence - 1) with 0 by lia.
      reflexivity.
Qed.

Lemma train_epoch_ok (tokenized : list (list Z)) (epoch : nat)
    (s : TrainState Grad OptState) :
  trainable V tokenized -> wf_SimpleLLM V d h (model s) ->
  exists s', epoch_body tokenized epoch tt s = (Ok tt, s')
             /\ wf_SimpleLLM V d h (model s').
Proof.
  intros Hdata Hwf. unfold train_epoch, bind.
  destruct (sentences_ok tokenized Hdata 0%R s Hwf) as (total & s1 & -> & Hwf1).
  destruct (epoch mod 20 =? 0).
  - eexists. split; [ reflexivity | exact Hwf1 ].
  - eexists. split; [ reflexivity | exact Hwf1 ].
Qed.

Lemma epochs_ok (tokenized : list (list Z)) (epochs : list nat) :
  trainable V tokenized ->
  forall s : TrainState Grad OptState, wf_SimpleLLM V d h (model s) ->
  exists s', for_each epochs (epoch_body tokenized) tt s = (Ok tt, s')
             /\ wf_SimpleLLM V d h (model s').
Proof.
  intros Hdata. induction epochs as [ | epoch epochs IH ]; intros s Hwf; simpl.
  - exists s. split; [ reflexivity | exact Hwf ].
  - destruct (train_epoch_ok tokenized epoch s Hdata Hwf) as (s1 & Hstep & Hwf1).
    unfold bind. rewrite Hstep. apply IH. exact Hwf1.
Qed.

(** X14.  On a model as the notebook builds it, with an optimiser that keeps
    the shapes of the parameters, training on sentences of valid ids of at
    most 5001 tokens never raises, for any number of epochs: it ends with a
    model of the same shapes, and one more epoch can always follow. *)
Theorem train_runs_to_the_end (tokenized : list (list Z)) (epochs : nat)
    (s : TrainState Grad OptState)
    (Hdata : trainable V tokenized)
    (Hwf : wf_SimpleLLM V d h (model s)) :
  exists s',
    training tokenized epochs s = (Ok tt, s')
    /\ wf_SimpleLLM V d h (model s')
    /\ exists s'', epoch_body tokenized epochs tt s' = (Ok tt, s'')
                   /\ training tokenized (S epochs) s = (Ok tt, s'').
Proof.
  destruct (epochs_ok tokenized (seq 0 epochs) Hdata s Hwf) as (s' & Hrun & Hwf').
  exists s'. split; [ exact Hrun | ]. split; [ exact Hwf' | ].
  destruct (train_epoch_ok tokenized epochs s' Hdata Hwf') as (s'' & Hstep & _).
  exists s''. split; [ exact Hstep | ].
  unfold train. rewrite seq_S, for_each_app. unfold bind.
  rewrite Hrun. simpl. unfold bind. rewrite Hstep. reflexivity.
Qed.

End TrainingRun.

Lemma tiny_data_trainable : trainable 3 tiny_data.
Proof.
  unfold trainable, tiny_data, valid_id, PositionalEncoding.default_max_seq_len.
  repeat (constructor; [ split; [ repeat (constructor; [ lia | ]); constructor
                                | simpl; lia ] | ]).
  constructor.
Qed.

Lemma identity_step_wf (V d h : nat) :
  forall (o : unit) m (g : option unit),
    wf_SimpleLLM V d h m -> wf_SimpleLLM V d h (snd (identity_step o m g)).
Proof. intros o m g Hwf. exact Hwf. Qed.

Lemma three_fits : (Z.of_nat 3 <= 2 ^ 63)%Z.
Proof. simpl. lia. Qed.

Lemma tiny_data_counted : Forall counted tiny_data.
Proof.
  unfold tiny_data, counted, CrossEntropyLoss.ignore_index.
  repeat (constructor; [ repeat (constructor; [ lia | ]); constructor | ]).
  constructor.
Qed.

Lemma epoch_is_sequence_of_steps_witness :
  let final := fold_left
                 (fun acc point =>
                    spec_update no_gradient identity_step 3 (fst point) acc (snd point))
                 (spec_split_points tiny_data) (0%R, tiny_state) in
  for_each tiny_data (train_sentence no_gradient no_accumulate identity_step)
    0%R tiny_state = (Ok (fst final), snd final)
  /\ wf_SimpleLLM 3 2 2 (model (snd final))
  /\ length (spec_split_points tiny_data)
     = list_sum (map (fun sentence => length sentence - 1) tiny_data)
  /\ (forall sentence total1 (s1 : TrainState unit unit),
        length sentence <= 1 ->
        spec_split_points (sentence :: tiny_data) = spec_split_points tiny_data
        /\ train_sentence no_gradient no_accumulate identity_step sentence total1 s1
           = (Ok total1, s1)).
Proof.
  apply (epoch_is_sequence_of_steps unit unit no_gradient no_accumulate identity_step
           3 2 2 three_fits (identity_step_wf 3 2 2) tiny_data 0%R tiny_state).
  - exact tiny_data_trainable.
  - exact tiny_model_wf.
Defined.

Lemma total_loss_never_decreases_witness :
  exists total' epoch_total s' s'',
    train_sentence no_gradient no_accumulate identity_step [2; 0; 1]%Z 1%R tiny_state
      = (Ok total', s')
    /\ for_each tiny_data (train_sentence no_gradient no_accumulate identity_step)
         0%R tiny_state = (Ok epoch_total, s'')
    /\ (1 <= total')%R
    /\ (0 <= epoch_total)%R
    /\ stdout s' = stdout tiny_state
    /\ stdout s'' = stdout tiny_state.
Proof.
  destruct (train_sentence_ok unit unit no_gradient no_accumulate identity_step
              3 2 2 three_fits (identity_step_wf 3 2 2) [2; 0; 1]%Z 1%R tiny_state
              tiny_model_wf)
    as (total' & s' & Hsentence & _).
  { repeat constructor; unfold valid_id; simpl; lia. }
  { simpl. unfold PositionalEncoding.default_max_seq_len. lia. }
  destruct (sentences_ok unit unit no_gradient no_accumulate identity_step
              3 2 2 three_fits (identity_step_wf 3 2 2) tiny_data
              tiny_data_trainable 0%R tiny_state tiny_model_wf)
    as (epoch_total & s'' & Hepoch & _).
  exists total', epoch_total, s', s''.
  split; [ exact Hsentence | ]. split; [ exact Hepoch | ].
  refine (total_loss_never_decreases unit unit no_gradient no_accumulate identity_step
            tiny_data [2; 0; 1]%Z 1%R total' epoch_total tiny_state s' s''
            _ tiny_data_counted Hsentence Hepoch).
  unfold counted, CrossEntropyLoss.ignore_index.
  repeat (constructor; [ lia | ]). constructor.
Defined.

Lemma train_prints_every_20_epochs_witness :
  exists s',
    train unit unit no_gradient no_accumulate identity_step tiny_data 41 tiny_state
      = (Ok tt, s')
    /\ (exists printed,
          stdout s' = stdout tiny_state ++ printed
          /\ map fst printed = List.filter printing_epoch (seq 0 41)
          /\ Forall (fun line => (0 <= snd line)%R) printed)
    /\ List.filter printing_epoch (seq 0 200)
       = [0; 20; 40; 60; 80; 100; 120; 140; 160; 180].
Proof.
  destruct (epochs_ok unit unit no_gradient no_accumulate identity_step
              3 2 2 three_fits (identity_step_wf 3 2 2) tiny_data (seq 0 41)
              tiny_data_trainable tiny_state tiny_model_wf)
    as (s' & Hrun & _).
  exists s'. split; [ exact Hrun | ].
  exact (train_prints_every_20_epochs unit unit no_gradient no_accumulate
           identity_step tiny_data 41 tiny_state s' tiny_data_counted Hrun).
Defined.

Lemma train_runs_to_the_end_witness :
  exists s',
    train unit unit no_gradient no_accumulate identity_step tiny_data 41 tiny_state
      = (Ok tt, s')
    /\ wf_SimpleLLM 3 2 2 (model s')
    /\ exists s'',
         train_epoch unit unit no_gradient no_accumulate identity_step
           tiny_data 41 tt s' = (Ok tt, s'')
         /\ train unit unit no_gradient no_accumulate identity_step tiny_data 42
              tiny_state = (Ok tt, s'').
Proof.
  apply (train_runs_to_the_end unit unit no_gradient no_accumulate identity_step
           3 2 2 three_fits (identity_step_wf 3 2 2) tiny_data 41 tiny_state).
  - exact tiny_data_trainable.
  - exact tiny_model_wf.
Defined.

(* ===================================================================== *)
(** * The two cells of the notebook, run on its own data *)
(* ===================================================================== *)

Lemma SimpleLLM_init_even (V d h n : nat) (theta : initial_values) :
  0 < d -> Nat.even d = true ->
  exists m, SimpleLLM.init V d h n theta = Ok m /\ wf_SimpleLLM V d h m.
Proof.
  intros Hd Heven.
  destruct (PositionalEncoding_init_even d PositionalEncoding.default_max_seq_len
              Hd Heven) as [p Hp].
  assert (Hinit : exists m, SimpleLLM.init V d h n theta = Ok m).
  { unfold SimpleLLM.init. rewrite Hp. simpl rbind. eexists. reflexivity. }
  destruct Hinit as [m Hm]. exists m. split; [ exact Hm | ].
  exact (SimpleLLM_init_wf V d h n theta m Hm).
Qed.

Lemma vocab_size_fits : (Z.of_nat vocab_size <= 2 ^ 63)%Z.
Proof. replace vocab_size with 73 by (vm_compute; reflexivity). simpl. lia. Qed.

Lemma notebook_data_trainable :
  exists tokenized, tokenized_data = Ok tokenized /\ trainable vocab_size tokenized.
Proof.
  eexists. split; [ vm_compute; reflexivity | ].
  replace vocab_size with 73 by (vm_compute; reflexivity).
  unfold trainable, valid_id, PositionalEncoding.default_max_seq_len.
  repeat (constructor; [ split; [ repeat (constructor; [ lia | ]); constructor
                                | simpl; lia ] | ]).
  constructor.
Qed.

(** X15.  The training cell of the notebook, whatever values the model is
    initialised with and for every optimiser that keeps the shapes of the
    parameters, runs its 200 epochs over the 28 sentences without an
    exception.  It prints ten lines, for the epochs 0, 20, ..., 180, each
    with a total loss of at least 0, and leaves a model of the shapes it
    was built with. *)
Theorem training_cell_runs (Grad OptState : Type)
    (gradient : (SimpleLLM.t -> R) -> SimpleLLM.t -> Grad)
    (accumulate : Grad -> Grad -> Grad)
    (adam_init : SimpleLLM.t -> OptState)
    (adam_step : OptState -> SimpleLLM.t -> option Grad -> OptState * SimpleLLM.t)
    (theta : initial_values)
    (Hadam : forall o m g,
        wf_SimpleLLM vocab_size embedding_dim hidden_dim m ->
        wf_SimpleLLM vocab_size embedding_dim hidden_dim (snd (adam_step o m g))) :
  exists s',
    training_cell Grad OptState gradient accumulate adam_init adam_step theta
      = Ok (Ok tt, s')
    /\ wf_SimpleLLM vocab_size embedding_dim hidden_dim (model s')
    /\ map fst (stdout s') = [0; 20; 40; 60; 80; 100; 120; 140; 160; 180]
    /\ Forall (fun line => (0 <= snd line)%R) (stdout s').
Proof.
  destruct (SimpleLLM_init_even vocab_size embedding_dim hidden_dim num_layers theta)
    as (m & Hinit & Hwf); [ unfold embedding_dim; lia | reflexivity | ].
  destruct notebook_data_trainable as (tokenized & Htok & Hdata).
  set (s := mkTrainState (Grad := Grad) m None (adam_init m) []).
  destruct (epochs_ok Grad OptState gradient accumulate adam_step
              vocab_size embedding_dim hidden_dim vocab_size_fits Hadam
              tokenized (seq 0 200) Hdata s Hwf)
    as (s' & Hrun & Hwf').
  destruct (epochs_stdout Grad OptState gradient accumulate adam_step
              tokenized (seq 0 200) s s' Hrun)
    as (printed & Hout & Hfst & Hpos).
  exists s'. split.
  { unfold training_cell. rewrite Hinit. cbn [rbind]. rewrite Htok. cbn [rbind].
    unfold train. fold s. rewrite Hrun. reflexivity. }
  split; [ exact Hwf' | ].
  simpl in Hout. rewrite Hout.
  split; [ rewrite Hfst; vm_compute; reflexivity | exact Hpos ].
Qed.

Lemma training_cell_runs_witness :
  exists s',
    training_cell unit unit no_gradient no_accumulate (fun _ => tt) identity_step
      zero_values = Ok (Ok tt, s')
    /\ wf_SimpleLLM vocab_size embedding_dim hidden_dim (model s')
    /\ map fst (stdout s') = [0; 20; 40; 60; 80; 100; 120; 140; 160; 180]
    /\ Forall (fun line => (0 <= snd line)%R) (stdout s').
Proof.
  apply (training_cell_runs unit unit no_gradient no_accumulate (fun _ => tt)
           identity_step zero_values).
  intros o m g Hwf. exact Hwf.
Defined.

Lemma tokenize_vocab_ok (text : string) :
  exists ids,
    tokenize text vocab = Ok ids
    /\ length ids = length (split text)
    /\ Forall (valid_id vocab_size) ids.
Proof.
  unfold tokenize.
  destruct (rmap_list_total
              (fun word => rbind (getitem vocab "<UNK>")
                             (fun unk => Ok (dict_get vocab word unk)))
              (valid_id vocab_size) (split text))
    as (ids & Hids & Hall & Hlen).
  { intros word.
    assert (Hunk : vocab !! "<UNK>"%string = Some 5%Z) by (vm_compute; reflexivity).
    unfold getitem. rewrite Hunk. simpl. eexists. split; [ reflexivity | ].
    unfold dict_get. destruct (vocab !! word) as [id | ] eqn:Hw.
    - exact (vocab_values_in_range word id Hw).
    - exact (vocab_values_in_range "<UNK>"%string 5%Z Hunk). }
  exists ids. auto.
Qed.

(** Every id below [vocab_size] is the id of a word, and the print line finds
    that word. *)
Lemma reverse_lookup_valid (p : nat) :
  p < vocab_size ->
  exists word,
    reverse_lookup vocab_items (Z.of_nat p) = Ok word
    /\ vocab !! word = Some (Z.of_nat p).
Proof.
  intros Hp.
  assert (Hvalues : map snd vocab_items = map Z.of_nat (seq 0 vocab_size))
    by (vm_compute; reflexivity).
  assert (Hin : Z.of_nat p ∈ map snd vocab_items).
  { rewrite Hvalues. apply list_elem_of_fmap. exists p. split; [ reflexivity | ].
    apply elem_of_seq. lia. }
  apply list_elem_of_fmap in Hin. destruct Hin as ([word id] & Hid & Hin).
  simpl in Hid. subst id. exists word. split.
  - apply reverse_lookup_of_entry; [ exact vocab_values_NoDup | exact Hin ].
  - unfold vocab. apply elem_of_list_to_map_1; [ exact vocab_keys_NoDup | exact Hin ].
Qed.

Lemma greedy_decode_valid (V d h : nat) (m : SimpleLLM.t) (tokens : list Z) :
  wf_SimpleLLM V d h m -> (Z.of_nat V <= 2 ^ 63)%Z ->
  tokens <> [] -> Forall (valid_id V) tokens ->
  length tokens <= PositionalEncoding.default_max_seq_len ->
  exists p, greedy_decode tokens m = (Ok (Z.of_nat p), m) /\ p < V.
Proof.
  intros Hwf HV Hne Hvalid Hlen.
  destruct (SimpleLLM_forward_ok V d h m [tokens] Hwf) as (logits & El & Sl).
  { apply Forall_cons_2; [ exact Hvalid | apply Forall_nil_2 ]. }
  { exact Hlen. }
  assert (HL : 0 < length tokens) by (destruct tokens; [ congruence | simpl; lia ]).
  assert (HVpos : 0 < V).
  { destruct tokens as [ | t ts ]; [ congruence | ].
    apply Forall_cons_1 in Hvalid. destruct Hvalid as [Ht _].
    unfold valid_id in Ht. lia. }
  eexists. split.
  - apply (greedy_decode_of_logits V m tokens logits);
      [ exact (input_tensor_of_valid V tokens Hne Hvalid HV) | exact El
      | exact Sl | exact HL | exact HVpos ].
  - exact (proj1 (argmax_below_spec _ V HVpos)).
Qed.

Lemma greedy_decode_too_long (V d h : nat) (m : SimpleLLM.t) (tokens : list Z) :
  wf_SimpleLLM V d h m -> (Z.of_nat V <= 2 ^ 63)%Z ->
  Forall (valid_id V) tokens ->
  PositionalEncoding.default_max_seq_len < length tokens ->
  greedy_decode tokens m = (Raise in_add RuntimeError_shape, m).
Proof.
  intros Hwf HV Hvalid Hlen.
  assert (Hne : tokens <> []) by (intros ->; simpl in Hlen; lia).
  apply (greedy_decode_forward_raises tokens (mkIndexTensor int64 [tokens]));
    [ exact (input_tensor_of_valid V tokens Hne Hvalid HV) | ].
  assert (Hrows : Forall (Forall (valid_id
                    (nn_Embedding.num_embeddings
                       (Embedding.embedding (SimpleLLM.embedding m))))) [tokens]).
  { destruct Hwf as (-> & _).
    apply Forall_cons_2; [ exact Hvalid | apply Forall_nil_2 ]. }
  destruct (Embedding_forward_ok _ [tokens] Hrows) as (e & Ee & _).
  destruct (too_long_after_embedding V d h m (mkIndexTensor int64 [tokens]) e
              Hwf Hlen Ee) as [Hraise _].
  rewrite SimpleLLM_forward_eval, Ee. simpl rbind. rewrite Hraise. reflexivity.
Qed.

Lemma use_model_print_of (text : string) (m : SimpleLLM.t) (r : result Z) :
  use_model text m = (r, m) ->
  use_model_print text m
  = (rbind r (fun id => rbind (reverse_lookup vocab_items id)
                          (fun word => Ok (predicted_line text word))), m).
Proof.
  intros Huse. unfold use_model_print. unfold bind at 1. rewrite Huse.
  destruct r as [id | st e]; [ | reflexivity ].
  unfold bind, lift, ret. cbn [rbind].
  destruct (reverse_lookup vocab_items id); reflexivity.
Qed.

(** X16.  The cell of step 8 on a model built for the notebook's
    vocabulary: a text of 1 to 5000 words, known or not, always gets a
    prediction, which is a word of the vocabulary, and the model is left
    unchanged.  A text without a word ends in the embedding's dtype error,
    a text of more than 5000 words in the size error of the positional
    encoder; nothing is printed then. *)
Theorem use_model_print_outcome (d h : nat) (m : SimpleLLM.t) (text : string)
    (Hwf : wf_SimpleLLM vocab_size d h m) :
  (split text = [] ->
     use_model_print text m = (Raise in_Embedding RuntimeError_dtype, m))
  /\ (PositionalEncoding.default_max_seq_len < length (split text) ->
      use_model_print text m = (Raise in_add RuntimeError_shape, m))
  /\ (split text <> [] ->
      length (split text) <= PositionalEncoding.default_max_seq_len ->
      exists word id,
        vocab !! word = Some id
        /\ use_model text m = (Ok id, m)
        /\ use_model_print text m = (Ok (predicted_line text word), m)).
Proof.
  destruct (tokenize_vocab_ok text) as (ids & Htok & Hlen & Hvalid).
  assert (Huse : use_model text m = greedy_decode ids m).
  { unfold use_model, bind, lift. rewrite Htok. reflexivity. }
  split; [ | split ].
  - intros Hnil. rewrite Hnil in Hlen. destruct ids; [ | discriminate Hlen ].
    rewrite (use_model_print_of text m (Raise in_Embedding RuntimeError_dtype));
      [ reflexivity | rewrite Huse; apply greedy_decode_nil ].
  - intros Hlong. rewrite <- Hlen in Hlong.
    rewrite (use_model_print_of text m (Raise in_add RuntimeError_shape));
      [ reflexivity | ].
    rewrite Huse.
    exact (greedy_decode_too_long vocab_size d h m ids Hwf vocab_size_fits
             Hvalid Hlong).
  - intros Hne Hshort. rewrite <- Hlen in Hshort.
    assert (Hids : ids <> []).
    { intros ->. simpl in Hlen. destruct (split text); [ congruence | discriminate ]. }
    destruct (greedy_decode_valid vocab_size d h m ids Hwf vocab_size_fits
                Hids Hvalid Hshort) as (p & Hdecode & Hp).
    destruct (reverse_lookup_valid p Hp) as (word & Hword & Hid).
    exists word, (Z.of_nat p).
    split; [ exact Hid | ]. split; [ rewrite Huse; exact Hdecode | ].
    rewrite (use_model_print_of text m (Ok (Z.of_nat p)));
      [ | rewrite Huse; exact Hdecode ].
    cbn [rbind]. rewrite Hword. reflexivity.
Qed.

Lemma notebook_model_wf : wf_SimpleLLM vocab_size embedding_dim hidden_dim notebook_model.
Proof.
  destruct (SimpleLLM_init_even vocab_size embedding_dim hidden_dim num_layers
              zero_values) as (m & Hinit & Hwf);
    [ unfold embedding_dim; lia | reflexivity | ].
  unfold notebook_model. rewrite Hinit. exact Hwf.
Qed.

Lemma use_model_print_outcome_witness :
  (split "AI is" = [] ->
     use_model_print "AI is" notebook_model
     = (Raise in_Embedding RuntimeError_dtype, notebook_model))
  /\ (PositionalEncoding.default_max_seq_len < length (split "AI is") ->
      use_model_print "AI is" notebook_model
      = (Raise in_add RuntimeError_shape, notebook_model))
  /\ (split "AI is" <> [] ->
      length (split "AI is") <= PositionalEncoding.default_max_seq_len ->
      exists word id,
        vocab !! word = Some id
        /\ use_model "AI is" notebook_model = (Ok id, notebook_model)
        /\ use_model_print "AI is" notebook_model
           = (Ok (predicted_line "AI is" word), notebook_model)).
Proof.
  apply (use_model_print_outcome embedding_dim hidden_dim notebook_model "AI is").
  exact notebook_model_wf.
Defined.
